(** * tm-monitor and the key checksum utility: a shallow embedding

    The development follows the Go sources of the repository:
    - [Keys]: the error-correcting-code wrappers ([NoECC], [CRC32], [CRC64]);
    - [Node]: one monitored endpoint (callbacks, reconnect backoff,
      validator queries);
    - [Network]: the shared aggregate the monitor writes to;
    - [Monitor]: registration of nodes, the per-node listener and the
      validator-refresh loop.

    Unsigned machine integers are values of [Z] with the wrap-around written
    out; [float64] is the binary64 type of the kernel; byte slices are lists of
    [Byte.byte]; Go maps keyed by strings are [gmap string _]. *)

From Stdlib Require Import ZArith Lia Floats.
From Stdlib.Strings Require Import Byte.
From stdpp Require Import gmap strings list.

Local Open Scope Z_scope.

(** ** Go primitives shared by all packages *)

Module Go.

(** An [error] value is its message. *)
Definition error := string.

(** Result of a function declared [(T, error)]. *)
Inductive result (A : Type) : Type :=
| Ok (a : A)
| Err (e : error).
Arguments Ok {A} a.
Arguments Err {A} e.

(** Conversions to the fixed-width integer types. *)
Definition uint8 (x : Z) : Z := x mod 2 ^ 8.
Definition uint32 (x : Z) : Z := x mod 2 ^ 32.
Definition uint64 (x : Z) : Z := x mod 2 ^ 64.
Definition int64 (x : Z) : Z := (x + 2 ^ 63) mod 2 ^ 64 - 2 ^ 63.

(** [byte(x)] for an unsigned [x], as a [Byte.byte]. *)
Definition byte_of_Z (x : Z) : byte :=
  match Byte.of_N (Z.to_N (uint8 x)) with
  | Some b => b
  | None => x00
  end.

Definition Z_of_byte (b : byte) : Z := Z.of_N (Byte.to_N b).

#[export] Instance byte_eq_dec : EqDecision byte := Byte.byte_eq_dec.

(** [time.Duration] counts nanoseconds in an [int64]. *)
Definition Duration := Z.
Definition Second : Duration := 1000000000.

(** Channels are known by their identity. A [chan struct{}] that is only
    ever closed is the signal it carries. *)
Definition chan := nat.
Inductive signal := Open | Closed.

(** How a call ends: it returns, the goroutine panics, or the bound put on
    a loop of the model is used up. *)
Inductive outcome (A : Type) : Type :=
| Done (a : A)
| Panic (msg : string)
| OutOfFuel.
Arguments Done {A} a.
Arguments Panic {A} msg.
Arguments OutOfFuel {A}.

(** Code that mutates a state [S] and performs effects of type [E]: the
    effects are logged in program order, also up to a panic. *)
Definition M (E S A : Type) : Type := S -> list E * outcome (A * S).

Definition ret {E S A} (a : A) : M E S A := fun s => ([], Done (a, s)).

Definition bind {E S A B} (m : M E S A) (k : A -> M E S B) : M E S B :=
  fun s =>
    match m s with
    | (tr, Done (a, s')) => let '(tr', r) := k a s' in (tr ++ tr', r)
    | (tr, Panic msg) => (tr, Panic msg)
    | (tr, OutOfFuel) => (tr, OutOfFuel)
    end.

Definition get {E S} : M E S S := fun s => ([], Done (s, s)).
Definition modify {E S} (f : S -> S) : M E S unit := fun s => ([], Done (tt, f s)).
Definition emit {E S} (e : E) : M E S unit := fun s => ([e], Done (tt, s)).
Definition panic {E S A} (msg : string) : M E S A := fun _ => ([], Panic msg).
Definition out_of_fuel {E S A} : M E S A := fun _ => ([], OutOfFuel).

(** [for _, x := range l { body x }]. *)
Fixpoint for_range {E S A} (l : list A) (body : A -> M E S unit) : M E S unit :=
  match l with
  | [] => ret tt
  | x :: l' => bind (body x) (fun _ => for_range l' body)
  end.

End Go.

Notation "x <- m ;; k" := (Go.bind m (fun x => k))
  (at level 100, m at next level, right associativity).
Notation "m ;; k" := (Go.bind m (fun _ => k))
  (at level 100, right associativity).

(** ** Package [keys]: error-correcting codes *)

Module Keys.
Import Go.

(** The parts of [hash/crc32] and [hash/crc64] the package calls: the
    reflected table-driven CRC of the Go library, at bit width [w]. *)
Module crc.

Definition mask (w : Z) : Z := 2 ^ w - 1.

(** One of the eight rounds that build a table entry. *)
Definition round (poly crc : Z) : Z :=
  if Z.land crc 1 =? 1 then Z.lxor (Z.shiftr crc 1) poly else Z.shiftr crc 1.

Definition entry (poly : Z) (i : nat) : Z :=
  Nat.iter 8 (round poly) (Z.of_nat i).

(** [MakeTable(poly)]: a table of 256 entries. *)
Definition MakeTable (poly : Z) : list Z := map (entry poly) (seq 0 256).

(** [tab[i]] for a byte index. *)
Definition at_index (tab : list Z) (i : Z) : Z :=
  match tab !! Z.to_nat i with
  | Some x => x
  | None => 0
  end.

(** The loop body of [update]: [crc = tab[byte(crc)^v] ^ (crc >> 8)]. *)
Definition step (tab : list Z) (crc : Z) (v : byte) : Z :=
  Z.lxor (at_index tab (Z.lxor (uint8 crc) (Z_of_byte v))) (Z.shiftr crc 8).

(** [Update(crc, tab, p)]: complement, fold over the bytes, complement. *)
Definition Update (w : Z) (crc : Z) (tab : list Z) (p : list byte) : Z :=
  Z.lxor (fold_left (step tab) p (Z.lxor crc (mask w))) (mask w).

Definition Checksum (w : Z) (data : list byte) (tab : list Z) : Z :=
  Update w 0 tab data.

(** The values of the Go type [uintW]. *)
Definition in_range (w x : Z) : Prop := 0 <= x < 2 ^ w.

(** A value of the Go type [[256]uintW]. *)
Definition valid_table (w : Z) (tab : list Z) : bool :=
  (length tab =? 256)%nat && forallb (fun x => (0 <=? x) && (x <? 2 ^ w)) tab.

End crc.

(** [hash/crc32]. *)
Module crc32.
Definition Size : nat := 4.
Definition IEEE : Z := 0xedb88320.
Definition Castagnoli : Z := 0x82f63b78.
Definition Koopman : Z := 0xeb31d82e.
Definition MakeTable := crc.MakeTable.
Definition Checksum := crc.Checksum 32.
End crc32.

(** [hash/crc64]. *)
Module crc64.
Definition Size : nat := 8.
Definition ISO : Z := 0xD800000000000000.
Definition ECMA : Z := 0xC96C5795D7870F42.
Definition MakeTable := crc.MakeTable.
Definition Checksum := crc.Checksum 64.
End crc64.

(** [encoding/binary]'s big-endian byte order. *)
Module BigEndian.

(** [PutUintN]: the [n] bytes [byte(v >> 8(n-1)) ... byte(v)]. *)
Fixpoint Put (n : nat) (v : Z) : list byte :=
  match n with
  | O => []
  | S k => byte_of_Z (Z.shiftr v (8 * Z.of_nat k)) :: Put k v
  end.

(** [UintN]: the bytes or-ed together, first byte most significant. *)
Definition Uint (b : list byte) : Z :=
  fold_left (fun acc x => Z.lor (Z.shiftl acc 8) (Z_of_byte x)) b 0.

Definition PutUint32 := Put 4.
Definition Uint32 := Uint.
Definition PutUint64 := Put 8.
Definition Uint64 := Uint.

End BigEndian.

(** The interface [ECC]; a method with a pointer receiver also returns the
    receiver it leaves behind. *)
Class ECC (T : Type) := {
  AddECC : T -> list byte -> list byte * T;
  CheckECC : T -> list byte -> result (list byte) * T
}.

(** [NoECC] is a no-op placeholder. *)
Module NoECC.
Inductive t := mk.
Definition AddECC (_ : t) (input : list byte) : list byte := input.
Definition CheckECC (_ : t) (input : list byte) : result (list byte) := Ok input.
End NoECC.

#[export] Instance NoECC_ECC : ECC NoECC.t := {
  AddECC c input := (NoECC.AddECC c input, c);
  CheckECC c input := (NoECC.CheckECC c input, c)
}.

Module CRC32.

Record t := mk { Poly : Z; table : option (list Z) }.

Definition NewIEEECRC32 : t := mk crc32.IEEE None.
Definition NewCastagnoliCRC32 : t := mk crc32.Castagnoli None.
Definition NewKoopmanCRC32 : t := mk crc32.Koopman None.

Definition getTable (c : t) : list Z * t :=
  match table c with
  | None =>
      let poly := if Poly c =? 0 then crc32.IEEE else Poly c in
      let tab := crc32.MakeTable poly in
      (tab, mk poly (Some tab))
  | Some tab => (tab, c)
  end.

Definition AddECC (c : t) (input : list byte) : list byte * t :=
  let '(tab, c) := getTable c in
  let crc := crc32.Checksum input tab in
  let check := BigEndian.PutUint32 crc in
  (input ++ check, c).

Definition CheckECC (c : t) (input : list byte) : result (list byte) * t :=
  let '(tab, c) := getTable c in
  if (length input <=? crc32.Size)%nat then
    (Err "input too short, no checksum present"%string, c)
  else
    let cut := (length input - crc32.Size)%nat in
    let data := take cut input in
    let check := drop cut input in
    let crc := BigEndian.Uint32 check in
    let calc := crc32.Checksum data tab in
    if negb (crc =? calc) then (Err "Checksum does not match"%string, c)
    else (Ok data, c).

(** The values of the Go type: a 32-bit polynomial and, when the table
    is cached, 256 32-bit entries. *)
Definition valid (c : t) : bool :=
  (0 <=? Poly c) && (Poly c <? 2 ^ 32) &&
  match table c with
  | None => true
  | Some tab => crc.valid_table 32 tab
  end.

End CRC32.

#[export] Instance CRC32_ECC : ECC CRC32.t := {
  AddECC := CRC32.AddECC;
  CheckECC := CRC32.CheckECC
}.

Module CRC64.

Record t := mk { Poly : Z; table : option (list Z) }.

Definition NewISOCRC64 : t := mk crc64.ISO None.
Definition NewECMACRC64 : t := mk crc64.ECMA None.

Definition getTable (c : t) : list Z * t :=
  match table c with
  | None =>
      let poly := if Poly c =? 0 then crc64.ISO else Poly c in
      let tab := crc64.MakeTable poly in
      (tab, mk poly (Some tab))
  | Some tab => (tab, c)
  end.

Definition AddECC (c : t) (input : list byte) : list byte * t :=
  let '(tab, c) := getTable c in
  let crc := crc64.Checksum input tab in
  let check := BigEndian.PutUint64 crc in
  (input ++ check, c).

Definition CheckECC (c : t) (input : list byte) : result (list byte) * t :=
  let '(tab, c) := getTable c in
  if (length input <=? crc64.Size)%nat then
    (Err "input too short, no checksum present"%string, c)
  else
    let cut := (length input - crc64.Size)%nat in
    let data := take cut input in
    let check := drop cut input in
    let crc := BigEndian.Uint64 check in
    let calc := crc64.Checksum data tab in
    if negb (crc =? calc) then (Err "Checksum does not match"%string, c)
    else (Ok data, c).

Definition valid (c : t) : bool :=
  (0 <=? Poly c) && (Poly c <? 2 ^ 64) &&
  match table c with
  | None => true
  | Some tab => crc.valid_table 64 tab
  end.

End CRC64.

#[export] Instance CRC64_ECC : ECC CRC64.t := {
  AddECC := CRC64.AddECC;
  CheckECC := CRC64.CheckECC
}.

(** [check.CheckECC(check.AddECC(b))], threading the receiver. *)
Definition round_trip {T} `{ECC T} (c : T) (b : list byte) : result (list byte) :=
  let '(out, c) := AddECC c b in fst (CheckECC c out).

End Keys.

(** ** The Tendermint types the monitor exchanges with its collaborators *)

Module Tm.
Import Go.

(** [crypto.PubKey] wraps an interface: [None] is the empty key. *)
Definition PubKey := option (list byte).
Definition Empty (k : PubKey) : bool := if k is None then true else false.

Record Validator := mkValidator { ValPubKey : PubKey; VotingPower : Z }.

(** [tmtypes.Header]; [Height] is a signed integer. *)
Record Header := mkHeader { HeaderHeight : Z; NumTxs : Z }.

Record ResultValidators := mkResultValidators {
  BlockHeight : Z;
  Validators : list Validator
}.

Record ResultStatus := mkResultStatus { StatusPubKey : PubKey }.

(** The payload of an event, behind [interface{}]. *)
Inductive EventData :=
| EventDataNewBlockHeader (h : Header)
| EventDataOther.

Definition EventStringNewBlockHeader : string := "NewBlockHeader".

(** The goroutines the package starts. *)
Inductive task :=
| checkIsValidatorLoop (node : string)
| listen (nodeName : string) (blockCh blockLatencyCh disconnectCh : chan)
    (quit : option chan)
| recalculateNetworkUptimeLoop
| updateNumValidatorLoop.

(** What the code does to the world outside its own state. *)
Inductive effect :=
| Sleep (d : Duration)
| SendBlock (ch : chan) (b : Header)
| SendLatency (ch : chan) (l : float)
| SendDisconnect (ch : chan) (d : bool)
| Spawn (g : task).

End Tm.

(** ** [node.go] *)

Module Node.
Import Go Tm.

Definition maxRestarts : nat := 25.

(** The [eventMeter] interface, as an object whose answers are given: the
    [k]-th call of [Start] returns [startResults k], every [Subscribe]
    returns [subscribeResult]. *)
Record eventMeter := mkEventMeter {
  startResults : nat -> option error;
  startCalls : nat;
  subscribeResult : option error;
  running : bool;
  latencyCallbackSet : bool;
  disconnectCallbackSet : bool;
  subscriptions : list string
}.

(** The RPC client, likewise: the [k]-th call answers [validatorsReply k]
    to the method "validators" and [statusReply k] to "status". *)
Record HTTPClient := mkHTTPClient {
  validatorsReply : nat -> result ResultValidators;
  statusReply : nat -> result ResultStatus;
  calls : nat
}.

Record t := mk {
  rpcAddr : string;
  IsValidator : bool;
  pubKey : PubKey;
  Name : string;
  Online : bool;
  Height : Z;
  BlockLatency : float;
  em : eventMeter;
  rpcClient : HTTPClient;
  blockCh : option chan;
  blockLatencyCh : option chan;
  disconnectCh : option chan;
  checkIsValidatorInterval : Duration;
  quit : signal
}.

Definition set_rpcAddr (x : string) (n : t) : t :=
  mk x (IsValidator n) (pubKey n) (Name n) (Online n) (Height n) (BlockLatency n) (em n) (rpcClient n) (blockCh n) (blockLatencyCh n) (disconnectCh n) (checkIsValidatorInterval n) (quit n).

Definition set_IsValidator (x : bool) (n : t) : t :=
  mk (rpcAddr n) x (pubKey n) (Name n) (Online n) (Height n) (BlockLatency n) (em n) (rpcClient n) (blockCh n) (blockLatencyCh n) (disconnectCh n) (checkIsValidatorInterval n) (quit n).

Definition set_pubKey (x : PubKey) (n : t) : t :=
  mk (rpcAddr n) (IsValidator n) x (Name n) (Online n) (Height n) (BlockLatency n) (em n) (rpcClient n) (blockCh n) (blockLatencyCh n) (disconnectCh n) (checkIsValidatorInterval n) (quit n).

Definition set_Name (x : string) (n : t) : t :=
  mk (rpcAddr n) (IsValidator n) (pubKey n) x (Online n) (Height n) (BlockLatency n) (em n) (rpcClient n) (blockCh n) (blockLatencyCh n) (disconnectCh n) (checkIsValidatorInterval n) (quit n).

Definition set_Online (x : bool) (n : t) : t :=
  mk (rpcAddr n) (IsValidator n) (pubKey n) (Name n) x (Height n) (BlockLatency n) (em n) (rpcClient n) (blockCh n) (blockLatencyCh n) (disconnectCh n) (checkIsValidatorInterval n) (quit n).

Definition set_Height (x : Z) (n : t) : t :=
  mk (rpcAddr n) (IsValidator n) (pubKey n) (Name n) (Online n) x (BlockLatency n) (em n) (rpcClient n) (blockCh n) (blockLatencyCh n) (disconnectCh n) (checkIsValidatorInterval n) (quit n).

Definition set_BlockLatency (x : float) (n : t) : t :=
  mk (rpcAddr n) (IsValidator n) (pubKey n) (Name n) (Online n) (Height n) x (em n) (rpcClient n) (blockCh n) (blockLatencyCh n) (disconnectCh n) (checkIsValidatorInterval n) (quit n).

Definition set_em (x : eventMeter) (n : t) : t :=
  mk (rpcAddr n) (IsValidator n) (pubKey n) (Name n) (Online n) (Height n) (BlockLatency n) x (rpcClient n) (blockCh n) (blockLatencyCh n) (disconnectCh n) (checkIsValidatorInterval n) (quit n).

Definition set_rpcClient (x : HTTPClient) (n : t) : t :=
  mk (rpcAddr n) (IsValidator n) (pubKey n) (Name n) (Online n) (Height n) (BlockLatency n) (em n) x (blockCh n) (blockLatencyCh n) (disconnectCh n) (checkIsValidatorInterval n) (quit n).

Definition set_blockCh (x : option chan) (n : t) : t :=
  mk (rpcAddr n) (IsValidator n) (pubKey n) (Name n) (Online n) (Height n) (BlockLatency n) (em n) (rpcClient n) x (blockLatencyCh n) (disconnectCh n) (checkIsValidatorInterval n) (quit n).

Definition set_blockLatencyCh (x : option chan) (n : t) : t :=
  mk (rpcAddr n) (IsValidator n) (pubKey n) (Name n) (Online n) (Height n) (BlockLatency n) (em n) (rpcClient n) (blockCh n) x (disconnectCh n) (checkIsValidatorInterval n) (quit n).

Definition set_disconnectCh (x : option chan) (n : t) : t :=
  mk (rpcAddr n) (IsValidator n) (pubKey n) (Name n) (Online n) (Height n) (BlockLatency n) (em n) (rpcClient n) (blockCh n) (blockLatencyCh n) x (checkIsValidatorInterval n) (quit n).

Definition set_checkIsValidatorInterval (x : Duration) (n : t) : t :=
  mk (rpcAddr n) (IsValidator n) (pubKey n) (Name n) (Online n) (Height n) (BlockLatency n) (em n) (rpcClient n) (blockCh n) (blockLatencyCh n) (disconnectCh n) x (quit n).

Definition set_quit (x : signal) (n : t) : t :=
  mk (rpcAddr n) (IsValidator n) (pubKey n) (Name n) (Online n) (Height n) (BlockLatency n) (em n) (rpcClient n) (blockCh n) (blockLatencyCh n) (disconnectCh n) (checkIsValidatorInterval n) x.

Definition M := Go.M effect t.

(** *** The collaborators' methods, on the node that owns them *)

Definition em_Start : M (option error) :=
  n <- get ;;
  let e := em n in
  let r := startResults e (startCalls e) in
  modify (set_em (mkEventMeter (startResults e) (S (startCalls e)) (subscribeResult e)
                    (if r is None then true else running e)
                    (latencyCallbackSet e) (disconnectCallbackSet e) (subscriptions e))) ;;
  ret r.

Definition em_Stop : M unit :=
  n <- get ;;
  let e := em n in
  modify (set_em (mkEventMeter (startResults e) (startCalls e) (subscribeResult e)
                    false (latencyCallbackSet e) (disconnectCallbackSet e) (subscriptions e))).

Definition em_RegisterLatencyCallback : M unit :=
  n <- get ;;
  let e := em n in
  modify (set_em (mkEventMeter (startResults e) (startCalls e) (subscribeResult e)
                    (running e) true (disconnectCallbackSet e) (subscriptions e))).

Definition em_RegisterDisconnectCallback : M unit :=
  n <- get ;;
  let e := em n in
  modify (set_em (mkEventMeter (startResults e) (startCalls e) (subscribeResult e)
                    (running e) (latencyCallbackSet e) true (subscriptions e))).

Definition em_Subscribe (eventID : string) : M (option error) :=
  n <- get ;;
  let e := em n in
  match subscribeResult e with
  | Some err => ret (Some err)
  | None =>
      modify (set_em (mkEventMeter (startResults e) (startCalls e) (subscribeResult e)
                        (running e) (latencyCallbackSet e) (disconnectCallbackSet e)
                        (eventID :: subscriptions e))) ;;
      ret None
  end.

(** [n.rpcClient.Call("validators", nil, vals)]. *)
Definition rpc_Call_validators : M (result ResultValidators) :=
  n <- get ;;
  let c := rpcClient n in
  modify (set_rpcClient (mkHTTPClient (validatorsReply c) (statusReply c) (S (calls c)))) ;;
  ret (validatorsReply c (calls c)).

(** [n.rpcClient.Call("status", nil, status)]. *)
Definition rpc_Call_status : M (result ResultStatus) :=
  n <- get ;;
  let c := rpcClient n in
  modify (set_rpcClient (mkHTTPClient (validatorsReply c) (statusReply c) (S (calls c)))) ;;
  ret (statusReply c (calls c)).

(** *** The node *)

Definition NewNodeWithEventMeterAndRpcClient (rpcAddr : string) (em : eventMeter)
    (rpcClient : HTTPClient) (options : list (t -> t)) : t :=
  let n := {| rpcAddr := rpcAddr; IsValidator := false; pubKey := None;
              Name := rpcAddr; Online := false; Height := 0; BlockLatency := 0%float;
              em := em; rpcClient := rpcClient;
              blockCh := None; blockLatencyCh := None; disconnectCh := None;
              checkIsValidatorInterval := 5 * Second; quit := Open |} in
  fold_left (fun n option => option n) options n.

Definition SetCheckIsValidatorInterval (d : Duration) : t -> t :=
  set_checkIsValidatorInterval d.

Definition SendBlocksTo (ch : chan) : M unit := modify (set_blockCh (Some ch)).
Definition SendBlockLatenciesTo (ch : chan) : M unit := modify (set_blockLatencyCh (Some ch)).
Definition NotifyAboutDisconnects (ch : chan) : M unit := modify (set_disconnectCh (Some ch)).

Definition validators : M (Z * list Validator * option error) :=
  r <- rpc_Call_validators ;;
  match r with
  | Err err => ret (0, [], Some err)
  | Ok vals => ret (uint64 (BlockHeight vals), Validators vals, None)
  end.

Definition NumValidators : M (Z * Z * option error) :=
  r <- validators ;;
  let '(height, vals, err) := r in
  match err with
  | Some err => ret (0, 0, Some err)
  | None => ret (height, Z.of_nat (length vals), None)
  end.

Definition getPubKey : M (PubKey * option error) :=
  n <- get ;;
  if negb (Empty (pubKey n)) then ret (pubKey n, None)
  else
    r <- rpc_Call_status ;;
    match r with
    | Err err => ret (None, Some err)
    | Ok status =>
        modify (set_pubKey (StatusPubKey status)) ;;
        n <- get ;;
        ret (pubKey n, None)
    end.

Definition checkIsValidator : M unit :=
  r <- validators ;;
  let '(_, validators, err) := r in
  match err with
  | None =>
      for_range validators (fun v =>
        r <- getPubKey ;;
        let '(key, err) := r in
        if (if err is None then true else false) && bool_decide (ValPubKey v = key)
        then modify (set_IsValidator true)
        else ret tt)
  | Some _ => ret tt
  end.

(** [checkIsValidatorLoop], for a run in which the timer fires [ticks]
    times before [quit] is closed. *)
Fixpoint checkIsValidatorLoop (ticks : nat) : M unit :=
  match ticks with
  | O => ret tt
  | S k => checkIsValidator ;; checkIsValidatorLoop k
  end.

Definition Start : M (option error) :=
  err <- em_Start ;;
  match err with
  | Some err => ret (Some err)
  | None =>
      em_RegisterLatencyCallback ;;
      err <- em_Subscribe EventStringNewBlockHeader ;;
      match err with
      | Some err => ret (Some err)
      | None =>
          em_RegisterDisconnectCallback ;;
          modify (set_Online true) ;;
          checkIsValidator ;;
          n <- get ;;
          emit (Spawn (Tm.checkIsValidatorLoop (Name n))) ;;
          ret None
      end
  end.

Definition Stop : M unit :=
  modify (set_Online false) ;;
  em_Stop ;;
  n <- get ;;
  match quit n with
  | Open => modify (set_quit Closed)
  | Closed => panic "close of closed channel"
  end.

Definition newBlockCallback (data : EventData) : M unit :=
  match data with
  | EventDataNewBlockHeader block =>
      modify (set_Height (uint64 (HeaderHeight block))) ;;
      n <- get ;;
      match blockCh n with
      | Some ch => emit (SendBlock ch block)
      | None => ret tt
      end
  | EventDataOther => panic "interface conversion"
  end.

Definition latencyCallback (latency : float) : M unit :=
  modify (set_BlockLatency (latency / 1000000)%float) ;;
  n <- get ;;
  match blockLatencyCh n with
  | Some ch => emit (SendLatency ch latency)
  | None => ret tt
  end.

(** [time.Duration(math.Exp2(float64(attempt)))]: a power of two below
    [2^63] is a [float64] and converts back without loss. *)
Definition Exp2 (attempt : nat) : Duration := 2 ^ Z.of_nat attempt.

(** The loop of [RestartEventMeterBackoff], from [attempt] on; [fuel]
    bounds the number of iterations of the model. *)
Fixpoint backoff_loop (fuel : nat) (attempt : nat) : M (option error) :=
  match fuel with
  | O => out_of_fuel
  | S fuel =>
      let d := Exp2 attempt in
      emit (Sleep (int64 (d * Second))) ;;
      err <- em_Start ;;
      match err with
      | None => ret None
      | Some _ =>
          let attempt := S attempt in
          if (maxRestarts <? attempt)%nat then ret (Some "Reached max restarts"%string)
          else backoff_loop fuel attempt
      end
  end.

Definition RestartEventMeterBackoff : M (option error) :=
  backoff_loop (maxRestarts + 2) 0.

Definition disconnectCallback : M unit :=
  modify (set_Online false) ;;
  n <- get ;;
  match disconnectCh n with
  | Some ch => emit (SendDisconnect ch true)
  | None => ret tt
  end ;;
  err <- RestartEventMeterBackoff ;;
  match err with
  | Some _ => ret tt
  | None =>
      modify (set_Online true) ;;
      n <- get ;;
      match disconnectCh n with
      | Some ch => emit (SendDisconnect ch false)
      | None => ret tt
      end
  end.

(** Everything that can be done to a node, one constructor per entry
    point of the file. *)
Inductive op :=
| OpSendBlocksTo (ch : chan)
| OpSendBlockLatenciesTo (ch : chan)
| OpNotifyAboutDisconnects (ch : chan)
| OpSetCheckIsValidatorInterval (d : Duration)
| OpStart
| OpStop
| OpNewBlock (data : EventData)
| OpLatency (latency : float)
| OpDisconnect
| OpRestartEventMeterBackoff
| OpNumValidators
| OpValidators
| OpCheckIsValidator
| OpCheckIsValidatorLoop (ticks : nat)
| OpGetPubKey.

Definition exec (o : op) : M unit :=
  match o with
  | OpSendBlocksTo ch => SendBlocksTo ch
  | OpSendBlockLatenciesTo ch => SendBlockLatenciesTo ch
  | OpNotifyAboutDisconnects ch => NotifyAboutDisconnects ch
  | OpSetCheckIsValidatorInterval d => modify (SetCheckIsValidatorInterval d)
  | OpStart => Start ;; ret tt
  | OpStop => Stop
  | OpNewBlock data => newBlockCallback data
  | OpLatency latency => latencyCallback latency
  | OpDisconnect => disconnectCallback
  | OpRestartEventMeterBackoff => RestartEventMeterBackoff ;; ret tt
  | OpNumValidators => NumValidators ;; ret tt
  | OpValidators => validators ;; ret tt
  | OpCheckIsValidator => checkIsValidator
  | OpCheckIsValidatorLoop ticks => checkIsValidatorLoop ticks
  | OpGetPubKey => getPubKey ;; ret tt
  end.

(** Every run of [m] that returns relates the node before to the node
    after by [R]. *)
Definition respects {A} (R : relation t) (m : M A) : Prop :=
  forall n tr a n', m n = (tr, Done (a, n')) -> R n n'.

(** A preorder that every assignment made in this file respects; the only
    assignment to [IsValidator] is of [true]. *)
Class Stable (R : relation t) := {
  stable_preorder :: PreOrder R;
  stable_IsValidator : forall n, R n (set_IsValidator true n);
  stable_pubKey : forall x n, R n (set_pubKey x n);
  stable_Online : forall x n, R n (set_Online x n);
  stable_Height : forall x n, R n (set_Height x n);
  stable_BlockLatency : forall x n, R n (set_BlockLatency x n);
  stable_em : forall x n, R n (set_em x n);
  stable_rpcClient : forall x n, R n (set_rpcClient x n);
  stable_blockCh : forall x n, R n (set_blockCh x n);
  stable_blockLatencyCh : forall x n, R n (set_blockLatencyCh x n);
  stable_disconnectCh : forall x n, R n (set_disconnectCh x n);
  stable_checkIsValidatorInterval : forall x n, R n (set_checkIsValidatorInterval x n);
  stable_quit : forall x n, R n (set_quit x n)
}.

(** The validator flag is not taken back. *)
Definition latched : relation t :=
  fun n n' => IsValidator n = true -> IsValidator n' = true.

(** The name is kept. *)
Definition same_name : relation t := fun n n' => Name n' = Name n.

(** The node's own key is [k]: cached, or what every "status" call
    answers. *)
Definition own_key (n : t) (k : list byte) : Prop :=
  pubKey n = Some k \/
  (pubKey n = None /\
   forall i, statusReply (rpcClient n) i = Ok (mkResultStatus (Some k))).

(** *** What the further statements about a node speak of *)

(** [proj] of the node is left as it was. *)
Definition keeps {X} (proj : t -> X) : relation t := fun n n' => proj n' = proj n.

(** A key, once cached, stays. *)
Definition key_latched : relation t :=
  fun n n' => forall k, pubKey n = Some k -> pubKey n' = Some k.

(** The event meter [e] after [k] more calls of [Start], running or not. *)
Definition em_after (e : eventMeter) (k : nat) (up : bool) : eventMeter :=
  mkEventMeter (startResults e) (startCalls e + k) (subscribeResult e) up
               (latencyCallbackSet e) (disconnectCallbackSet e) (subscriptions e).

(** The next [m] calls of [Start] all fail. *)
Definition all_fail (e : eventMeter) (m : nat) : Prop :=
  forall k, (k < m)%nat -> startResults e (startCalls e + k) <> None.

(** The next call of [Start] that succeeds is the one after [j] failures. *)
Definition first_success (e : eventMeter) (j : nat) : Prop :=
  all_fail e j /\ startResults e (startCalls e + j) = None.

(** The sleeps before the attempts 0 to [m - 1]: 1, 2, 4, ... seconds. *)
Definition delays (m : nat) : list effect :=
  map (fun k => Sleep (2 ^ Z.of_nat k * Second)) (seq 0 m).

(** What is sent on the connectivity channel, if one is bound. *)
Definition notify (n : t) (d : bool) : list effect :=
  match disconnectCh n with
  | Some ch => [SendDisconnect ch d]
  | None => []
  end.

(** What [checkIsValidator] may change: the RPC client, the cached key and
    the flag. *)
Definition untouched_by_check (n : t) :=
  (rpcAddr n, Name n, Online n, Height n, BlockLatency n, em n,
   blockCh n, blockLatencyCh n, disconnectCh n, checkIsValidatorInterval n, quit n).

(** The node [Stop] leaves behind. *)
Definition stopped (n : t) : t :=
  set_quit Closed (set_em (em_after (em n) 0 false) (set_Online false n)).

(** The new-block callback on the headers [hs], one event after the
    other. *)
Definition newBlocks (hs : list Header) : M unit :=
  for_range hs (fun h => newBlockCallback (EventDataNewBlockHeader h)).

End Node.

(** ** The aggregate [Network]

    [network.go] is not among the sources: the type and its methods are
    taken from the specification of the component. The uptime bookkeeping
    (transition timestamps, the uptime fraction) is left to a counter of
    recomputations: no statement below reads it. *)

Module Network.
Import Go Tm.

(** Modelled from the spec: the per-node status record of [Network], of
    which only the online flag is represented. *)
Record NodeStatus := mkStatus { online : bool }.

(** Modelled from the spec: the [Network] struct, a mapping from node name
    to status record plus the global height (a [uint64], as
    [updateNumValidatorLoop] compares it with one), the validator count, the
    ingested latency samples and the number of uptime recomputations. *)
Record t := mk {
  nodes : gmap string NodeStatus;
  Height : Z;
  NumValidators : Z;
  latencies : list float;
  recomputations : nat
}.

(** Modelled from the spec: [NewNetwork], an aggregate with no node. *)
Definition NewNetwork : t := mk ∅ 0 0 [] 0.

(** Modelled from the spec: [NewNode], register a node (create status entry,
    default offline). *)
Definition NewNode (name : string) (net : t) : t :=
  mk (<[name := mkStatus false]> (nodes net)) (Height net) (NumValidators net)
     (latencies net) (recomputations net).

(** Modelled from the spec: [NodeDeleted], remove a node (delete entry). *)
Definition NodeDeleted (name : string) (net : t) : t :=
  mk (delete name (nodes net)) (Height net) (NumValidators net)
     (latencies net) (recomputations net).

(** Modelled from the spec: [NodeIsOnline], mark a node online; entries
    are created on admission only, so a name without an entry gets none. *)
Definition NodeIsOnline (name : string) (net : t) : t :=
  mk (alter (fun _ => mkStatus true) name (nodes net)) (Height net) (NumValidators net)
     (latencies net) (recomputations net).

(** Modelled from the spec: [NodeIsDown], mark a node down. *)
Definition NodeIsDown (name : string) (net : t) : t :=
  mk (alter (fun _ => mkStatus false) name (nodes net)) (Height net) (NumValidators net)
     (latencies net) (recomputations net).

(** Modelled from the spec: [NewBlock], ingest a new block (advance global
    height to the max of current and incoming, never regresses). *)
Definition NewBlock (b : Header) (net : t) : t :=
  mk (nodes net) (Z.max (Height net) (uint64 (HeaderHeight b))) (NumValidators net)
     (latencies net) (recomputations net).

(** Modelled from the spec: [NewBlockLatency], ingest a latency sample. *)
Definition NewBlockLatency (l : float) (net : t) : t :=
  mk (nodes net) (Height net) (NumValidators net) (l :: latencies net)
     (recomputations net).

(** Modelled from the spec: [RecalculateUptime], one recomputation tick. *)
Definition RecalculateUptime (net : t) : t :=
  mk (nodes net) (Height net) (NumValidators net) (latencies net)
     (S (recomputations net)).

(** The field [NumValidators] is set directly by the monitor. *)
Definition set_NumValidators (x : Z) (net : t) : t :=
  mk (nodes net) (Height net) x (latencies net) (recomputations net).

(** Modelled from the spec: the online flag of a node's entry, if it has
    one. *)
Definition status (net : t) (name : string) : option bool :=
  online <$> nodes net !! name.

End Network.

(** ** [monitor.go] *)

Module Monitor.
Import Go Tm.

(** Waiting more than this for a block means the node is unhealthy. *)
Definition nodeLivenessTimeout : Duration := 5 * Second.

(** A [*Node] is an address in the heap of nodes. *)
Definition loc := nat.

Record t := mk {
  Nodes : list loc;
  Network : Network.t;
  monitorQuit : signal;
  nodeQuit : gmap string chan;
  recalculateNetworkUptimeEvery : Duration;
  numValidatorsUpdateInterval : Duration
}.

Definition set_Nodes (x : list loc) (m : t) : t :=
  mk x (Network m) (monitorQuit m) (nodeQuit m) (recalculateNetworkUptimeEvery m) (numValidatorsUpdateInterval m).

Definition set_Network (x : Network.t) (m : t) : t :=
  mk (Nodes m) x (monitorQuit m) (nodeQuit m) (recalculateNetworkUptimeEvery m) (numValidatorsUpdateInterval m).

Definition set_monitorQuit (x : signal) (m : t) : t :=
  mk (Nodes m) (Network m) x (nodeQuit m) (recalculateNetworkUptimeEvery m) (numValidatorsUpdateInterval m).

Definition set_nodeQuit (x : gmap string chan) (m : t) : t :=
  mk (Nodes m) (Network m) (monitorQuit m) x (recalculateNetworkUptimeEvery m) (numValidatorsUpdateInterval m).

Definition set_recalculateNetworkUptimeEvery (x : Duration) (m : t) : t :=
  mk (Nodes m) (Network m) (monitorQuit m) (nodeQuit m) x (numValidatorsUpdateInterval m).

Definition set_numValidatorsUpdateInterval (x : Duration) (m : t) : t :=
  mk (Nodes m) (Network m) (monitorQuit m) (nodeQuit m) (recalculateNetworkUptimeEvery m) x.

(** The program state the monitor's methods act on: the nodes behind the
    pointers, the monitor, the next channel [make] returns, and the channels
    closed so far. *)
Record world := mkWorld {
  heap : gmap loc Node.t;
  mon : t;
  chans : nat;
  closed : gset chan
}.

Definition set_heap (x : gmap loc Node.t) (w : world) : world :=
  mkWorld x (mon w) (chans w) (closed w).

Definition set_mon (x : t) (w : world) : world :=
  mkWorld (heap w) x (chans w) (closed w).

Definition set_chans (x : nat) (w : world) : world :=
  mkWorld (heap w) (mon w) x (closed w).

Definition set_closed (x : gset chan) (w : world) : world :=
  mkWorld (heap w) (mon w) (chans w) x.

Definition M := Go.M effect world.

Definition NewMonitor (options : list (t -> t)) : t :=
  let m := {| Nodes := []; Network := Network.NewNetwork; monitorQuit := Open;
              nodeQuit := ∅; recalculateNetworkUptimeEvery := 10 * Second;
              numValidatorsUpdateInterval := 5 * Second |} in
  fold_left (fun m option => option m) options m.

Definition RecalculateNetworkUptimeEvery (d : Duration) : t -> t :=
  set_recalculateNetworkUptimeEvery d.

Definition SetNumValidatorsUpdateInterval (d : Duration) : t -> t :=
  set_numValidatorsUpdateInterval d.

(** A program that has built the nodes of [h] and a fresh monitor. *)
Definition init (h : gmap loc Node.t) : world :=
  mkWorld h (NewMonitor []) 0 ∅.

(** [make(chan T, n)]. *)
Definition make_chan : M chan :=
  w <- get ;;
  modify (set_chans (S (chans w))) ;;
  ret (chans w).

(** [close(c)], for the value found in a map of channels. *)
Definition close_chan (c : option chan) : M unit :=
  match c with
  | None => panic "close of nil channel"
  | Some c =>
      w <- get ;;
      if bool_decide (c ∈ closed w) then panic "close of closed channel"
      else modify (set_closed ({[c]} ∪ closed w))
  end.

(** A method call [n.f()] through the pointer [n]. *)
Definition on_node {A} (n : loc) (f : Node.M A) : M A :=
  fun w =>
    match heap w !! n with
    | None => ([], Panic "nil pointer dereference")
    | Some node =>
        match f node with
        | (tr, Done (a, node')) => (tr, Done (a, set_heap (<[n := node']> (heap w)) w))
        | (tr, Panic msg) => (tr, Panic msg)
        | (tr, OutOfFuel) => (tr, OutOfFuel)
        end
    end.

(** The field read [n.Name]. *)
Definition node_Name (n : loc) : M string :=
  on_node n (node <- get ;; ret (Node.Name node)).

Definition update (f : t -> t) : M unit := modify (fun w => set_mon (f (mon w)) w).

Definition Monitor (n : loc) : M (option error) :=
  update (fun m => set_Nodes (Nodes m ++ [n]) m) ;;
  blockCh <- make_chan ;;
  on_node n (Node.SendBlocksTo blockCh) ;;
  blockLatencyCh <- make_chan ;;
  on_node n (Node.SendBlockLatenciesTo blockLatencyCh) ;;
  disconnectCh <- make_chan ;;
  on_node n (Node.NotifyAboutDisconnects disconnectCh) ;;
  err <- on_node n Node.Start ;;
  match err with
  | Some err => ret (Some err)
  | None =>
      name <- node_Name n ;;
      update (fun m => set_Network (Network.NewNode name (Network m)) m) ;;
      name <- node_Name n ;;
      quit <- make_chan ;;
      update (fun m => set_nodeQuit (<[name := quit]> (nodeQuit m)) m) ;;
      nodeName <- node_Name n ;;
      name <- node_Name n ;;
      w <- get ;;
      emit (Spawn (listen nodeName blockCh blockLatencyCh disconnectCh
                     (nodeQuit (mon w) !! name))) ;;
      ret None
  end.

(** The loop of [NodeByName] over the nodes from index [i] on. *)
Fixpoint NodeByName_from (name : string) (i : Z) (l : list loc) : M (Z * option loc) :=
  match l with
  | [] => ret (-1, None)
  | n :: l =>
      nName <- node_Name n ;;
      if String.eqb name nName then ret (i, Some n)
      else NodeByName_from name (i + 1) l
  end.

Definition NodeByName (name : string) : M (Z * option loc) :=
  w <- get ;;
  NodeByName_from name 0 (Nodes (mon w)).

Definition Unmonitor (n : loc) : M unit :=
  name <- node_Name n ;;
  update (fun m => set_Network (Network.NodeDeleted name (Network m)) m) ;;
  on_node n Node.Stop ;;
  name <- node_Name n ;;
  w <- get ;;
  close_chan (nodeQuit (mon w) !! name) ;;
  name <- node_Name n ;;
  update (fun m => set_nodeQuit (delete name (nodeQuit m)) m) ;;
  name <- node_Name n ;;
  r <- NodeByName name ;;
  let '(i, _) := r in
  w <- get ;;
  let len := length (Nodes (mon w)) in
  match Nodes (mon w) !! (len - 1)%nat with
  | None => panic "index out of range"
  | Some last =>
      if i <? 0 then panic "index out of range"
      else
        update (fun m => set_Nodes (<[Z.to_nat i := last]> (Nodes m)) m) ;;
        update (fun m => set_Nodes (take (length (Nodes m) - 1) (Nodes m)) m)
  end.

Definition Start : M (option error) :=
  emit (Spawn recalculateNetworkUptimeLoop) ;;
  emit (Spawn updateNumValidatorLoop) ;;
  ret None.

(** *** The listener *)

(** The case a [select] of [listen] runs. *)
Inductive case :=
| CaseQuit
| CaseBlock (b : Header)
| CaseBlockLatency (l : float)
| CaseDisconnect (disconnected : bool)
| CaseTimeout.

(** One iteration of the loop of [listen], given the case selected;
    [None] is the [return]. *)
Definition listen_iteration (nodeName : string) (c : case) (net : Network.t)
    : option Network.t :=
  match c with
  | CaseQuit => None
  | CaseBlock b => Some (Network.NodeIsOnline nodeName (Network.NewBlock b net))
  | CaseBlockLatency l =>
      Some (Network.NodeIsOnline nodeName (Network.NewBlockLatency l net))
  | CaseDisconnect disconnected =>
      if disconnected then Some (Network.NodeIsDown nodeName net)
      else Some (Network.NodeIsOnline nodeName net)
  | CaseTimeout => Some (Network.NodeIsDown nodeName net)
  end.

(** The loop, over the cases selected one iteration after the other; the
    second component tells whether the loop has returned. *)
Fixpoint listen_loop (nodeName : string) (cs : list case) (net : Network.t)
    : Network.t * bool :=
  match cs with
  | [] => (net, false)
  | c :: cs =>
      match listen_iteration nodeName c net with
      | None => (net, true)
      | Some net => listen_loop nodeName cs net
      end
  end.

(** The iterations of the listeners of several nodes, interleaved in the
    order of [evs], on the one [Network] they share; a listener that returns
    changes nothing. *)
Fixpoint listeners_run (evs : list (string * case)) (net : Network.t) : Network.t :=
  match evs with
  | [] => net
  | (nodeName, c) :: evs =>
      listeners_run evs
        (match listen_iteration nodeName c net with
         | Some net' => net'
         | None => net
         end)
  end.

(** What [select] may run in an iteration: [arrivals] lists the values the
    four channels deliver, each with the time since the iteration began at
    which it can be received. A channel case runs if nothing was receivable
    earlier and the timer has not fired before; the timeout case runs if
    nothing was receivable before the window has elapsed. Ready at the same
    instant, either may run. *)
Inductive select (arrivals : list (Duration * case)) : case -> Prop :=
| select_channel t c :
    In (t, c) arrivals -> c <> CaseTimeout ->
    (forall t' c', In (t', c') arrivals -> t <= t') ->
    t <= nodeLivenessTimeout ->
    select arrivals c
| select_timeout :
    (forall t c, In (t, c) arrivals -> nodeLivenessTimeout <= t) ->
    select arrivals CaseTimeout.

(** *** The validator-refresh loop *)

(** The variables [updateNumValidatorLoop] declares before its loop. *)
Record vars := mkVars { height : Z; num : Z; err : option error }.

(** The [for _, n := range m.Nodes] of the timer case, from index [i]. *)
Fixpoint query_node_at (randomNodeIndex : nat) (i : nat) (l : list loc) (v : vars)
    : M vars :=
  match l with
  | [] => ret v
  | n :: l =>
      if (i =? randomNodeIndex)%nat then
        r <- on_node n Node.NumValidators ;;
        let '(height, num, err) := r in
        ret (mkVars height num err)
      else query_node_at randomNodeIndex (S i) l v
  end.

(** What wakes an iteration of a periodic loop. *)
Inductive wake := WakeQuit | WakeTimer.

(** One iteration of [updateNumValidatorLoop]; [rnd] is the random
    source behind [rand.Intn], [None] is the [return]. *)
Definition updateNumValidator_iteration (rnd : nat) (k : wake) (v : vars)
    : M (option vars) :=
  w <- get ;;
  if (length (Nodes (mon w)) =? 0)%nat then
    emit (Sleep (numValidatorsUpdateInterval (mon w))) ;;
    ret (Some v)
  else
    let randomNodeIndex := (rnd mod length (Nodes (mon w)))%nat in
    match k with
    | WakeQuit => ret None
    | WakeTimer =>
        w <- get ;;
        v <- query_node_at randomNodeIndex 0 (Nodes (mon w)) v ;;
        w <- get ;;
        (if Network.Height (Network (mon w)) <=? height v then
           update (fun m => set_Network (Network.set_NumValidators (num v) (Network m)) m)
         else ret tt) ;;
        ret (Some v)
    end.

(** *** What the statements about registration speak of *)

(** The name behind a tracked pointer. *)
Definition name_at (w : world) (n : loc) : string :=
  match heap w !! n with
  | Some node => Node.Name node
  | None => ""
  end.

(** The names of the tracked nodes, in the order of [m.Nodes]. *)
Definition names (w : world) : list string := map (name_at w) (Nodes (mon w)).

(** Tracked names and [Network] entries in 1:1 correspondence: no name is
    tracked twice, and a name is tracked exactly when it has an entry. *)
Definition in_correspondence (w : world) : Prop :=
  NoDup (names w) /\
  forall name, In name (names w) <-> is_Some (Network.nodes (Network (mon w)) !! name).

Inductive op :=
| OpMonitor (n : loc)
| OpUnmonitor (n : loc).

(** A run of [Monitor] and [Unmonitor] calls in which every [Monitor(n)]
    is given a node whose name is not tracked and returns nil, and no call
    panics. *)
Inductive runs : world -> list op -> world -> Prop :=
| runs_nil w : runs w [] w
| runs_Monitor w n ops tr w1 w2 :
    ~ In (name_at w n) (names w) ->
    Monitor n w = (tr, Done (None, w1)) ->
    runs w1 ops w2 ->
    runs w (OpMonitor n :: ops) w2
| runs_Unmonitor w n ops tr w1 w2 :
    Unmonitor n w = (tr, Done (tt, w1)) ->
    runs w1 ops w2 ->
    runs w (OpUnmonitor n :: ops) w2.

(** *** What the further statements about the monitor speak of *)

(** No tracked pointer is nil. *)
Definition allocated (w : world) : Prop :=
  Forall (fun n => is_Some (heap w !! n)) (Nodes (mon w)).

(** The index of the first occurrence of [name] in [l]. *)
Fixpoint find_name (name : string) (l : list string) : option nat :=
  match l with
  | [] => None
  | x :: l => if String.eqb name x then Some 0%nat else S <$> find_name name l
  end.

(** A run of [Monitor] and [Unmonitor] calls none of which panics; a
    [Monitor] may return an error. *)
Inductive calls : world -> list op -> world -> Prop :=
| calls_nil w : calls w [] w
| calls_Monitor w n ops tr err w1 w2 :
    Monitor n w = (tr, Done (err, w1)) ->
    calls w1 ops w2 ->
    calls w (OpMonitor n :: ops) w2
| calls_Unmonitor w n ops tr w1 w2 :
    Unmonitor n w = (tr, Done (tt, w1)) ->
    calls w1 ops w2 ->
    calls w (OpUnmonitor n :: ops) w2.

(** The quit channels of the listeners: each one registered has been made,
    is not closed, and is registered under one name only; the channels closed
    have been made. *)
Definition quits_sound (w : world) : Prop :=
  (forall name c, nodeQuit (mon w) !! name = Some c ->
                  (c < chans w)%nat /\ c ∉ closed w) /\
  (forall c, c ∈ closed w -> (c < chans w)%nat) /\
  (forall name1 name2 c,
     nodeQuit (mon w) !! name1 = Some c -> nodeQuit (mon w) !! name2 = Some c ->
     name1 = name2).

(** [updateNumValidatorLoop], over the random numbers drawn and the wakes
    of its successive iterations; the result tells whether the loop has
    returned. *)
Fixpoint updateNumValidatorLoop (inputs : list (nat * wake)) (v : vars) : M bool :=
  match inputs with
  | [] => ret false
  | (rnd, k) :: inputs =>
      r <- updateNumValidator_iteration rnd k v ;;
      match r with
      | None => ret true
      | Some v => updateNumValidatorLoop inputs v
      end
  end.

(** The [for _, n := range m.Nodes] of [Stop]. The slice is read once, so
    the loop runs over the length it had then, and reads element [i] of its
    backing array when iteration [i] begins. [Unmonitor] writes into this
    array and shortens [m.Nodes], which stays a prefix of it: after each
    call the array is the new [m.Nodes] followed by what lay behind it. *)
Fixpoint Stop_range (k i : nat) (backing : list loc) : M unit :=
  match k with
  | O => ret tt
  | S k =>
      match backing !! i with
      | None => panic "index out of range"
      | Some n =>
          Unmonitor n ;;
          w <- get ;;
          let nodes := Nodes (mon w) in
          Stop_range k (S i) (nodes ++ drop (length nodes) backing)
      end
  end.

(** [Stop]: the quit channel of the monitor is closed, then every node
    of the slice is removed. *)
Definition Stop : M unit :=
  w <- get ;;
  match monitorQuit (mon w) with
  | Open => update (set_monitorQuit Closed)
  | Closed => panic "close of closed channel"
  end ;;
  w <- get ;;
  Stop_range (length (Nodes (mon w))) 0 (Nodes (mon w)).

(** Every tracked node can be removed: its quit channel is open and an
    open quit channel is registered under its name. *)
Definition removable (w : world) : Prop :=
  forall n, In n (Nodes (mon w)) ->
    exists node c, heap w !! n = Some node /\ Node.quit node = Open /\
                   nodeQuit (mon w) !! Node.Name node = Some c /\ c ∉ closed w.

(** No quit channel is registered under two names. *)
Definition unshared (w : world) : Prop :=
  forall name1 name2 c,
    nodeQuit (mon w) !! name1 = Some c -> nodeQuit (mon w) !! name2 = Some c ->
    name1 = name2.

(** The invariant of the loop of [Stop] when iteration [i] begins, for a
    slice of [len0] nodes: the nodes still tracked are those the loop has yet
    to read. *)
Record stop_inv (len0 i : nat) (backing : list loc) (w : world) : Prop := {
  inv_len : length backing = len0;
  inv_cur : (length (Nodes (mon w)) + i = len0)%nat;
  inv_prefix : take (length (Nodes (mon w))) backing = Nodes (mon w);
  inv_rest : drop i backing ≡ₚ Nodes (mon w);
  inv_names : NoDup (names w);
  inv_removable : removable w;
  inv_unshared : unshared w
}.

End Monitor.

(** ** Collaborators and nodes used to run the code on concrete inputs *)

Module Fixtures.
Import Go Tm.

(** An event meter that always starts, and one that never does. *)
Definition em_up : Node.eventMeter :=
  Node.mkEventMeter (fun _ => None) 0 None false false false [].

Definition em_down : Node.eventMeter :=
  Node.mkEventMeter (fun _ => Some "connection refused"%string) 0 None false false false [].

Definition key1 : PubKey := Some [x01; x02; x03].
Definition key2 : PubKey := Some [x0a; x0b; x0c].

(** An RPC client answering every "validators" with [vals] at height [h]
    and every "status" with [key]. *)
Definition rpc_up (h : Z) (vals : list Validator) (key : PubKey) : Node.HTTPClient :=
  Node.mkHTTPClient (fun _ => Ok (mkResultValidators h vals))
                    (fun _ => Ok (mkResultStatus key)) 0.

(** An RPC client whose every call fails. *)
Definition rpc_down : Node.HTTPClient :=
  Node.mkHTTPClient (fun _ => Err "EOF"%string) (fun _ => Err "EOF"%string) 0.

Definition vals12 : list Validator := [mkValidator key2 10; mkValidator key1 10].

(** An RPC client whose first "validators" answer lists [key1] and [key2]
    and whose later answers list [key2] only; "status" always answers
    [key1]. *)
Definition rpc_leaving : Node.HTTPClient :=
  Node.mkHTTPClient
    (fun k => match k with
              | O => Ok (mkResultValidators 7 vals12)
              | S _ => Ok (mkResultValidators 8 [mkValidator key2 10])
              end)
    (fun _ => Ok (mkResultStatus key1)) 0.

(** A node flagged as a validator nowhere in its answers: every
    "validators" answer lists [key2] only, while its own key is [key1]. *)
Definition nodeFormer : Node.t :=
  Node.NewNodeWithEventMeterAndRpcClient "e:46657" em_up
    (rpc_up 8 [mkValidator key2 10] key1) [].

Definition nodeLeaving : Node.t :=
  Node.NewNodeWithEventMeterAndRpcClient "d:46657" em_up rpc_leaving [].

(** An RPC client that answers its first three calls and fails from the
    fourth on. *)
Definition rpc_flaky : Node.HTTPClient :=
  Node.mkHTTPClient
    (fun k => if (k <? 3)%nat then Ok (mkResultValidators 7 vals12) else Err "EOF"%string)
    (fun k => if (k <? 3)%nat then Ok (mkResultStatus key1) else Err "EOF"%string) 0.

Definition nodeFlaky : Node.t :=
  Node.NewNodeWithEventMeterAndRpcClient "f:46657" em_up rpc_flaky [].

(** [n] with its event meter replaced by one whose every [Start] fails
    with [e]. *)
Definition unreachable (e : error) (n : Node.t) : Node.t :=
  let m := Node.em n in
  Node.set_em (Node.mkEventMeter (fun _ => Some e) (Node.startCalls m)
                 (Node.subscribeResult m) (Node.running m) (Node.latencyCallbackSet m)
                 (Node.disconnectCallbackSet m) (Node.subscriptions m)) n.

Definition nodeA : Node.t :=
  Node.NewNodeWithEventMeterAndRpcClient "a:46657" em_up (rpc_up 7 vals12 key1) [].

Definition nodeB : Node.t :=
  Node.NewNodeWithEventMeterAndRpcClient "b:46657" em_up (rpc_up 7 vals12 key2) [].

(** A second node object with the address, hence the name, of [nodeA]. *)
Definition nodeA' : Node.t :=
  Node.NewNodeWithEventMeterAndRpcClient "a:46657" em_up (rpc_up 7 vals12 key2) [].

(** A node whose endpoint is unreachable. *)
Definition nodeDown : Node.t :=
  Node.NewNodeWithEventMeterAndRpcClient "c:46657" em_down rpc_down [].

(** A monitor whose list holds the nodes a and b, with a quit channel
    registered for each. *)
Definition worldAB : Monitor.world :=
  Monitor.mkWorld {[0%nat := nodeA; 1%nat := nodeB]}
    (Monitor.set_nodeQuit {["a:46657"%string := 3%nat; "b:46657"%string := 7%nat]}
       (Monitor.set_Nodes [0%nat; 1%nat] (Monitor.NewMonitor []))) 8%nat ∅.

End Fixtures.

(** * Theorems *)

Section KeysFacts.
Import Go Keys.

Example crc32_ieee_check :
  crc32.Checksum (String.list_byte_of_string "123456789") (crc32.MakeTable crc32.IEEE) = 0xCBF43926.
Proof. vm_compute. reflexivity. Qed.

Example crc64_iso_check :
  crc64.Checksum (String.list_byte_of_string "123456789") (crc64.MakeTable crc64.ISO) = 0xb90956c775a41001.
Proof. vm_compute. reflexivity. Qed.

Example crc64_ecma_check :
  crc64.Checksum (String.list_byte_of_string "123456789") (crc64.MakeTable crc64.ECMA) = 0x995dc9bbdf1939fa.
Proof. vm_compute. reflexivity. Qed.

Lemma Z_of_byte_range (b : byte) : 0 <= Z_of_byte b < 256.
Proof.
  unfold Z_of_byte. pose proof (Byte.to_N_bounded b). lia.
Qed.

Lemma Z_of_byte_of_Z (x : Z) : Z_of_byte (byte_of_Z x) = x mod 256.
Proof.
  unfold byte_of_Z, Z_of_byte, uint8. change (2 ^ 8) with 256.
  pose proof (Z.mod_pos_bound x 256 ltac:(lia)) as Hm.
  destruct (Byte.of_N (Z.to_N (x mod 256))) as [b|] eqn:E.
  - apply Byte.to_of_N in E. rewrite E. lia.
  - apply Byte.of_N_None_iff in E. lia.
Qed.

Lemma testbit_above (b n i : Z) : 0 <= b < 2 ^ n -> 0 <= n <= i -> Z.testbit b i = false.
Proof.
  intros Hb Hi. destruct (Z.eq_dec b 0) as [->|Hne]; [apply Z.bits_0|].
  apply Z.bits_above_log2; [lia|].
  apply Z.lt_le_trans with n; [|lia]. apply Z.log2_lt_pow2; lia.
Qed.

Lemma lor_shiftl_add (a b n : Z) :
  0 <= n -> 0 <= b < 2 ^ n -> Z.lor (Z.shiftl a n) b = a * 2 ^ n + b.
Proof.
  intros Hn Hb. rewrite <- Z.shiftl_mul_pow2 by lia.
  assert (Hl : Z.land (Z.shiftl a n) b = 0).
  { apply Z.bits_inj'. intros i Hi. rewrite Z.land_spec, Z.bits_0.
    destruct (Z.lt_ge_cases i n).
    - rewrite Z.shiftl_spec_low by lia. reflexivity.
    - rewrite (testbit_above b n i) by lia. apply andb_false_r. }
  rewrite (Z.add_nocarry_lxor _ _ Hl). symmetry. apply Z.lxor_lor. exact Hl.
Qed.

Lemma lxor_range (w a b : Z) :
  0 <= w -> 0 <= a < 2 ^ w -> 0 <= b < 2 ^ w -> 0 <= Z.lxor a b < 2 ^ w.
Proof.
  intros Hw Ha Hb.
  assert (H0 : 0 <= Z.lxor a b) by (apply Z.lxor_nonneg; lia).
  split; [exact H0|].
  destruct (Z.eq_dec (Z.lxor a b) 0) as [->|Hne]; [lia|].
  assert (Hw0 : 0 < w).
  { destruct (Z.eq_dec w 0) as [->|]; [|lia].
    change (2 ^ 0) with 1 in *. assert (a = 0) by lia. assert (b = 0) by lia.
    subst. rewrite Z.lxor_0_l in Hne. lia. }
  apply Z.log2_lt_pow2; [lia|].
  eapply Z.le_lt_trans; [apply Z.log2_lxor; lia|].
  apply Z.max_lub_lt.
  - destruct (Z.eq_dec a 0) as [->|]; [simpl; lia|]. apply Z.log2_lt_pow2; lia.
  - destruct (Z.eq_dec b 0) as [->|]; [simpl; lia|]. apply Z.log2_lt_pow2; lia.
Qed.

Lemma shiftr_range (w a n : Z) :
  0 <= n -> 0 <= a < 2 ^ w -> 0 <= Z.shiftr a n < 2 ^ w.
Proof.
  intros Hn Ha. rewrite Z.shiftr_div_pow2 by lia.
  assert (0 < 2 ^ n) by (apply Z.pow_pos_nonneg; lia).
  split; [apply Z.div_pos; lia|].
  apply Z.le_lt_trans with a; [|lia].
  apply Z.div_le_upper_bound; nia.
Qed.

Lemma Uint_Put_fold (n : nat) (v acc : Z) :
  fold_left (fun a x => Z.lor (Z.shiftl a 8) (Z_of_byte x)) (BigEndian.Put n v) acc
  = acc * 2 ^ (8 * Z.of_nat n) + v mod 2 ^ (8 * Z.of_nat n).
Proof.
  revert acc. induction n as [|k IH]; intros acc.
  - simpl. rewrite Z.mod_1_r. lia.
  - cbn [BigEndian.Put fold_left]. rewrite IH.
    rewrite Z_of_byte_of_Z, Z.shiftr_div_pow2 by lia.
    rewrite lor_shiftl_add; [|lia|apply Z.mod_pos_bound; lia].
    replace (8 * Z.of_nat (S k)) with (8 * Z.of_nat k + 8) by lia.
    rewrite Z.pow_add_r by lia.
    assert (0 < 2 ^ (8 * Z.of_nat k)) by (apply Z.pow_pos_nonneg; lia).
    rewrite (Z.rem_mul_r v (2 ^ (8 * Z.of_nat k)) (2 ^ 8)) by lia.
    change (2 ^ 8) with 256. ring.
Qed.

Lemma Uint_Put (n : nat) (v : Z) :
  0 <= v < 2 ^ (8 * Z.of_nat n) -> BigEndian.Uint (BigEndian.Put n v) = v.
Proof.
  intros Hv. unfold BigEndian.Uint. rewrite Uint_Put_fold.
  rewrite Z.mod_small by lia. lia.
Qed.

Lemma Put_length (n : nat) (v : Z) : length (BigEndian.Put n v) = n.
Proof. induction n; simpl; congruence. Qed.

(** Ranges of the CRC at width [w]. *)
Section Width.
Variable w : Z.
Hypothesis Hw : 8 <= w.

Local Abbreviation in_range := (crc.in_range w).

Lemma round_range (poly crc : Z) :
  in_range poly -> in_range crc -> in_range (crc.round poly crc).
Proof.
  unfold crc.in_range, crc.round. intros Hp Hc.
  pose proof (shiftr_range w crc 1 ltac:(lia) Hc).
  destruct (Z.land crc 1 =? 1); [apply lxor_range; lia|assumption].
Qed.

Lemma entry_range (poly : Z) (i : nat) :
  in_range poly -> (i < 256)%nat -> in_range (crc.entry poly i).
Proof.
  intros Hp Hi. unfold crc.entry.
  assert (H0 : in_range (Z.of_nat i)).
  { unfold crc.in_range. split; [lia|].
    apply Z.lt_le_trans with (2 ^ 8); [change (2 ^ 8) with 256; lia|].
    apply Z.pow_le_mono_r; lia. }
  generalize 8%nat. intros n. induction n as [|n IH]; simpl; [exact H0|].
  apply round_range; assumption.
Qed.

Lemma valid_table_spec (tab : list Z) :
  crc.valid_table w tab = true <-> length tab = 256%nat /\ Forall in_range tab.
Proof.
  unfold crc.valid_table, crc.in_range.
  rewrite andb_true_iff, Nat.eqb_eq, forallb_forall, Forall_forall.
  split; intros [Hl Hf]; (split; [exact Hl|]); intros x Hx.
  - apply list_elem_of_In, Hf in Hx. lia.
  - apply list_elem_of_In, Hf in Hx. lia.
Qed.

Lemma MakeTable_valid (poly : Z) :
  in_range poly -> crc.valid_table w (crc.MakeTable poly) = true.
Proof.
  intros Hp. apply valid_table_spec. unfold crc.MakeTable. split.
  - rewrite length_map, length_seq. reflexivity.
  - apply Forall_forall. intros x Hx.
    apply list_elem_of_In, in_map_iff in Hx. destruct Hx as (i & <- & Hi).
    apply in_seq in Hi. apply entry_range; [exact Hp|lia].
Qed.

Lemma at_index_range (tab : list Z) (i : Z) :
  crc.valid_table w tab = true -> in_range (crc.at_index tab i).
Proof.
  intros Hv. apply valid_table_spec in Hv. destruct Hv as [_ Hf].
  unfold crc.at_index. destruct (tab !! Z.to_nat i) as [x|] eqn:E.
  - eapply Forall_lookup_1; eassumption.
  - unfold crc.in_range. split; [lia|]. apply Z.pow_pos_nonneg; lia.
Qed.

Lemma step_range (tab : list Z) (crc : Z) (v : byte) :
  crc.valid_table w tab = true -> in_range crc -> in_range (crc.step tab crc v).
Proof.
  intros Hv Hc. unfold crc.step.
  apply lxor_range; [lia|apply at_index_range; exact Hv|apply shiftr_range; [lia|exact Hc]].
Qed.

Lemma mask_range : in_range (crc.mask w).
Proof.
  unfold crc.in_range, crc.mask.
  assert (0 < 2 ^ w) by (apply Z.pow_pos_nonneg; lia). lia.
Qed.

Lemma Checksum_range (tab : list Z) (data : list byte) :
  crc.valid_table w tab = true -> in_range (crc.Checksum w data tab).
Proof.
  intros Hv. unfold crc.Checksum, crc.Update.
  apply lxor_range; [lia| |apply mask_range].
  assert (H0 : in_range (Z.lxor 0 (crc.mask w))).
  { rewrite Z.lxor_0_l. apply mask_range. }
  revert H0. generalize (Z.lxor 0 (crc.mask w)).
  induction data as [|v data IH]; intros c Hc; simpl; [exact Hc|].
  apply IH, step_range; assumption.
Qed.

End Width.

Lemma CRC32_getTable_spec (c : CRC32.t) :
  CRC32.valid c = true ->
  let '(tab, c') := CRC32.getTable c in
  crc.valid_table 32 tab = true /\ CRC32.getTable c' = (tab, c').
Proof.
  unfold CRC32.valid, CRC32.getTable. destruct c as [poly [tab|]]; simpl.
  - intros Hv. apply andb_true_iff in Hv. destruct Hv as [_ Hv]. split; [exact Hv|reflexivity].
  - intros Hv. split; [|reflexivity].
    apply MakeTable_valid; [lia|]. unfold crc.in_range.
    destruct (poly =? 0); [unfold crc32.IEEE; lia|lia].
Qed.

Lemma CRC64_getTable_spec (c : CRC64.t) :
  CRC64.valid c = true ->
  let '(tab, c') := CRC64.getTable c in
  crc.valid_table 64 tab = true /\ CRC64.getTable c' = (tab, c').
Proof.
  unfold CRC64.valid, CRC64.getTable. destruct c as [poly [tab|]]; simpl.
  - intros Hv. apply andb_true_iff in Hv. destruct Hv as [_ Hv]. split; [exact Hv|reflexivity].
  - intros Hv. split; [|reflexivity].
    apply MakeTable_valid; [lia|]. unfold crc.in_range.
    destruct (poly =? 0); [unfold crc64.ISO; lia|lia].
Qed.

Lemma CRC32_round_trip (c : CRC32.t) (b : list byte) :
  CRC32.valid c = true -> b <> [] -> round_trip c b = Ok b.
Proof.
  intros Hv Hb. pose proof (CRC32_getTable_spec c Hv) as Hg.
  unfold round_trip. cbn [AddECC CheckECC CRC32_ECC]. unfold CRC32.AddECC, CRC32.CheckECC.
  destruct (CRC32.getTable c) as [tab c']. destruct Hg as [Ht ->].
  unfold BigEndian.PutUint32, BigEndian.Uint32, crc32.Size.
  rewrite length_app, Put_length.
  destruct (length b + 4 <=? 4)%nat eqn:E.
  { apply Nat.leb_le in E. destruct b; [congruence|simpl in E; lia]. }
  replace (length b + 4 - 4)%nat with (length b) by lia.
  rewrite take_app_length, drop_app_length. cbn [fst].
  rewrite Uint_Put by (apply (Checksum_range 32); [lia|exact Ht]).
  rewrite Z.eqb_refl. reflexivity.
Qed.

Lemma CRC64_round_trip (c : CRC64.t) (b : list byte) :
  CRC64.valid c = true -> b <> [] -> round_trip c b = Ok b.
Proof.
  intros Hv Hb. pose proof (CRC64_getTable_spec c Hv) as Hg.
  unfold round_trip. cbn [AddECC CheckECC CRC64_ECC]. unfold CRC64.AddECC, CRC64.CheckECC.
  destruct (CRC64.getTable c) as [tab c']. destruct Hg as [Ht ->].
  unfold BigEndian.PutUint64, BigEndian.Uint64, crc64.Size.
  rewrite length_app, Put_length.
  destruct (length b + 8 <=? 8)%nat eqn:E.
  { apply Nat.leb_le in E. destruct b; [congruence|simpl in E; lia]. }
  replace (length b + 8 - 8)%nat with (length b) by lia.
  rewrite take_app_length, drop_app_length. cbn [fst].
  rewrite Uint_Put by (apply (Checksum_range 64); [lia|exact Ht]).
  rewrite Z.eqb_refl. reflexivity.
Qed.

Lemma CRC32_AddECC_appends (c : CRC32.t) (b : list byte) :
  exists check, length check = 4%nat /\ fst (AddECC c b) = b ++ check.
Proof.
  cbn [AddECC CRC32_ECC]. unfold CRC32.AddECC.
  destruct (CRC32.getTable c) as [tab c'].
  eexists. split; [|reflexivity]. apply Put_length.
Qed.

Lemma CRC64_AddECC_appends (c : CRC64.t) (b : list byte) :
  exists check, length check = 8%nat /\ fst (AddECC c b) = b ++ check.
Proof.
  cbn [AddECC CRC64_ECC]. unfold CRC64.AddECC.
  destruct (CRC64.getTable c) as [tab c'].
  eexists. split; [|reflexivity]. apply Put_length.
Qed.

(** C10 (as stated, refuted): with the IEEE CRC32 and the ISO CRC64 the
    round trip of the empty slice is rejected as too short: [AddECC] yields
    exactly [Size] bytes and [CheckECC] refuses every input of at most [Size]
    bytes. *)
Lemma C10_empty_slice_rejected :
  round_trip CRC32.NewIEEECRC32 [] = Err "input too short, no checksum present"%string /\
  round_trip CRC64.NewISOCRC64 [] = Err "input too short, no checksum present"%string /\
  ~ (forall b : list byte, round_trip CRC32.NewIEEECRC32 b = Ok b).
Proof.
  assert (H : round_trip CRC32.NewIEEECRC32 []
              = Err "input too short, no checksum present"%string)
    by (vm_compute; reflexivity).
  split; [exact H|]. split; [vm_compute; reflexivity|].
  intros Hall. rewrite (Hall []) in H. discriminate.
Qed.

(** C10 (amended): [AddECC] appends the checksum (nothing for [NoECC], 4
    bytes for [CRC32], 8 bytes for [CRC64]), and for every non-empty byte
    slice [b] and every polynomial, the zero default included, [CheckECC]
    of [AddECC b] succeeds and returns exactly [b]; [NoECC] round-trips every
    slice. *)
Theorem C10_round_trip_nonempty (b : list byte) :
  (fst (AddECC NoECC.mk b) = b /\ round_trip NoECC.mk b = Ok b) /\
  (forall c : CRC32.t, CRC32.valid c = true ->
     (exists check, length check = 4%nat /\ fst (AddECC c b) = b ++ check) /\
     (b <> [] -> round_trip c b = Ok b)) /\
  (forall c : CRC64.t, CRC64.valid c = true ->
     (exists check, length check = 8%nat /\ fst (AddECC c b) = b ++ check) /\
     (b <> [] -> round_trip c b = Ok b)).
Proof.
  split; [split; reflexivity|]. split; intros c Hc; split.
  - apply CRC32_AddECC_appends.
  - intros Hb. apply CRC32_round_trip; assumption.
  - apply CRC64_AddECC_appends.
  - intros Hb. apply CRC64_round_trip; assumption.
Qed.

(** The round trip of the two bytes of "hi", with the zero-default CRC32 and
    the ECMA CRC64. *)
Lemma C10_round_trip_witness :
  round_trip (CRC32.mk 0 None) [x68; x69] = Ok [x68; x69] /\
  round_trip CRC64.NewECMACRC64 [x68; x69] = Ok [x68; x69].
Proof.
  destruct (C10_round_trip_nonempty [x68; x69]) as (_ & H32 & H64). split.
  - apply (H32 (CRC32.mk 0 None)); [reflexivity|discriminate].
  - apply (H64 CRC64.NewECMACRC64); [reflexivity|discriminate].
Defined.

End KeysFacts.

(** ** Facts about [node.go] *)

Section NodeFacts.
Import Go Tm Node.

(** [validators] and [NumValidators] in one step. *)
Lemma validators_eq (n : Node.t) :
  validators n =
  let c := rpcClient n in
  let n' := set_rpcClient (mkHTTPClient (validatorsReply c) (statusReply c) (S (calls c))) n in
  match validatorsReply c (calls c) with
  | Ok vals => ([], Done ((uint64 (BlockHeight vals), Validators vals, None), n'))
  | Err err => ([], Done ((0, [], Some err), n'))
  end.
Proof.
  unfold validators, rpc_Call_validators, bind, get, modify, ret. simpl.
  destruct (validatorsReply (rpcClient n) (calls (rpcClient n))); reflexivity.
Qed.

Lemma NumValidators_eq (n : Node.t) :
  NumValidators n =
  let c := rpcClient n in
  let n' := set_rpcClient (mkHTTPClient (validatorsReply c) (statusReply c) (S (calls c))) n in
  match validatorsReply c (calls c) with
  | Ok vals =>
      ([], Done ((uint64 (BlockHeight vals), Z.of_nat (length (Validators vals)), None), n'))
  | Err err => ([], Done ((0, 0, Some err), n'))
  end.
Proof.
  unfold NumValidators, bind. rewrite validators_eq. simpl.
  destruct (validatorsReply (rpcClient n) (calls (rpcClient n))); reflexivity.
Qed.

(** C9: on a successful "validators" query [validators] returns the
    height and the validator list of the answer with a nil error, and
    [NumValidators] the same height with the length of that list; when the
    query fails [validators] returns height 0 and an empty list with the
    error, and [NumValidators] returns (0, 0, err). Both leave the same node
    behind and perform no other effect. *)
Theorem C9_validators_and_NumValidators (n : Node.t) :
  exists n',
    match validatorsReply (rpcClient n) (calls (rpcClient n)) with
    | Ok vals =>
        validators n
        = ([], Done ((uint64 (BlockHeight vals), Validators vals, None), n')) /\
        NumValidators n
        = ([], Done ((uint64 (BlockHeight vals),
                      Z.of_nat (length (Validators vals)), None), n'))
    | Err err =>
        validators n = ([], Done ((0, [], Some err), n')) /\
        NumValidators n = ([], Done ((0, 0, Some err), n'))
    end.
Proof.
  rewrite validators_eq, NumValidators_eq. cbv zeta.
  eexists. destruct (validatorsReply (rpcClient n) (calls (rpcClient n)));
    split; reflexivity.
Qed.

(** The latency callback in one step. *)
Lemma latencyCallback_eq (latency : float) (n : Node.t) :
  latencyCallback latency n =
  (match blockLatencyCh n with
   | Some ch => [SendLatency ch latency]
   | None => []
   end,
   Done (tt, set_BlockLatency (latency / 1000000)%float n)).
Proof.
  unfold latencyCallback, bind, get, modify, ret, emit. simpl.
  destruct (blockLatencyCh n); reflexivity.
Qed.

(** C8 (as stated, refuted): with a latency channel bound, a sample of
    2,000,000 ns is cached as 2 ms, but the value sent on the channel is the
    sample itself, 2,000,000, not the converted 2. *)
Lemma C8_forwards_unconverted_sample :
  let n := set_blockLatencyCh (Some 1%nat) Fixtures.nodeA in
  latencyCallback 2000000%float n
  = ([SendLatency 1%nat 2000000%float], Done (tt, set_BlockLatency 2%float n)) /\
  fst (latencyCallback 2000000%float n)
  <> [SendLatency 1%nat (2000000 / 1000000)%float].
Proof.
  cbv zeta. rewrite latencyCallback_eq. split; [reflexivity|].
  cbn [fst blockLatencyCh set_blockLatencyCh]. intros H.
  apply (f_equal (fun tr => match tr with
                           | [SendLatency _ x] => PrimFloat.eqb x 2%float
                           | _ => false
                           end)) in H.
  vm_compute in H. discriminate.
Qed.

(** C8 (amended): the latency callback stores the sample divided by
    1,000,000 in [BlockLatency], changes no other field, and, when a latency
    channel is bound, sends the sample as delivered (in nanoseconds, not
    converted) on that channel; with no channel bound it sends nothing. *)
Theorem C8_latency_callback (latency : float) (n : Node.t) :
  latencyCallback latency n =
  (match blockLatencyCh n with
   | Some ch => [SendLatency ch latency]
   | None => []
   end,
   Done (tt, set_BlockLatency (latency / 1000000)%float n)) /\
  BlockLatency (set_BlockLatency (latency / 1000000)%float n)
  = (latency / 1000000)%float.
Proof. split; [apply latencyCallback_eq|reflexivity]. Qed.

(** *** The reconnect backoff *)

Lemma em_Start_eq (n : Node.t) :
  em_Start n =
  let e := em n in
  let r := startResults e (startCalls e) in
  ([], Done (r, set_em (mkEventMeter (startResults e) (S (startCalls e)) (subscribeResult e)
                          (if r is None then true else running e)
                          (latencyCallbackSet e) (disconnectCallbackSet e)
                          (subscriptions e)) n)).
Proof. reflexivity. Qed.

Lemma backoff_loop_failing (fuel attempt : nat) (n : Node.t) :
  (forall k, startResults (em n) k <> None) ->
  (attempt <= maxRestarts)%nat -> (maxRestarts + 1 - attempt <= fuel)%nat ->
  exists n',
    backoff_loop fuel attempt n
    = (map (fun k => Sleep (int64 (Exp2 k * Second)))
           (seq attempt (maxRestarts + 1 - attempt)),
       Done (Some "Reached max restarts"%string, n')) /\
    startCalls (em n') = (startCalls (em n) + (maxRestarts + 1 - attempt))%nat.
Proof.
  assert (Hmax : maxRestarts = 25%nat) by reflexivity.
  revert attempt n.
  induction fuel as [|fuel IH]; intros attempt n Hfail Ha Hf; [lia|].
  cbn [backoff_loop]. unfold bind at 1. cbn [emit].
  unfold bind at 1. rewrite em_Start_eq. cbv zeta.
  destruct (startResults (em n) (startCalls (em n))) as [err|] eqn:E;
    [|exfalso; eapply Hfail; eassumption].
  destruct (Nat.ltb_spec maxRestarts (S attempt)) as [Hlt|Hge].
  - assert (attempt = maxRestarts) as -> by lia. simpl.
    eexists. split; [reflexivity|]. simpl. lia.
  - match goal with |- context [backoff_loop fuel (S attempt) ?n1] =>
      destruct (IH (S attempt) n1) as (n' & Hr & Hc); [exact Hfail|lia|lia|];
      rewrite Hr end.
    exists n'. split.
    + replace (maxRestarts + 1 - attempt)%nat
        with (S (maxRestarts + 1 - S attempt)) by lia.
      reflexivity.
    + rewrite Hc. simpl. lia.
Qed.

Lemma backoff_loop_first_success (fuel attempt j : nat) (n : Node.t) :
  (forall k, (k < j)%nat -> startResults (em n) (startCalls (em n) + k) <> None) ->
  startResults (em n) (startCalls (em n) + j) = None ->
  (attempt + j <= maxRestarts)%nat -> (j < fuel)%nat ->
  exists n',
    backoff_loop fuel attempt n
    = (map (fun k => Sleep (int64 (Exp2 k * Second))) (seq attempt (S j)),
       Done (None, n')) /\
    startCalls (em n') = (startCalls (em n) + S j)%nat.
Proof.
  assert (Hmax : maxRestarts = 25%nat) by reflexivity.
  revert attempt j n.
  induction fuel as [|fuel IH]; intros attempt j n Hfail Hok Ha Hf; [lia|].
  cbn [backoff_loop]. unfold bind at 1. cbn [emit].
  unfold bind at 1. rewrite em_Start_eq. cbv zeta.
  destruct j as [|j].
  - rewrite Nat.add_0_r in Hok. rewrite Hok. simpl.
    eexists. split; [reflexivity|]. simpl. lia.
  - destruct (startResults (em n) (startCalls (em n))) as [err|] eqn:E.
    2:{ exfalso. apply (Hfail 0%nat); [lia|]. rewrite Nat.add_0_r. exact E. }
    destruct (Nat.ltb_spec maxRestarts (S attempt)) as [Hlt|Hge]; [lia|].
    match goal with |- context [backoff_loop fuel (S attempt) ?n1] =>
      destruct (IH (S attempt) j n1) as (n' & Hr & Hc) end.
    + intros k Hk. cbn [em set_em startResults startCalls].
      replace (S (startCalls (em n)) + k)%nat
        with (startCalls (em n) + S k)%nat by lia. apply Hfail. lia.
    + cbn [em set_em startResults startCalls].
      replace (S (startCalls (em n)) + j)%nat
        with (startCalls (em n) + S j)%nat by lia. exact Hok.
    + lia.
    + lia.
    + rewrite Hr. exists n'. split; [reflexivity|]. rewrite Hc. simpl. lia.
Qed.

(** The bound of the model is never reached: the backoff always returns,
    after at most [maxRestarts + 1] sleeps. *)
Lemma backoff_loop_returns (fuel attempt : nat) (n : Node.t) :
  (attempt <= maxRestarts)%nat -> (maxRestarts + 1 - attempt <= fuel)%nat ->
  exists tr r n',
    backoff_loop fuel attempt n = (tr, Done (r, n')) /\
    (length tr <= maxRestarts + 1 - attempt)%nat.
Proof.
  assert (Hmax : maxRestarts = 25%nat) by reflexivity.
  revert attempt n.
  induction fuel as [|fuel IH]; intros attempt n Ha Hf; [lia|].
  cbn [backoff_loop]. unfold bind at 1. cbn [emit].
  unfold bind at 1. rewrite em_Start_eq. cbv zeta.
  destruct (startResults (em n) (startCalls (em n))) as [err|] eqn:E.
  - destruct (Nat.ltb_spec maxRestarts (S attempt)) as [Hlt|Hge].
    + do 3 eexists. split; [reflexivity|]. cbn. lia.
    + match goal with |- context [backoff_loop fuel (S attempt) ?n1] =>
        destruct (IH (S attempt) n1) as (tr & r & n' & Hr & Hlen); [lia|lia|];
        rewrite Hr end.
      do 3 eexists. split; [reflexivity|]. cbn. lia.
  - do 3 eexists. split; [reflexivity|]. cbn. lia.
Qed.

Lemma RestartEventMeterBackoff_returns (n : Node.t) :
  exists tr r n',
    RestartEventMeterBackoff n = (tr, Done (r, n')) /\ (length tr <= 26)%nat.
Proof.
  destruct (backoff_loop_returns (maxRestarts + 2) 0 n) as (tr & r & n' & Hr & Hl);
    [lia|lia|].
  exists tr, r, n'. split; [exact Hr|exact Hl].
Qed.

Lemma int64_small (x : Z) : 0 <= x < 2 ^ 63 -> int64 x = x.
Proof.
  intros Hx. unfold int64. rewrite Z.mod_small; lia.
Qed.

Lemma backoff_delay_exact (k : nat) :
  (k <= maxRestarts)%nat -> int64 (Exp2 k * Second) = 2 ^ Z.of_nat k * Second.
Proof.
  intros Hk. apply int64_small. unfold Exp2, Second, maxRestarts in *.
  assert (0 < 2 ^ Z.of_nat k) by (apply Z.pow_pos_nonneg; lia).
  assert (2 ^ Z.of_nat k <= 2 ^ 25) by (apply Z.pow_le_mono_r; lia).
  change (2 ^ 25) with 33554432 in *. change (2 ^ 63) with 9223372036854775808. lia.
Qed.

(** C5 (the code at the failing input): when every restart of the event
    meter fails, [RestartEventMeterBackoff] sleeps 2^k seconds before attempt
    k for k = 0..25, so it makes 26 restart attempts, the last one after
    2^25 seconds, and only then returns the error "Reached max restarts":
    after the 25th failed attempt one more attempt is made. *)
Theorem C5_backoff_attempts_when_unreachable (e : error) (n : Node.t) :
  exists n',
    RestartEventMeterBackoff (Fixtures.unreachable e n)
    = (map (fun k => Sleep (2 ^ Z.of_nat k * Second)) (seq 0 26),
       Done (Some "Reached max restarts"%string, n')) /\
    startCalls (em n') = (startCalls (em n) + 26)%nat /\
    length (map (fun k => Sleep (2 ^ Z.of_nat k * Second)) (seq 0 26)) = 26%nat /\
    last (map (fun k => Sleep (2 ^ Z.of_nat k * Second)) (seq 0 26))
    = Some (Sleep (2 ^ 25 * Second)).
Proof.
  destruct (backoff_loop_failing (maxRestarts + 2) 0 (Fixtures.unreachable e n))
    as (n' & Hr & Hc).
  - intros k. discriminate.
  - lia.
  - lia.
  - exists n'. split; [|split; [|split; reflexivity]].
    + unfold RestartEventMeterBackoff. rewrite Hr.
      change (maxRestarts + 1 - 0)%nat with 26%nat.
      assert (Hm : map (fun k => Sleep (int64 (Exp2 k * Second))) (seq 0 26)
                   = map (fun k => Sleep (2 ^ Z.of_nat k * Second)) (seq 0 26)).
      { apply map_ext_in. intros k Hk. apply in_seq in Hk.
        rewrite backoff_delay_exact; [reflexivity|unfold maxRestarts; lia]. }
      rewrite Hm. reflexivity.
    + rewrite Hc. reflexivity.
Qed.

(** *** What every operation on a node leaves alone *)

Section Respects.
Context (R : relation Node.t) `{!Stable R}.

Lemma resp_ret {A} (a : A) : respects R (ret a).
Proof. intros n tr a' n' H. inversion H; subst. reflexivity. Qed.

Lemma resp_get : respects R get.
Proof. intros n tr a' n' H. inversion H; subst. reflexivity. Qed.

Lemma resp_emit (e : effect) : respects R (emit e).
Proof. intros n tr a' n' H. inversion H; subst. reflexivity. Qed.

Lemma resp_panic {A} (msg : string) : respects R (panic (A := A) msg).
Proof. intros n tr a' n' H. inversion H. Qed.

Lemma resp_out_of_fuel {A} : respects R (out_of_fuel (A := A)).
Proof. intros n tr a' n' H. inversion H. Qed.

Lemma resp_modify (f : Node.t -> Node.t) :
  (forall n, R n (f n)) -> respects R (modify f).
Proof. intros Hf n tr a' n' H. inversion H; subst. apply Hf. Qed.

Lemma resp_bind {A B} (m : Node.M A) (k : A -> Node.M B) :
  respects R m -> (forall a, respects R (k a)) -> respects R (bind m k).
Proof.
  intros Hm Hk n tr b n' H. unfold bind in H.
  destruct (m n) as [tr1 [[a n1]| |]] eqn:E; try discriminate.
  destruct (k a n1) as [tr2 r] eqn:E2. inversion H; subst.
  transitivity n1; [eapply Hm; eassumption|eapply Hk; eassumption].
Qed.

Lemma resp_for_range {A} (l : list A) (body : A -> Node.M unit) :
  (forall x, respects R (body x)) -> respects R (for_range l body).
Proof.
  intros Hb. induction l as [|x l IH]; simpl.
  - apply resp_ret.
  - apply resp_bind; [apply Hb|intros _; exact IH].
Qed.

Ltac resp_step :=
  first
    [ apply resp_ret | apply resp_get | apply resp_emit | apply resp_panic
    | apply resp_out_of_fuel
    | apply resp_modify;
      first [ apply stable_IsValidator | apply stable_pubKey | apply stable_Online
            | apply stable_Height | apply stable_BlockLatency | apply stable_em
            | apply stable_rpcClient | apply stable_blockCh
            | apply stable_blockLatencyCh | apply stable_disconnectCh
            | apply stable_checkIsValidatorInterval | apply stable_quit ]
    | apply resp_for_range; intros ?
    | apply resp_bind; [|intros ?]
    | match goal with
      | |- respects _ (match ?x with _ => _ end) => destruct x
      | |- respects _ (if ?b then _ else _) => destruct b
      end ].

Ltac resp := repeat resp_step.

Lemma resp_em_Start : respects R em_Start.
Proof. unfold em_Start. resp. Qed.

Lemma resp_validators : respects R validators.
Proof. unfold validators, rpc_Call_validators. resp. Qed.

Lemma resp_getPubKey : respects R getPubKey.
Proof. unfold getPubKey, rpc_Call_status. resp. Qed.

Lemma resp_checkIsValidator : respects R checkIsValidator.
Proof.
  unfold checkIsValidator. apply resp_bind; [apply resp_validators|].
  intros [[h vals] err]. resp.
Qed.

Lemma resp_checkIsValidatorLoop (ticks : nat) : respects R (checkIsValidatorLoop ticks).
Proof.
  induction ticks as [|k IH]; simpl; [apply resp_ret|].
  apply resp_bind; [apply resp_checkIsValidator|intros _; exact IH].
Qed.

Lemma resp_backoff_loop (fuel attempt : nat) : respects R (backoff_loop fuel attempt).
Proof.
  revert attempt. induction fuel as [|fuel IH]; intros attempt; simpl;
    [apply resp_out_of_fuel|].
  apply resp_bind; [apply resp_emit|intros _].
  apply resp_bind; [apply resp_em_Start|intros [err|]]; [|apply resp_ret].
  destruct (maxRestarts <? S attempt)%nat; [apply resp_ret|apply IH].
Qed.

Lemma resp_Start : respects R Start.
Proof.
  unfold Start. apply resp_bind; [apply resp_em_Start|intros [err|]]; [apply resp_ret|].
  unfold em_RegisterLatencyCallback, em_Subscribe, em_RegisterDisconnectCallback.
  apply resp_bind; [resp|intros _]. apply resp_bind; [resp|intros [err|]]; [apply resp_ret|].
  apply resp_bind; [resp|intros _]. apply resp_bind; [resp|intros _].
  apply resp_bind; [apply resp_checkIsValidator|intros _]. resp.
Qed.

Lemma resp_Stop : respects R Stop.
Proof. unfold Stop, em_Stop. resp. Qed.

Lemma resp_exec (o : op) : respects R (exec o).
Proof.
  destruct o; cbn [exec].
  - unfold SendBlocksTo. resp.
  - unfold SendBlockLatenciesTo. resp.
  - unfold NotifyAboutDisconnects. resp.
  - unfold SetCheckIsValidatorInterval. resp.
  - apply resp_bind; [apply resp_Start|intros _; apply resp_ret].
  - apply resp_Stop.
  - unfold newBlockCallback. resp.
  - unfold latencyCallback. resp.
  - unfold disconnectCallback.
    apply resp_bind; [resp|intros _]. apply resp_bind; [resp|intros ?].
    apply resp_bind; [resp|intros _].
    apply resp_bind; [apply resp_backoff_loop|intros [err|]]; resp.
  - apply resp_bind; [apply resp_backoff_loop|intros _; apply resp_ret].
  - unfold NumValidators. apply resp_bind; [|intros _; apply resp_ret].
    apply resp_bind; [apply resp_validators|intros [[h vals] err]]. resp.
  - apply resp_bind; [apply resp_validators|intros _; apply resp_ret].
  - apply resp_checkIsValidator.
  - apply resp_checkIsValidatorLoop.
  - apply resp_bind; [apply resp_getPubKey|intros _; apply resp_ret].
Qed.

End Respects.

#[local] Instance latched_stable : Stable latched.
Proof.
  split; try (unfold latched; intros; simpl; solve [assumption|reflexivity]).
  split; [intros n H; exact H|intros a b c Hab Hbc H; apply Hbc, Hab, H].
Qed.

#[local] Instance same_name_stable : Stable same_name.
Proof.
  split; try (intros; reflexivity).
  split; [intros n; reflexivity|intros a b c Hab Hbc; unfold same_name in *; congruence].
Qed.

Lemma getPubKey_own_key (n : Node.t) (k : list byte) :
  own_key n k ->
  exists n2,
    getPubKey n = ([], Done ((Some k, None), n2)) /\
    pubKey n2 = Some k /\ IsValidator n2 = IsValidator n.
Proof.
  unfold getPubKey, rpc_Call_status, bind, get, modify, ret.
  intros [Hk|[Hk Hs]]; rewrite Hk; cbn.
  - eexists. split; [reflexivity|]. split; [exact Hk|reflexivity].
  - rewrite Hs. cbn. eexists. split; [reflexivity|]. split; reflexivity.
Qed.

Lemma check_loop_own_key (k : list byte) (vals : list Validator) (n : Node.t) :
  own_key n k ->
  exists tr n',
    for_range vals (fun v =>
      r <- getPubKey ;;
      let '(key, err) := r in
      if (if err is None then true else false) && bool_decide (ValPubKey v = key)
      then modify (set_IsValidator true)
      else ret tt) n = (tr, Done (tt, n')) /\
    (IsValidator n = true \/ (exists v, In v vals /\ ValPubKey v = Some k) ->
     IsValidator n' = true).
Proof.
  revert n. induction vals as [|v vals IH]; intros n Hown.
  - exists [], n. split; [reflexivity|]. intros [H|(v & [] & _)]. exact H.
  - destruct (getPubKey_own_key n k Hown) as (n2 & Hg & Hk2 & Hv2).
    cbn [for_range]. unfold bind at 1. unfold bind at 1. rewrite Hg. cbn [andb].
    destruct (bool_decide_reflect (ValPubKey v = Some k)) as [Hvk|Hvk].
    + cbn [modify]. cbn [app].
      destruct (IH (set_IsValidator true n2)) as (tr & n' & Hr & Hflag).
      { left. exact Hk2. }
      rewrite Hr. exists tr, n'. split; [reflexivity|].
      intros _. apply Hflag. left. reflexivity.
    + cbn [ret]. cbn [app].
      destruct (IH n2) as (tr & n' & Hr & Hflag).
      { left. exact Hk2. }
      rewrite Hr. exists tr, n'. split; [reflexivity|].
      intros [H|(v' & [->|Hin] & Hv')].
      * apply Hflag. left. congruence.
      * contradiction.
      * apply Hflag. right. exists v'. split; assumption.
Qed.

(** C7: the validator flag is latched. Whatever operations are applied to
    a node whose [IsValidator] is set (callbacks, queries, start, stop,
    reconnects, and [checkIsValidator] with any answers, also answers that no
    longer list the node's key), a run that returns leaves the flag set; and
    [checkIsValidator] returns with the flag set when the "validators" query
    succeeds and the node's own key is the key of a listed validator. *)
Theorem C7_validator_flag_latched :
  (forall (ops : list op) (n : Node.t) tr n',
     IsValidator n = true ->
     for_range ops exec n = (tr, Done (tt, n')) ->
     IsValidator n' = true) /\
  (forall (n : Node.t) (vals : ResultValidators) (k : list byte),
     validatorsReply (rpcClient n) (calls (rpcClient n)) = Ok vals ->
     own_key n k ->
     (exists v, In v (Validators vals) /\ ValPubKey v = Some k) ->
     exists tr n',
       checkIsValidator n = (tr, Done (tt, n')) /\ IsValidator n' = true).
Proof.
  split.
  - intros ops n tr n' Hn Hrun.
    eapply (resp_for_range latched ops exec (resp_exec latched)); eassumption.
  - intros n vals k Hq Hown Hin.
    unfold checkIsValidator. unfold bind at 1. rewrite validators_eq. cbv zeta.
    rewrite Hq.
    match goal with |- context [for_range _ _ ?n1] =>
      destruct (check_loop_own_key k (Validators vals) n1) as (tr & n' & Hr & Hflag)
    end.
    { destruct Hown as [Hk|[Hk Hs]]; [left; exact Hk|right; split; [exact Hk|exact Hs]]. }
    rewrite Hr. exists ([] ++ tr), n'. split; [reflexivity|].
    apply Hflag. right. exact Hin.
Qed.

(** A flagged node whose answers never list its key keeps the flag over
    checks, a latency sample and a stop; a node whose first answer lists its
    key is flagged by the check. *)
Lemma C7_validator_flag_witness :
  (exists tr n',
     for_range [OpCheckIsValidator; OpLatency 5%float; OpCheckIsValidatorLoop 3; OpStop]
       exec (set_IsValidator true Fixtures.nodeFormer) = (tr, Done (tt, n')) /\
     IsValidator n' = true) /\
  (exists tr n',
     checkIsValidator Fixtures.nodeLeaving = (tr, Done (tt, n')) /\
     IsValidator n' = true).
Proof.
  destruct C7_validator_flag_latched as [Hkeep Hset]. split.
  - eexists. eexists. split; [vm_compute; reflexivity|].
    eapply (Hkeep [OpCheckIsValidator; OpLatency 5%float; OpCheckIsValidatorLoop 3; OpStop]
              (set_IsValidator true Fixtures.nodeFormer));
      [reflexivity|vm_compute; reflexivity].
  - apply (Hset Fixtures.nodeLeaving (mkResultValidators 7 Fixtures.vals12)
             [x01; x02; x03]).
    + reflexivity.
    + right. split; [reflexivity|]. intros i. reflexivity.
    + exists (mkValidator Fixtures.key1 10). split; [simpl; tauto|reflexivity].
Defined.

End NodeFacts.

(** ** Removal from a slice by swapping with the last element *)

Section SwapRemove.
Context {A : Type}.

Lemma swap_remove_perm (l : list A) (i : nat) (x lst : A) :
  l !! i = Some x -> l !! (length l - 1)%nat = Some lst ->
  take (length l - 1) (<[i := lst]> l) ≡ₚ delete i l.
Proof.
  intros Hi Hlast.
  assert (Hl : exists l', l = l' ++ [lst]).
  { apply last_Some. rewrite last_lookup.
    replace (pred (length l)) with (length l - 1)%nat by lia. exact Hlast. }
  destruct Hl as [l' ->]. rewrite length_app. cbn [length].
  replace (length l' + 1 - 1)%nat with (length l') by lia.
  apply lookup_lt_Some in Hi as Hlt. rewrite length_app in Hlt. cbn [length] in Hlt.
  destruct (decide (i = length l')) as [->|Hne].
  - rewrite list_insert_id by (rewrite lookup_app_r, Nat.sub_diag by lia; reflexivity).
    rewrite take_app_length.
    rewrite delete_take_drop, take_app_length.
    rewrite drop_ge by (rewrite length_app; cbn; lia). rewrite app_nil_r. reflexivity.
  - assert (Hlt' : (i < length l')%nat) by lia.
    rewrite insert_app_l by exact Hlt'.
    rewrite take_app_le by (rewrite length_insert; lia).
    rewrite take_ge by (rewrite length_insert; lia).
    rewrite insert_take_drop by exact Hlt'.
    rewrite delete_take_drop, take_app_le by lia.
    rewrite drop_app_le by lia.
    rewrite <- Permutation_middle, app_assoc.
    rewrite (Permutation_app_comm _ [lst]). reflexivity.
Qed.

Lemma In_delete_NoDup (l : list A) (i : nat) (a x : A) :
  NoDup l -> l !! i = Some a ->
  (In x (delete i l) <-> In x l /\ x <> a).
Proof.
  intros Hnd Hi.
  rewrite <- (take_drop_middle l i a Hi) in Hnd at 1.
  rewrite <- (take_drop_middle l i a Hi) at 2.
  rewrite delete_take_drop.
  apply NoDup_app in Hnd as (Hnd1 & Hdisj & Hnd2).
  apply NoDup_cons in Hnd2 as [Hna Hnd2].
  rewrite <- !list_elem_of_In, !elem_of_app, elem_of_cons. split.
  - intros [Hx|Hx].
    + split; [left; exact Hx|]. intros ->. apply (Hdisj a Hx). left.
    + split; [right; right; exact Hx|]. intros ->. contradiction.
  - intros [[Hx|[->|Hx]] Hne]; [left; exact Hx|contradiction|right; exact Hx].
Qed.

End SwapRemove.

(** ** Facts about [monitor.go] *)

Section MonitorFacts.
Import Go Tm Monitor.

Lemma on_node_eq {A} (n : loc) (f : Node.M A) (w : world) (node : Node.t) :
  heap w !! n = Some node ->
  on_node n f w =
  match f node with
  | (tr, Done (a, node')) => (tr, Done (a, set_heap (<[n := node']> (heap w)) w))
  | (tr, Panic msg) => (tr, Panic msg)
  | (tr, OutOfFuel) => (tr, OutOfFuel)
  end.
Proof. intros H. unfold on_node. rewrite H. reflexivity. Qed.

Lemma bind_unfold {E S A B} (m : Go.M E S A) (k : A -> Go.M E S B) (s : S) :
  bind m k s =
  match m s with
  | (tr, Done (a, s')) => let '(tr', r) := k a s' in (tr ++ tr', r)
  | (tr, Panic msg) => (tr, Panic msg)
  | (tr, OutOfFuel) => (tr, OutOfFuel)
  end.
Proof. reflexivity. Qed.

Lemma update_run (f : Monitor.t -> Monitor.t) (w : world) :
  update f w = ([], Done (tt, set_mon (f (mon w)) w)).
Proof. reflexivity. Qed.

Lemma make_chan_run (w : world) :
  make_chan w = ([], Done (chans w, set_chans (S (chans w)) w)).
Proof. reflexivity. Qed.

Lemma get_run {E S} (s : S) : get (E := E) s = ([], Done (s, s)).
Proof. reflexivity. Qed.

Lemma ret_run {E S A} (a : A) (s : S) : ret (E := E) a s = ([], Done (a, s)).
Proof. reflexivity. Qed.

Lemma emit_run {E S} (e : E) (s : S) : emit e s = ([e], Done (tt, s)).
Proof. reflexivity. Qed.

Lemma node_Name_run (n : loc) (w : world) (node : Node.t) :
  heap w !! n = Some node ->
  node_Name n w = ([], Done (Node.Name node, w)).
Proof.
  intros H. unfold node_Name. rewrite (on_node_eq _ _ _ _ H). cbn.
  rewrite (insert_id _ _ _ H). destruct w; reflexivity.
Qed.

Lemma on_node_modify (n : loc) (f : Node.t -> Node.t) (w : world) (node : Node.t) :
  heap w !! n = Some node ->
  on_node n (modify f) w = ([], Done (tt, set_heap (<[n := f node]> (heap w)) w)).
Proof. intros H. rewrite (on_node_eq _ _ _ _ H). reflexivity. Qed.

Ltac world_simpl :=
  cbn [heap mon chans closed set_heap set_mon set_chans set_closed
       set_Nodes set_Network set_nodeQuit Nodes Network nodeQuit monitorQuit
       recalculateNetworkUptimeEvery numValidatorsUpdateInterval].

Ltac lookup_now H :=
  world_simpl; rewrite ?lookup_insert_eq; first [exact H | reflexivity].

(** One statement of a method of the monitor, run on an explicit world. *)
Ltac run_step H :=
  rewrite bind_unfold;
  first
    [ rewrite update_run | rewrite make_chan_run | rewrite get_run
    | rewrite emit_run | rewrite ret_run
    | erewrite node_Name_run by lookup_now H
    | erewrite on_node_modify by lookup_now H
    | erewrite on_node_eq by lookup_now H ];
  cbv beta iota;
  unfold set_heap, set_mon, set_chans, set_closed; cbn [heap mon chans closed].

Lemma Monitor_eq (n : loc) (w : world) (node : Node.t) :
  heap w !! n = Some node ->
  let c := chans w in
  let m := mon w in
  let node1 :=
    Node.set_disconnectCh (Some (S (S c)))
      (Node.set_blockLatencyCh (Some (S c)) (Node.set_blockCh (Some c) node)) in
  Monitor n w =
  match Node.Start node1 with
  | (tr, Done (Some err, node2)) =>
      (tr, Done (Some err,
                 mkWorld (<[n := node2]> (heap w)) (set_Nodes (Nodes m ++ [n]) m)
                         (S (S (S c))) (closed w)))
  | (tr, Done (None, node2)) =>
      (tr ++ [Spawn (listen (Node.Name node2) c (S c) (S (S c)) (Some (S (S (S c)))))],
       Done (None,
             mkWorld (<[n := node2]> (heap w))
                     (mk (Nodes m ++ [n])
                         (Network.NewNode (Node.Name node2) (Network m))
                         (monitorQuit m)
                         (<[Node.Name node2 := S (S (S c))]> (nodeQuit m))
                         (recalculateNetworkUptimeEvery m)
                         (numValidatorsUpdateInterval m))
                     (S (S (S (S c)))) (closed w)))
  | (tr, Panic msg) => (tr, Panic msg)
  | (tr, OutOfFuel) => (tr, OutOfFuel)
  end.
Proof.
  intros H. cbv zeta. unfold Monitor.
  unfold Node.SendBlocksTo, Node.SendBlockLatenciesTo, Node.NotifyAboutDisconnects.
  do 8 run_step H.
  destruct (Node.Start _) as [tr [[[err|] node2]| |]]; cbv beta iota;
    [| |reflexivity|reflexivity].
  - rewrite ret_run. world_simpl. rewrite !insert_insert_eq, app_nil_r. reflexivity.
  - repeat run_step H. rewrite ret_run. world_simpl.
    rewrite !insert_insert_eq, lookup_insert_eq, app_nil_r. reflexivity.
Qed.

Lemma Start_fails (node : Node.t) (e : error) :
  Node.startResults (Node.em node) (Node.startCalls (Node.em node)) = Some e ->
  exists node', Node.Start node = ([], Done (Some e, node')).
Proof.
  intros H. unfold Node.Start. rewrite bind_unfold, em_Start_eq. cbv zeta.
  rewrite H. cbv beta iota. eexists. reflexivity.
Qed.

(** C2 (the code at the failing input): when [n.Start()] fails inside
    [Monitor(n)], be it the start of the event meter or the subscription,
    [Monitor(n)] returns that error, creates no [Network] entry and no
    [nodeQuit] entry, but [n] has already been appended to [m.Nodes] and
    stays there: the node is left tracked, with its three channels bound. *)
Theorem C2_failed_start_leaves_node_tracked
    (n : loc) (w : world) (node node' : Node.t) (e : error) tr :
  heap w !! n = Some node ->
  Node.Start
    (Node.set_disconnectCh (Some (S (S (chans w))))
       (Node.set_blockLatencyCh (Some (S (chans w)))
          (Node.set_blockCh (Some (chans w)) node)))
  = (tr, Done (Some e, node')) ->
  exists w',
    Monitor n w = (tr, Done (Some e, w')) /\
    Nodes (mon w') = Nodes (mon w) ++ [n] /\
    In n (Nodes (mon w')) /\
    heap w' !! n = Some node' /\
    Network (mon w') = Network (mon w) /\
    nodeQuit (mon w') = nodeQuit (mon w).
Proof.
  intros Hn HS. rewrite (Monitor_eq n w node Hn). cbv zeta. rewrite HS.
  eexists. split; [reflexivity|]. cbn.
  split; [reflexivity|]. split; [apply in_or_app; right; left; reflexivity|].
  split; [apply lookup_insert_eq|]. split; reflexivity.
Qed.

(** A fresh monitor given a node whose endpoint refuses the connection. *)
Lemma C2_failed_start_witness :
  exists w',
    Monitor 0%nat (init {[0%nat := Fixtures.nodeDown]})
    = ([], Done (Some "connection refused"%string, w')) /\
    Nodes (mon w') = [] ++ [0%nat] /\
    In 0%nat (Nodes (mon w')) /\
    heap w' !! 0%nat
    = Some (Node.set_em
              (Node.mkEventMeter (fun _ => Some "connection refused"%string) 1 None
                 false false false [])
              (Node.set_disconnectCh (Some 2%nat)
                 (Node.set_blockLatencyCh (Some 1%nat)
                    (Node.set_blockCh (Some 0%nat) Fixtures.nodeDown)))) /\
    Network (mon w') = Network.NewNetwork /\
    nodeQuit (mon w') = ∅.
Proof.
  apply (C2_failed_start_leaves_node_tracked 0%nat
           (init {[0%nat := Fixtures.nodeDown]}) Fixtures.nodeDown).
  - reflexivity.
  - reflexivity.
Defined.

(** *** Removal *)

Lemma node_Name_nil (n : loc) (w : world) :
  heap w !! n = None -> node_Name n w = ([], Panic "nil pointer dereference"%string).
Proof. intros H. unfold node_Name, on_node. rewrite H. reflexivity. Qed.

Lemma NodeByName_from_spec (name : string) (l : list loc) (i0 : Z) (w : world)
    tr i o w' :
  NodeByName_from name i0 l w = (tr, Done ((i, o), w')) ->
  w' = w /\
  (i = -1 \/ exists k, i = i0 + Z.of_nat k /\ map (name_at w) l !! k = Some name).
Proof.
  revert i0. induction l as [|n l IH]; intros i0 H.
  - cbn in H. inversion H; subst. split; [reflexivity|left; reflexivity].
  - cbn [NodeByName_from] in H. rewrite bind_unfold in H.
    destruct (heap w !! n) as [node|] eqn:Hn.
    + rewrite (node_Name_run _ _ _ Hn) in H. cbv beta iota in H.
      destruct (String.eqb name (Node.Name node)) eqn:E.
      * rewrite ret_run in H. inversion H; subst. split; [reflexivity|].
        right. exists 0%nat. split; [lia|]. cbn. unfold name_at. rewrite Hn.
        apply String.eqb_eq in E. congruence.
      * destruct (NodeByName_from name (i0 + 1) l w) as [tr' r] eqn:E'.
        inversion H; subst. destruct (IH _ E') as [-> Hk]. split; [reflexivity|].
        destruct Hk as [->|(k & -> & Hk)]; [left; reflexivity|].
        right. exists (S k). split; [lia|exact Hk].
    + rewrite (node_Name_nil _ _ Hn) in H. discriminate.
Qed.

Lemma close_chan_Done (c : option chan) (w : world) tr w' :
  close_chan c w = (tr, Done (tt, w')) ->
  exists ch, c = Some ch /\ w' = set_closed ({[ch]} ∪ closed w) w.
Proof.
  destruct c as [ch|]; [|discriminate]. unfold close_chan.
  rewrite bind_unfold, get_run. cbv beta iota.
  case_bool_decide; [discriminate|]. intros Hr. inversion Hr; subst.
  exists ch. split; reflexivity.
Qed.

Lemma name_at_insert (w : world) (n : loc) (node node' : Node.t) m c cl (l : loc) :
  heap w !! n = Some node -> Node.Name node' = Node.Name node ->
  name_at (mkWorld (<[n := node']> (heap w)) m c cl) l = name_at w l.
Proof.
  intros Hn Hname. unfold name_at. cbn [heap].
  destruct (decide (n = l)) as [->|Hne].
  - rewrite lookup_insert_eq, Hn. exact Hname.
  - rewrite lookup_insert_ne by exact Hne. reflexivity.
Qed.

Lemma Unmonitor_inv (n : loc) (w : world) tr w1 :
  Unmonitor n w = (tr, Done (tt, w1)) ->
  exists node node' (i : nat) lst,
    heap w !! n = Some node /\ Node.Name node' = Node.Name node /\
    names w !! i = Some (Node.Name node) /\
    Nodes (mon w) !! (length (Nodes (mon w)) - 1)%nat = Some lst /\
    heap w1 = <[n := node']> (heap w) /\
    Nodes (mon w1) = take (length (Nodes (mon w)) - 1) (<[i := lst]> (Nodes (mon w))) /\
    Network (mon w1) = Network.NodeDeleted (Node.Name node) (Network (mon w)) /\
    nodeQuit (mon w1) = delete (Node.Name node) (nodeQuit (mon w)).
Proof.
  intros H. unfold Unmonitor in H.
  destruct (heap w !! n) as [node|] eqn:Hn.
  2:{ rewrite bind_unfold, (node_Name_nil _ _ Hn) in H. discriminate. }
  rewrite bind_unfold, (node_Name_run _ _ _ Hn) in H. cbv beta iota in H.
  rewrite bind_unfold, update_run in H. cbv beta iota in H.
  rewrite bind_unfold in H.
  rewrite (on_node_eq n Node.Stop _ node) in H by (cbn; exact Hn).
  destruct (Node.Stop node) as [trS [[[] node']| |]] eqn:HS; try discriminate.
  cbv beta iota in H.
  assert (Hname : Node.Name node' = Node.Name node).
  { eapply (@resp_Stop Node.same_name same_name_stable); exact HS. }
  unfold set_heap, set_mon, set_chans, set_closed in H. cbn [heap mon chans closed] in H.
  match type of H with context [bind _ _ ?w2] =>
    assert (Hn2 : heap w2 !! n = Some node') by (cbn; apply lookup_insert_eq);
    assert (Hnames : forall l, name_at w2 l = name_at w l)
      by (intros l; apply (name_at_insert w n node node'); assumption);
    remember w2 as w2' eqn:Hw2 end.
  rewrite bind_unfold, (node_Name_run _ _ _ Hn2) in H. cbv beta iota in H.
  rewrite bind_unfold, get_run in H. cbv beta iota in H.
  rewrite bind_unfold in H.
  destruct (close_chan _ w2') as [trC [[[] w3]| |]] eqn:HC; try discriminate.
  apply close_chan_Done in HC as (ch & Hch & ->). cbv beta iota in H.
  assert (Hn3 : heap (set_closed ({[ch]} ∪ closed w2') w2') !! n = Some node')
    by exact Hn2.
  rewrite bind_unfold, (node_Name_run _ _ _ Hn3) in H. cbv beta iota in H.
  rewrite bind_unfold, update_run in H. cbv beta iota in H.
  match type of H with context [bind _ _ ?w4] =>
    assert (Hn4 : heap w4 !! n = Some node') by exact Hn2;
    assert (Hnames4 : forall l, name_at w4 l = name_at w l) by exact Hnames;
    assert (HNodes4 : Nodes (mon w4) = Nodes (mon w)) by (subst w2'; reflexivity);
    assert (HNet4 : Network (mon w4)
                    = Network.NodeDeleted (Node.Name node) (Network (mon w)))
      by (subst w2'; reflexivity);
    assert (HQ4 : nodeQuit (mon w4) = delete (Node.Name node') (nodeQuit (mon w)))
      by (subst w2'; reflexivity);
    assert (Hheap4 : heap w4 = <[n := node']> (heap w)) by (subst w2'; reflexivity);
    remember w4 as w4' eqn:Hw4 end.
  clear Hw2 Hw4 Hn2 Hn3 Hnames Hch.
  rewrite bind_unfold, (node_Name_run _ _ _ Hn4) in H. cbv beta iota in H.
  rewrite bind_unfold in H. unfold NodeByName in H.
  rewrite bind_unfold, get_run in H. cbv beta iota in H.
  destruct (NodeByName_from _ 0 _ w4') as [trN [[[i o] w5]| |]] eqn:HN; try discriminate.
  apply NodeByName_from_spec in HN as [-> Hi]. cbv beta iota in H.
  rewrite bind_unfold, get_run in H. cbv beta iota in H.
  destruct (Nodes (mon w4') !! (length (Nodes (mon w4')) - 1)%nat) as [lst|] eqn:Hlast;
    [|discriminate].
  destruct (Z.ltb_spec i 0) as [Hneg|Hpos]; [discriminate|].
  rewrite bind_unfold, !update_run in H. cbv beta iota in H.
  inversion H; subst tr w1. clear H.
  destruct Hi as [->|(k & -> & Hk)]; [lia|].
  replace (Z.to_nat (0 + Z.of_nat k)) with k by lia.
  exists node, node', k, lst. cbn.
  rewrite HNodes4 in *. rewrite length_insert.
  split; [reflexivity|]. split; [exact Hname|]. split.
  { unfold names. rewrite <- Hname.
    erewrite map_ext; [exact Hk|]. intros l. symmetry. apply Hnames4. }
  split; [exact Hlast|]. split; [exact Hheap4|]. split; [reflexivity|].
  split; [exact HNet4|]. rewrite HQ4, Hname. reflexivity.
Qed.

Lemma name_at_heap (w w1 : world) (n : loc) (node node' : Node.t) (l : loc) :
  heap w1 = <[n := node']> (heap w) ->
  heap w !! n = Some node -> Node.Name node' = Node.Name node ->
  name_at w1 l = name_at w l.
Proof.
  intros Hh Hn Hname. unfold name_at. rewrite Hh.
  destruct (decide (n = l)) as [->|Hne].
  - rewrite lookup_insert_eq, Hn. exact Hname.
  - rewrite lookup_insert_ne by exact Hne. reflexivity.
Qed.

Lemma Monitor_nil (n : loc) (w : world) :
  heap w !! n = None -> Monitor n w = ([], Panic "nil pointer dereference"%string).
Proof.
  intros Hn. unfold Monitor.
  rewrite bind_unfold, update_run. cbv beta iota.
  rewrite bind_unfold, make_chan_run. cbv beta iota.
  rewrite bind_unfold. unfold on_node at 1. cbn [heap set_chans set_mon].
  rewrite Hn. reflexivity.
Qed.

(** What a successful [Monitor(n)] leaves behind. *)
Lemma Monitor_inv (n : loc) (w : world) tr w1 :
  Monitor n w = (tr, Done (None, w1)) ->
  exists node node',
    heap w !! n = Some node /\ Node.Name node' = Node.Name node /\
    heap w1 = <[n := node']> (heap w) /\
    Nodes (mon w1) = Nodes (mon w) ++ [n] /\
    Network (mon w1) = Network.NewNode (Node.Name node) (Network (mon w)) /\
    nodeQuit (mon w1) = <[Node.Name node := S (S (S (chans w)))]> (nodeQuit (mon w)).
Proof.
  intros H. destruct (heap w !! n) as [node|] eqn:Hn.
  2:{ rewrite (Monitor_nil _ _ Hn) in H. discriminate. }
  rewrite (Monitor_eq n w node Hn) in H. cbv zeta in H.
  destruct (Node.Start _) as [trS [[[err|] node2]| |]] eqn:HS; try discriminate.
  assert (Hname : Node.Name node2 = Node.Name node).
  { apply (@resp_Start Node.same_name same_name_stable) in HS. exact HS. }
  inversion H; subst tr w1. clear H. exists node, node2. cbn. rewrite Hname.
  repeat split; reflexivity.
Qed.

Lemma names_after (w w1 : world) (n : loc) (node node' : Node.t) (ls : list loc) :
  heap w1 = <[n := node']> (heap w) ->
  heap w !! n = Some node -> Node.Name node' = Node.Name node ->
  map (name_at w1) ls = map (name_at w) ls.
Proof.
  intros Hh Hn Hname. apply map_ext. intros l.
  eapply name_at_heap; eassumption.
Qed.

Lemma Monitor_correspondence (n : loc) (w : world) tr w1 :
  in_correspondence w -> ~ In (name_at w n) (names w) ->
  Monitor n w = (tr, Done (None, w1)) ->
  in_correspondence w1.
Proof.
  intros [Hnd Hent] Hfresh H.
  apply Monitor_inv in H as (node & node' & Hn & Hname & Hh & HN & HNet & _).
  assert (Hnm : names w1 = names w ++ [Node.Name node]).
  { unfold names. rewrite HN, map_app. cbn [map].
    rewrite (names_after w w1 n node node' _ Hh Hn Hname).
    rewrite (name_at_heap w w1 n node node' n Hh Hn Hname).
    unfold name_at. rewrite Hn. reflexivity. }
  assert (Hfresh' : ~ In (Node.Name node) (names w)).
  { unfold name_at in Hfresh. rewrite Hn in Hfresh. exact Hfresh. }
  split.
  - rewrite Hnm. apply NoDup_app. split; [exact Hnd|]. split.
    + intros x Hx Hx'. apply list_elem_of_In in Hx.
      apply list_elem_of_In in Hx'. destruct Hx' as [<-|[]]. contradiction.
    + apply NoDup_singleton.
  - intros name. rewrite Hnm, HNet, in_app_iff. cbn.
    destruct (decide (Node.Name node = name)) as [<-|Hne].
    + rewrite lookup_insert_eq. split; [eexists; reflexivity|intros _; right; left; reflexivity].
    + rewrite lookup_insert_ne by exact Hne. rewrite <- Hent. split.
      * intros [Hx|[Hx|[]]]; [exact Hx|contradiction].
      * intros Hx. left. exact Hx.
Qed.

Lemma Unmonitor_correspondence (n : loc) (w : world) tr w1 :
  in_correspondence w ->
  Unmonitor n w = (tr, Done (tt, w1)) ->
  in_correspondence w1.
Proof.
  intros [Hnd Hent] H.
  apply Unmonitor_inv in H
    as (node & node' & i & lst & Hn & Hname & Hi & Hlast & Hh & HN & HNet & _).
  assert (Hperm : names w1 ≡ₚ delete i (names w)).
  { unfold names at 1. rewrite HN.
    rewrite (names_after w w1 n node node' _ Hh Hn Hname).
    change (map (name_at w) ?l) with (name_at w <$> l).
    rewrite fmap_take, list_fmap_insert.
    replace (length (Nodes (mon w))) with (length (names w))
      by (unfold names; apply length_map).
    apply (swap_remove_perm (names w) i (Node.Name node)); [exact Hi|].
    unfold names. rewrite length_map.
    change (map (name_at w) ?l) with (name_at w <$> l).
    rewrite list_lookup_fmap, Hlast. reflexivity. }
  split.
  - rewrite Hperm. apply (sublist_NoDup _ (names w)); [exact Hnd|apply sublist_delete].
  - intros name. rewrite HNet. cbn.
    transitivity (In name (delete i (names w))).
    { rewrite <- !list_elem_of_In. rewrite Hperm. reflexivity. }
    rewrite (In_delete_NoDup (names w) i (Node.Name node) name Hnd Hi), Hent.
    destruct (decide (Node.Name node = name)) as [<-|Hne].
    + rewrite lookup_delete_eq. split; [intros [_ Hx]; congruence|intros [x Hx]; discriminate].
    + rewrite lookup_delete_ne by exact Hne. split; [tauto|].
      intros Hx. split; [exact Hx|congruence].
Qed.

Lemma init_correspondence (h : gmap loc Node.t) : in_correspondence (init h).
Proof.
  split; [apply NoDup_nil; constructor|].
  intros name. cbn. rewrite lookup_empty. split; [intros []|intros [x Hx]; discriminate].
Qed.

Lemma runs_correspondence (w : world) (ops : list op) (w' : world) :
  runs w ops w' -> in_correspondence w -> in_correspondence w'.
Proof.
  induction 1 as [w|w n ops tr w1 w2 Hfresh HM _ IH|w n ops tr w1 w2 HU _ IH];
    intros Hinv.
  - exact Hinv.
  - apply IH. eapply Monitor_correspondence; eassumption.
  - apply IH. eapply Unmonitor_correspondence; eassumption.
Qed.

(** Without unique names: two node objects with the same address, hence
    the same name, are registered one after the other and the first is
    removed. [Network] keeps one entry per name, and the removal deletes it,
    while the second node stays tracked: a tracked name without an entry. *)
Lemma same_name_breaks_correspondence :
  exists tr1 w1 tr2 w2 tr3 w3,
    Monitor 0%nat (init {[0%nat := Fixtures.nodeA; 1%nat := Fixtures.nodeA']})
    = (tr1, Done (None, w1)) /\
    Monitor 1%nat w1 = (tr2, Done (None, w2)) /\
    Unmonitor 0%nat w2 = (tr3, Done (tt, w3)) /\
    Nodes (mon w3) = [1%nat] /\
    names w3 = ["a:46657"%string] /\
    Network.nodes (Network (mon w3)) !! "a:46657"%string = None /\
    ~ in_correspondence w3.
Proof.
  do 6 eexists.
  split; [vm_compute; reflexivity|].
  split; [vm_compute; reflexivity|].
  split; [vm_compute; reflexivity|].
  split; [reflexivity|]. split; [reflexivity|]. split; [reflexivity|].
  intros [_ Hent]. destruct (proj1 (Hent "a:46657"%string)) as [st Hst].
  - left. reflexivity.
  - discriminate Hst.
Qed.

(** Where the correspondence holds: over every run of [Monitor] and
    [Unmonitor] calls that does not panic and in which every [Monitor(n)] is
    given a node whose name is not tracked at that moment and returns nil, the
    tracked names and the entries of [Network] are in 1:1 correspondence: no
    name is tracked twice and a name is tracked exactly when it has an entry.
    The entry is created, offline, by the successful [Monitor] and deleted by
    [Unmonitor]. *)
Lemma correspondence_of_started_unique_names :
  (forall (h : gmap loc Node.t) (ops : list op) (w : world),
     runs (init h) ops w -> in_correspondence w) /\
  (forall (n : loc) (w : world) tr w1,
     Monitor n w = (tr, Done (None, w1)) ->
     Network.status (Network (mon w1)) (name_at w n) = Some false) /\
  (forall (n : loc) (w : world) tr w1,
     Unmonitor n w = (tr, Done (tt, w1)) ->
     Network.nodes (Network (mon w1)) !! name_at w n = None).
Proof.
  split; [|split].
  - intros h ops w Hruns. eapply runs_correspondence; [exact Hruns|].
    apply init_correspondence.
  - intros n w tr w1 H.
    apply Monitor_inv in H as (node & node' & Hn & _ & _ & _ & HNet & _).
    unfold name_at, Network.status. rewrite Hn, HNet. cbn.
    rewrite lookup_insert_eq. reflexivity.
  - intros n w tr w1 H.
    apply Unmonitor_inv in H as (node & node' & i & lst & Hn & _ & _ & _ & _ & _ & HNet & _).
    unfold name_at. rewrite Hn, HNet. cbn. apply lookup_delete_eq.
Qed.

(** Two nodes with different names are registered and the first is
    removed. *)
Lemma correspondence_of_started_example :
  exists w,
    runs (init {[0%nat := Fixtures.nodeA; 1%nat := Fixtures.nodeB]})
      [OpMonitor 0%nat; OpMonitor 1%nat; OpUnmonitor 0%nat] w /\
    in_correspondence w.
Proof.
  destruct correspondence_of_started_unique_names as (Hinv & _ & _).
  assert (Hruns : exists w,
            runs (init {[0%nat := Fixtures.nodeA; 1%nat := Fixtures.nodeB]})
              [OpMonitor 0%nat; OpMonitor 1%nat; OpUnmonitor 0%nat] w).
  { eexists.
    eapply runs_Monitor;
      [cbn; tauto|vm_compute; reflexivity|].
    eapply runs_Monitor;
      [vm_compute; intros [H|[]]; discriminate H|vm_compute; reflexivity|].
    eapply runs_Unmonitor; [vm_compute; reflexivity|].
    apply runs_nil. }
  destruct Hruns as [w Hruns]. exists w. split; [exact Hruns|].
  exact (Hinv _ _ _ Hruns).
Defined.

(** C1 (the code at the failing input): names are unique, and the tracked
    names and the entries of [Network] are in 1:1 correspondence. [Monitor(n)]
    is given a node whose name is not tracked, and [n.Start()] fails, be it
    the start of the event meter or the subscription. [Monitor] returns the
    error, but it has appended [n] to [m.Nodes] on its first line and returns
    before [Network.NewNode]: afterwards no name is tracked twice, the name of
    [n] is tracked, and [Network] has no entry for it. The correspondence is
    broken by a call that does not panic. *)
Theorem C1_failed_start_breaks_correspondence
    (n : loc) (w w1 : world) tr (e : error) :
  in_correspondence w -> ~ In (name_at w n) (names w) ->
  Monitor n w = (tr, Done (Some e, w1)) ->
  NoDup (names w1) /\
  names w1 = names w ++ [name_at w n] /\
  Network (mon w1) = Network (mon w) /\
  Network.nodes (Network (mon w1)) !! name_at w n = None /\
  ~ in_correspondence w1.
Proof.
  intros [Hnd Hent] Hfresh H.
  destruct (heap w !! n) as [node|] eqn:Hn.
  2:{ rewrite (Monitor_nil _ _ Hn) in H. discriminate. }
  rewrite (Monitor_eq n w node Hn) in H. cbv zeta in H.
  destruct (Node.Start _) as [trS [[[err|] node2]| |]] eqn:HS; try discriminate.
  assert (Hname : Node.Name node2 = Node.Name node).
  { apply (@resp_Start Node.same_name same_name_stable) in HS. exact HS. }
  inversion H; subst trS err w1. clear H.
  assert (Hat : name_at w n = Node.Name node) by (unfold name_at; rewrite Hn; reflexivity).
  assert (Hnm : names (mkWorld (<[n := node2]> (heap w))
                         (set_Nodes (Nodes (mon w) ++ [n]) (mon w))
                         (S (S (S (chans w)))) (closed w))
                = names w ++ [name_at w n]).
  { unfold names. cbn [mon set_Nodes Nodes]. rewrite map_app. cbn [map].
    rewrite (map_ext _ (name_at w))
      by (intros l; apply (name_at_insert w n node node2); assumption).
    rewrite (name_at_insert w n node node2) by assumption. reflexivity. }
  assert (Hnone : Network.nodes (Network (mon w)) !! name_at w n = None).
  { apply eq_None_not_Some. intros Hsome. apply Hfresh, Hent, Hsome. }
  split; [|split; [exact Hnm|split; [reflexivity|split; [exact Hnone|]]]].
  - rewrite Hnm. apply NoDup_app. split; [exact Hnd|]. split.
    + intros x Hx Hx'. apply list_elem_of_In in Hx.
      apply list_elem_of_In in Hx'. destruct Hx' as [<-|[]]. contradiction.
    + apply NoDup_singleton.
  - intros [_ Hent']. destruct (proj1 (Hent' (name_at w n))) as [st Hst].
    + rewrite Hnm. apply in_or_app. right. left. reflexivity.
    + cbn [mon set_Nodes Network] in Hst. rewrite Hnone in Hst. discriminate.
Qed.

(** A fresh monitor is given one node, whose endpoint refuses the
    connection: the one call returns the error and leaves the name tracked
    without an entry. *)
Lemma C1_failed_start_witness :
  exists w1,
    calls (init {[0%nat := Fixtures.nodeDown]}) [OpMonitor 0%nat] w1 /\
    NoDup (names w1) /\
    names w1
    = names (init {[0%nat := Fixtures.nodeDown]})
      ++ [name_at (init {[0%nat := Fixtures.nodeDown]}) 0%nat] /\
    Network (mon w1) = Network (mon (init {[0%nat := Fixtures.nodeDown]})) /\
    Network.nodes (Network (mon w1))
      !! name_at (init {[0%nat := Fixtures.nodeDown]}) 0%nat = None /\
    ~ in_correspondence w1.
Proof.
  assert (Hrun : exists w1,
            Monitor 0%nat (init {[0%nat := Fixtures.nodeDown]})
            = ([], Done (Some "connection refused"%string, w1))).
  { eexists. vm_compute. reflexivity. }
  destruct Hrun as [w1 Hrun]. exists w1. split.
  { eapply calls_Monitor; [exact Hrun|apply calls_nil]. }
  apply (C1_failed_start_breaks_correspondence 0%nat
           (init {[0%nat := Fixtures.nodeDown]}) w1 [] "connection refused"%string).
  - apply init_correspondence.
  - intros [].
  - exact Hrun.
Defined.

(** *** The listener *)

Lemma status_NodeIsDown (name : string) (net : Network.t) :
  is_Some (Network.nodes net !! name) ->
  Network.status (Network.NodeIsDown name net) name = Some false.
Proof.
  intros [st Hst]. unfold Network.status, Network.NodeIsDown. cbn.
  rewrite lookup_alter_eq, Hst. reflexivity.
Qed.

Lemma status_NodeIsOnline (name : string) (net : Network.t) :
  is_Some (Network.nodes net !! name) ->
  Network.status (Network.NodeIsOnline name net) name = Some true.
Proof.
  intros [st Hst]. unfold Network.status, Network.NodeIsOnline. cbn.
  rewrite lookup_alter_eq, Hst. reflexivity.
Qed.

Lemma listen_iteration_Height (name : string) (c : case) (net net' : Network.t) :
  listen_iteration name c net = Some net' ->
  Network.Height net <= Network.Height net'.
Proof.
  destruct c as [|b|l|d|]; try destruct d; cbn; intros H; inversion H; subst; cbn; lia.
Qed.

Lemma listeners_run_Height (evs : list (string * case)) (net : Network.t) :
  Network.Height net <= Network.Height (listeners_run evs net).
Proof.
  revert net. induction evs as [|[name c] evs IH]; intros net; cbn; [lia|].
  etransitivity; [|apply IH].
  destruct (listen_iteration name c net) as [net'|] eqn:E; [|lia].
  eapply listen_iteration_Height; eassumption.
Qed.

(** C3: when the listener ingests a block header of height [h] (a height
    that fits the unsigned 64-bit field), the global height of [Network]
    becomes the maximum of the previous height and [h]; and over every
    interleaving of iterations of listeners, whatever they select, the global
    height never decreases. *)
Theorem C3_height_is_max_and_monotone :
  (forall (name : string) (b : Header) (net : Network.t),
     0 <= HeaderHeight b < 2 ^ 64 ->
     exists net',
       listen_iteration name (CaseBlock b) net = Some net' /\
       Network.Height net' = Z.max (Network.Height net) (HeaderHeight b)) /\
  (forall (evs : list (string * case)) (net : Network.t),
     Network.Height net <= Network.Height (listeners_run evs net)).
Proof.
  split.
  - intros name b net Hb. eexists. split; [reflexivity|]. cbn.
    unfold uint64. rewrite Z.mod_small by exact Hb. reflexivity.
  - apply listeners_run_Height.
Qed.

(** A block of height 100 on a fresh network, and three listener
    iterations of two nodes. *)
Lemma C3_height_witness :
  (exists net',
     listen_iteration "a:46657" (CaseBlock (mkHeader 100 3))
       (Network.NewNode "a:46657" Network.NewNetwork) = Some net' /\
     Network.Height net' = Z.max 0 100) /\
  0 <= Network.Height
         (listeners_run [("a:46657"%string, CaseBlock (mkHeader 100 3));
                         ("b:46657"%string, CaseBlock (mkHeader 99 1));
                         ("a:46657"%string, CaseTimeout)]
            Network.NewNetwork).
Proof.
  destruct C3_height_is_max_and_monotone as [Hmax Hmono]. split.
  - apply (Hmax "a:46657"%string (mkHeader 100 3)
             (Network.NewNode "a:46657" Network.NewNetwork)).
    cbn. lia.
  - apply (Hmono _ Network.NewNetwork).
Defined.

Lemma liveness_timeout_value : nodeLivenessTimeout = 5000000000.
Proof. reflexivity. Qed.

Lemma earliest_arrival (arrivals : list (Duration * case)) :
  arrivals <> [] ->
  exists t c, In (t, c) arrivals /\ forall t' c', In (t', c') arrivals -> t <= t'.
Proof.
  induction arrivals as [|[t c] l IH]; [congruence|]. intros _.
  destruct l as [|a l].
  - exists t, c. split; [left; reflexivity|].
    intros t' c' [Heq|[]]. apply (f_equal fst) in Heq. cbn in Heq. lia.
  - destruct IH as (t0 & c0 & Hin & Hmin); [discriminate|].
    destruct (Z.le_gt_cases t t0) as [Hle|Hgt].
    + exists t, c. split; [left; reflexivity|].
      intros t' c' [Heq|Hin'].
      * apply (f_equal fst) in Heq. cbn in Heq. lia.
      * specialize (Hmin _ _ Hin'). lia.
    + exists t0, c0. split; [right; exact Hin|].
      intros t' c' [Heq|Hin'].
      * apply (f_equal fst) in Heq. cbn in Heq. lia.
      * exact (Hmin _ _ Hin').
Qed.

Lemma select_timeout_iff (arrivals : list (Duration * case)) :
  select arrivals CaseTimeout <->
  (forall t c, In (t, c) arrivals -> nodeLivenessTimeout <= t).
Proof.
  split.
  - intros Hsel. inversion Hsel as [t c Hin Hc _ _|Hall]; [congruence|exact Hall].
  - apply select_timeout.
Qed.

Lemma select_channel_iff (arrivals : list (Duration * case)) (c : case) :
  c <> CaseTimeout ->
  (select arrivals c <->
   exists t, In (t, c) arrivals /\ t <= nodeLivenessTimeout /\
             forall t' c', In (t', c') arrivals -> t <= t').
Proof.
  intros Hc. split.
  - intros Hsel. destruct Hsel as [t c Hin _ Hmin Ht|]; [|congruence].
    exists t. split; [exact Hin|]. split; [exact Ht|exact Hmin].
  - intros (t & Hin & Ht & Hmin). exact (select_channel arrivals t c Hin Hc Hmin Ht).
Qed.

Lemma select_runs (arrivals : list (Duration * case)) :
  (forall t c, In (t, c) arrivals -> c <> CaseTimeout) ->
  exists c, select arrivals c.
Proof.
  intros Hwf. destruct arrivals as [|a l].
  { exists CaseTimeout. apply select_timeout. intros t c []. }
  destruct (earliest_arrival (a :: l)) as (t & c & Hin & Hmin); [discriminate|].
  destruct (Z.le_gt_cases t nodeLivenessTimeout) as [Hle|Hgt].
  - exists c. apply (select_channel _ t c Hin (Hwf _ _ Hin) Hmin Hle).
  - exists CaseTimeout. apply select_timeout. intros t' c' Hin'.
    specialize (Hmin _ _ Hin'). lia.
Qed.

(** C6: one iteration of the listener of a node that has a [Network]
    entry, for every list of values the four channels deliver and the times
    at which they can be received. [select] always runs one case. It can run
    the timeout exactly when nothing can be received before the window has
    elapsed, and a channel case exactly when its value is among the earliest
    to arrive and arrives within the window. So when nothing arrives within
    the window, late traffic or none, the timeout is what runs and the node is
    marked down; when anything arrives before the window has elapsed, the
    timeout does not run, whatever else is pending; and when the first value
    to arrive, before the window has elapsed, is a block header or a latency
    sample, that case is what runs and the node is marked online. Whichever
    way they come to run, the timeout marks the node down, a block header or
    a latency sample marks it online, a connectivity change of [true] marks
    it down and of [false] marks it online; and the loop returns exactly when
    the case selected is the shutdown signal. *)
Theorem C6_listener_iteration (nodeName : string) (net : Network.t) :
  is_Some (Network.nodes net !! nodeName) ->
  (forall arrivals,
     (forall t c, In (t, c) arrivals -> c <> CaseTimeout) ->
     exists c, select arrivals c) /\
  (forall arrivals,
     select arrivals CaseTimeout <->
     (forall t c, In (t, c) arrivals -> nodeLivenessTimeout <= t)) /\
  (forall arrivals c,
     c <> CaseTimeout ->
     (select arrivals c <->
      exists t, In (t, c) arrivals /\ t <= nodeLivenessTimeout /\
                forall t' c', In (t', c') arrivals -> t <= t')) /\
  (forall arrivals,
     (forall t c, In (t, c) arrivals -> nodeLivenessTimeout < t) ->
     select arrivals CaseTimeout /\
     forall c, select arrivals c ->
       c = CaseTimeout /\
       exists net', listen_iteration nodeName c net = Some net' /\
                    Network.status net' nodeName = Some false) /\
  (forall arrivals t c c',
     In (t, c) arrivals -> t < nodeLivenessTimeout ->
     select arrivals c' ->
     c' <> CaseTimeout /\ exists t', In (t', c') arrivals /\ t' <= t) /\
  (forall arrivals t c,
     In (t, c) arrivals ->
     (exists b, c = CaseBlock b) \/ (exists l, c = CaseBlockLatency l) ->
     t < nodeLivenessTimeout ->
     (forall t' c', In (t', c') arrivals -> (t', c') = (t, c) \/ t < t') ->
     select arrivals c /\
     forall c', select arrivals c' ->
       c' = c /\
       exists net', listen_iteration nodeName c' net = Some net' /\
                    Network.status net' nodeName = Some true) /\
  (exists net', listen_iteration nodeName CaseTimeout net = Some net' /\
                Network.status net' nodeName = Some false) /\
  (forall b, exists net', listen_iteration nodeName (CaseBlock b) net = Some net' /\
                          Network.status net' nodeName = Some true) /\
  (forall l, exists net', listen_iteration nodeName (CaseBlockLatency l) net = Some net' /\
                          Network.status net' nodeName = Some true) /\
  (exists net', listen_iteration nodeName (CaseDisconnect true) net = Some net' /\
                Network.status net' nodeName = Some false) /\
  (exists net', listen_iteration nodeName (CaseDisconnect false) net = Some net' /\
                Network.status net' nodeName = Some true) /\
  (forall c, listen_iteration nodeName c net = None <-> c = CaseQuit) /\
  (forall cs, snd (listen_loop nodeName cs net) = true <-> In CaseQuit cs).
Proof.
  intros Hentry.
  assert (Hdown : exists net', listen_iteration nodeName CaseTimeout net = Some net' /\
                               Network.status net' nodeName = Some false).
  { eexists. split; [reflexivity|]. apply status_NodeIsDown, Hentry. }
  assert (Hblock : forall b, exists net',
             listen_iteration nodeName (CaseBlock b) net = Some net' /\
             Network.status net' nodeName = Some true).
  { intros b. eexists. split; [reflexivity|]. apply status_NodeIsOnline. exact Hentry. }
  assert (Hlat : forall l, exists net',
             listen_iteration nodeName (CaseBlockLatency l) net = Some net' /\
             Network.status net' nodeName = Some true).
  { intros l. eexists. split; [reflexivity|]. apply status_NodeIsOnline. exact Hentry. }
  split; [exact select_runs|].
  split; [exact select_timeout_iff|].
  split; [exact select_channel_iff|].
  split; [|split; [|split; [|split; [exact Hdown|split; [exact Hblock|split;
    [exact Hlat|split; [|split; [|split]]]]]]]].
  - intros arrivals Hlate. split.
    + apply select_timeout. intros t c Hin. apply Hlate in Hin. lia.
    + intros c Hsel.
      assert (Hc : c = CaseTimeout).
      { destruct Hsel as [t c Hin _ _ Ht|]; [|reflexivity].
        apply Hlate in Hin. lia. }
      subst c. split; [reflexivity|exact Hdown].
  - intros arrivals t c c' Hin Ht Hsel.
    destruct Hsel as [t' c' Hin' Hc' Hmin _|Hall].
    + split; [exact Hc'|]. exists t'. split; [exact Hin'|exact (Hmin _ _ Hin)].
    + specialize (Hall _ _ Hin). lia.
  - intros arrivals t c Hin Hsample Ht Hfirst.
    assert (Hc : c <> CaseTimeout).
    { destruct Hsample as [[b ->]|[l ->]]; discriminate. }
    split.
    + apply (select_channel arrivals t c Hin Hc); [|lia].
      intros t' c' Hin'. destruct (Hfirst _ _ Hin') as [Heq|Hlt]; [|lia].
      apply (f_equal fst) in Heq. cbn in Heq. lia.
    + intros c' Hsel.
      assert (Hc' : c' = c).
      { destruct Hsel as [t' c' Hin' _ Hmin _|Hall].
        - destruct (Hfirst _ _ Hin') as [Heq|Hlt].
          + exact (f_equal snd Heq).
          + specialize (Hmin _ _ Hin). lia.
        - specialize (Hall _ _ Hin). lia. }
      subst c'. split; [reflexivity|].
      destruct Hsample as [[b ->]|[l ->]]; [apply Hblock|apply Hlat].
  - eexists. split; [reflexivity|]. apply status_NodeIsDown, Hentry.
  - eexists. split; [reflexivity|]. apply status_NodeIsOnline, Hentry.
  - intros c. split.
    + destruct c as [|b|l|d|]; try destruct d; cbn; intros H; congruence.
    + intros ->. reflexivity.
  - intros cs. split.
    + clear Hentry Hdown Hblock Hlat. revert net.
      induction cs as [|c cs IH]; intros net; cbn; [discriminate|].
      destruct c as [|b|l|d|]; try destruct d; cbn; try (intros _; left; reflexivity);
        intros H; right; eapply IH; eassumption.
    + clear Hentry Hdown Hblock Hlat. revert net.
      induction cs as [|c cs IH]; intros net Hin; [destruct Hin|].
      destruct c as [|b|l|d|]; try destruct d; cbn; try reflexivity;
        destruct Hin as [Heq|Hin]; try discriminate; apply IH; exact Hin.
Qed.

(** A registered node that is online. With a block header that can be
    received a second after the window has elapsed and nothing before, the
    timeout runs and the node is marked down. With a latency sample one
    nanosecond before the window ends and a connectivity change pending at
    the end of the window, the sample is what runs and the node stays
    online. *)
Lemma C6_listener_witness :
  (select [(6000000000, CaseBlock (mkHeader 100 3))] CaseTimeout /\
   forall c, select [(6000000000, CaseBlock (mkHeader 100 3))] c ->
     c = CaseTimeout /\
     exists net',
       listen_iteration "a:46657" c
         (Network.NodeIsOnline "a:46657" (Network.NewNode "a:46657" Network.NewNetwork))
       = Some net' /\
       Network.status net' "a:46657" = Some false) /\
  (select [(5000000000, CaseDisconnect true); (4999999999, CaseBlockLatency 12%float)]
     (CaseBlockLatency 12%float) /\
   forall c',
     select [(5000000000, CaseDisconnect true); (4999999999, CaseBlockLatency 12%float)]
       c' ->
     c' = CaseBlockLatency 12%float /\
     exists net',
       listen_iteration "a:46657" c'
         (Network.NodeIsOnline "a:46657" (Network.NewNode "a:46657" Network.NewNetwork))
       = Some net' /\
       Network.status net' "a:46657" = Some true).
Proof.
  destruct (C6_listener_iteration "a:46657"
              (Network.NodeIsOnline "a:46657"
                 (Network.NewNode "a:46657" Network.NewNetwork)))
    as (_ & _ & _ & Hsilent & _ & Hfirst & _).
  - eexists. reflexivity.
  - split.
    + apply Hsilent. intros t c [Heq|[]].
      apply (f_equal fst) in Heq. cbn in Heq. rewrite liveness_timeout_value. lia.
    + apply (Hfirst _ 4999999999 (CaseBlockLatency 12%float)).
      * right. left. reflexivity.
      * right. eexists. reflexivity.
      * rewrite liveness_timeout_value. lia.
      * intros t' c' [Heq|[Heq|[]]].
        -- right. apply (f_equal fst) in Heq. cbn in Heq. lia.
        -- left. symmetry. exact Heq.
Defined.

(** *** The validator-refresh loop *)

Lemma query_node_at_found (r i : nat) (ls : list loc) (v : vars) (ln : loc) (w : world) :
  (i <= r)%nat -> ls !! (r - i)%nat = Some ln ->
  query_node_at r i ls v w =
  bind (on_node ln Node.NumValidators)
       (fun q => let '(height, num, err) := q in ret (mkVars height num err)) w.
Proof.
  revert i. induction ls as [|x ls IH]; intros i Hi Hl; [discriminate|].
  cbn [query_node_at]. destruct (Nat.eqb_spec i r) as [->|Hne].
  - rewrite Nat.sub_diag in Hl. inversion Hl; subst. reflexivity.
  - apply IH; [lia|]. replace (r - i)%nat with (S (r - S i)) in Hl by lia. exact Hl.
Qed.

(** One timer iteration on a tracked node: the variables take the result
    of the query, (0, 0, err) when it fails, and the validator count is
    overwritten exactly when the height of [Network] is at most the height
    in these variables; the height of [Network] is not touched. *)
Lemma updateNumValidator_timer_gate (rnd : nat) (v : vars) (w : world)
    (ln : loc) (node : Node.t) :
  Nodes (mon w) !! (rnd mod length (Nodes (mon w)))%nat = Some ln ->
  heap w !! ln = Some node ->
  let c := Node.rpcClient node in
  let v' := match Node.validatorsReply c (Node.calls c) with
            | Ok vals => mkVars (uint64 (BlockHeight vals))
                                (Z.of_nat (length (Validators vals))) None
            | Err e => mkVars 0 0 (Some e)
            end in
  exists w',
    updateNumValidator_iteration rnd WakeTimer v w = ([], Done (Some v', w')) /\
    Network.Height (Network (mon w')) = Network.Height (Network (mon w)) /\
    Network.NumValidators (Network (mon w'))
    = if Network.Height (Network (mon w)) <=? height v' then num v'
      else Network.NumValidators (Network (mon w)).
Proof.
  intros Hl Hn. cbv zeta. unfold updateNumValidator_iteration.
  rewrite bind_unfold, get_run. cbv beta iota.
  destruct (Nat.eqb_spec (length (Nodes (mon w))) 0) as [Hz|Hnz].
  { apply length_zero_iff_nil in Hz. rewrite Hz in Hl. discriminate. }
  rewrite bind_unfold, get_run. cbv beta iota.
  rewrite bind_unfold.
  rewrite (query_node_at_found _ 0 _ v ln w);
    [|lia|rewrite Nat.sub_0_r; exact Hl].
  rewrite bind_unfold, (on_node_eq ln Node.NumValidators w node Hn), NumValidators_eq.
  cbv zeta.
  destruct (Node.validatorsReply (Node.rpcClient node) (Node.calls (Node.rpcClient node)))
    as [vals|e]; cbv beta iota; rewrite ret_run; cbv beta iota;
    rewrite bind_unfold, get_run; cbv beta iota; rewrite bind_unfold;
    cbn [mon set_heap Network height num].
  - destruct (Network.Height (Network (mon w)) <=? uint64 (BlockHeight vals)).
    + rewrite update_run. cbv beta iota. rewrite ret_run.
      eexists. split; [reflexivity|]. split; reflexivity.
    + rewrite ret_run. cbv beta iota. rewrite ret_run.
      eexists. split; [reflexivity|]. split; reflexivity.
  - destruct (Network.Height (Network (mon w)) <=? 0).
    + rewrite update_run. cbv beta iota. rewrite ret_run.
      eexists. split; [reflexivity|]. split; reflexivity.
    + rewrite ret_run. cbv beta iota. rewrite ret_run.
      eexists. split; [reflexivity|]. split; reflexivity.
Qed.

(** C4 (the code at the failing input): a monitor tracks one node and has
    seen no block yet, so the height of [Network] is 0. The first iteration
    queries the node, which answers height 7 and two validators, and stores
    the count 2. In the second iteration the query fails: [NumValidators]
    returns (0, 0, err), the test [Network.Height <= height] is [0 <= 0], and
    the stored count is overwritten with 0. *)
Theorem C4_failed_query_overwrites_count :
  exists tr w0 w1 w2,
    Monitor 0%nat (init {[0%nat := Fixtures.nodeFlaky]}) = (tr, Done (None, w0)) /\
    updateNumValidator_iteration 0 WakeTimer (mkVars 0 0 None) w0
    = ([], Done (Some (mkVars 7 2 None), w1)) /\
    Network.Height (Network (mon w1)) = 0 /\
    Network.NumValidators (Network (mon w1)) = 2 /\
    updateNumValidator_iteration 0 WakeTimer (mkVars 7 2 None) w1
    = ([], Done (Some (mkVars 0 0 (Some "EOF"%string)), w2)) /\
    Network.Height (Network (mon w2)) = 0 /\
    Network.NumValidators (Network (mon w2)) = 0.
Proof.
  do 4 eexists.
  split; [vm_compute; reflexivity|].
  split; [vm_compute; reflexivity|].
  split; [reflexivity|]. split; [reflexivity|].
  split; [vm_compute; reflexivity|].
  split; reflexivity.
Qed.

End MonitorFacts.

(** * Further properties of the code *)

(** ** More on the error-correcting codes *)

Section KeysMore.
Import Go Keys.

Lemma byte_of_Z_of_byte (b : byte) : byte_of_Z (Z_of_byte b) = b.
Proof.
  unfold byte_of_Z, Z_of_byte, uint8. change (2 ^ 8) with 256.
  pose proof (Byte.to_N_bounded b) as Hb.
  rewrite Z.mod_small by lia. rewrite N2Z.id, Byte.of_to_N. reflexivity.
Qed.

Lemma Put_snoc (k : nat) (v : Z) :
  BigEndian.Put (S k) v = BigEndian.Put k (Z.shiftr v 8) ++ [byte_of_Z v].
Proof.
  induction k as [|k IH].
  - cbn. rewrite Z.shiftr_0_r. reflexivity.
  - change (BigEndian.Put (S (S k)) v)
      with (byte_of_Z (Z.shiftr v (8 * Z.of_nat (S k))) :: BigEndian.Put (S k) v).
    rewrite IH. cbn [BigEndian.Put app]. f_equal. f_equal.
    rewrite Z.shiftr_shiftr by lia. f_equal. lia.
Qed.

Lemma byte_of_Z_low (x : Z) (b : byte) : byte_of_Z (x * 256 + Z_of_byte b) = b.
Proof.
  rewrite <- (byte_of_Z_of_byte b) at 2.
  unfold byte_of_Z, uint8. change (2 ^ 8) with 256.
  pose proof (Z_of_byte_range b).
  replace ((x * 256 + Z_of_byte b) mod 256) with (Z_of_byte b mod 256); [reflexivity|].
  rewrite Z.add_comm, Z.mod_add by lia. reflexivity.
Qed.

(** The bytes of a big-endian integer are recovered from it, whatever the
    accumulator the decoding starts from. *)
Lemma Put_Uint_fold (bs : list byte) (acc : Z) :
  BigEndian.Put (length bs)
    (fold_left (fun a x => Z.lor (Z.shiftl a 8) (Z_of_byte x)) bs acc) = bs.
Proof.
  revert acc. induction bs as [|b bs IH] using rev_ind; intros acc; [reflexivity|].
  rewrite fold_left_app, length_app. cbn [fold_left length].
  replace (length bs + 1)%nat with (S (length bs)) by lia.
  rewrite Put_snoc.
  rewrite lor_shiftl_add by (pose proof (Z_of_byte_range b); change (2 ^ 8) with 256; lia).
  change (2 ^ 8) with 256. rewrite byte_of_Z_low. f_equal.
  rewrite Z.shiftr_div_pow2 by lia. change (2 ^ 8) with 256.
  rewrite Z.div_add_l by lia.
  rewrite Z.div_small by apply Z_of_byte_range. rewrite Z.add_0_r. apply IH.
Qed.

Lemma Put_Uint (bs : list byte) : BigEndian.Put (length bs) (BigEndian.Uint bs) = bs.
Proof. apply Put_Uint_fold. Qed.

Lemma CRC32_CheckECC_Ok (c c' : CRC32.t) (input data : list byte) :
  CRC32.CheckECC c input = (Ok data, c') ->
  data <> [] /\ fst (CRC32.AddECC c data) = input.
Proof.
  unfold CRC32.CheckECC, CRC32.AddECC.
  destruct (CRC32.getTable c) as [tab c1]. unfold crc32.Size.
  destruct (Nat.leb_spec (length input) 4) as [Hle|Hgt]; [discriminate|].
  unfold BigEndian.Uint32, BigEndian.PutUint32.
  destruct (Z.eqb_spec (BigEndian.Uint (drop (length input - 4) input))
              (crc32.Checksum (take (length input - 4) input) tab)) as [He|Hne];
    cbn [negb]; [|discriminate].
  intros H. inversion H; subst data c'. clear H. split.
  - intros Hnil. apply (f_equal length) in Hnil. rewrite length_take in Hnil.
    cbn in Hnil. lia.
  - cbn [fst]. rewrite <- He.
    replace 4%nat with (length (drop (length input - 4) input)) at 2
      by (rewrite length_drop; lia).
    rewrite Put_Uint. apply take_drop.
Qed.

Lemma CRC64_CheckECC_Ok (c c' : CRC64.t) (input data : list byte) :
  CRC64.CheckECC c input = (Ok data, c') ->
  data <> [] /\ fst (CRC64.AddECC c data) = input.
Proof.
  unfold CRC64.CheckECC, CRC64.AddECC.
  destruct (CRC64.getTable c) as [tab c1]. unfold crc64.Size.
  destruct (Nat.leb_spec (length input) 8) as [Hle|Hgt]; [discriminate|].
  unfold BigEndian.Uint64, BigEndian.PutUint64.
  destruct (Z.eqb_spec (BigEndian.Uint (drop (length input - 8) input))
              (crc64.Checksum (take (length input - 8) input) tab)) as [He|Hne];
    cbn [negb]; [|discriminate].
  intros H. inversion H; subst data c'. clear H. split.
  - intros Hnil. apply (f_equal length) in Hnil. rewrite length_take in Hnil.
    cbn in Hnil. lia.
  - cbn [fst]. rewrite <- He.
    replace 8%nat with (length (drop (length input - 8) input)) at 2
      by (rewrite length_drop; lia).
    rewrite Put_Uint. apply take_drop.
Qed.

(** X1: [CheckECC] of [CRC32] and of [CRC64] accepts only what [AddECC]
    produces: when it returns data with a nil error, the data is not empty
    and the input is exactly [AddECC] of that data, byte for byte. *)
Theorem X1_CheckECC_accepts_only_AddECC :
  (forall (c c' : CRC32.t) (input data : list byte),
     CheckECC c input = (Ok data, c') ->
     data <> [] /\ fst (AddECC c data) = input) /\
  (forall (c c' : CRC64.t) (input data : list byte),
     CheckECC c input = (Ok data, c') ->
     data <> [] /\ fst (AddECC c data) = input).
Proof.
  split; intros c c' input data H.
  - apply (CRC32_CheckECC_Ok c c'). exact H.
  - apply (CRC64_CheckECC_Ok c c'). exact H.
Qed.

(** The Castagnoli CRC32 of "abc" and the ISO CRC64 of "abc", checked. *)
Lemma X1_CheckECC_witness :
  fst (AddECC CRC32.NewCastagnoliCRC32 [x61; x62; x63])
  = [x61; x62; x63; x36; x4b; x3f; xb7] /\
  fst (AddECC CRC64.NewISOCRC64 [x61; x62; x63])
  = [x61; x62; x63; x37; x76; xc4; x20; x00; x00; x00; x00].
Proof.
  destruct X1_CheckECC_accepts_only_AddECC as [H32 H64]. split.
  - eapply (H32 CRC32.NewCastagnoliCRC32 _
              [x61; x62; x63; x36; x4b; x3f; xb7] [x61; x62; x63]).
    vm_compute. reflexivity.
  - eapply (H64 CRC64.NewISOCRC64 _
              [x61; x62; x63; x37; x76; xc4; x20; x00; x00; x00; x00] [x61; x62; x63]).
    vm_compute. reflexivity.
Defined.

Lemma CRC32_CheckECC_mismatch (c : CRC32.t) (data check : list byte) :
  data <> [] -> length check = 4%nat ->
  data ++ check <> fst (CRC32.AddECC c data) ->
  fst (CRC32.CheckECC c (data ++ check)) = Err "Checksum does not match"%string.
Proof.
  intros Hd Hl Hne. unfold CRC32.CheckECC, CRC32.AddECC in *.
  destruct (CRC32.getTable c) as [tab c1]. unfold crc32.Size. cbn [fst] in Hne.
  rewrite length_app, Hl.
  destruct (Nat.leb_spec (length data + 4) 4) as [Hle|Hgt].
  { destruct data; [congruence|cbn in Hle; lia]. }
  replace (length data + 4 - 4)%nat with (length data) by lia.
  rewrite take_app_length, drop_app_length.
  unfold BigEndian.Uint32, BigEndian.PutUint32 in *.
  destruct (Z.eqb_spec (BigEndian.Uint check) (crc32.Checksum data tab)) as [He|Hn];
    [|reflexivity].
  exfalso. apply Hne. rewrite <- He, <- Hl, Put_Uint. reflexivity.
Qed.

Lemma CRC64_CheckECC_mismatch (c : CRC64.t) (data check : list byte) :
  data <> [] -> length check = 8%nat ->
  data ++ check <> fst (CRC64.AddECC c data) ->
  fst (CRC64.CheckECC c (data ++ check)) = Err "Checksum does not match"%string.
Proof.
  intros Hd Hl Hne. unfold CRC64.CheckECC, CRC64.AddECC in *.
  destruct (CRC64.getTable c) as [tab c1]. unfold crc64.Size. cbn [fst] in Hne.
  rewrite length_app, Hl.
  destruct (Nat.leb_spec (length data + 8) 8) as [Hle|Hgt].
  { destruct data; [congruence|cbn in Hle; lia]. }
  replace (length data + 8 - 8)%nat with (length data) by lia.
  rewrite take_app_length, drop_app_length.
  unfold BigEndian.Uint64, BigEndian.PutUint64 in *.
  destruct (Z.eqb_spec (BigEndian.Uint check) (crc64.Checksum data tab)) as [He|Hn];
    [|reflexivity].
  exfalso. apply Hne. rewrite <- He, <- Hl, Put_Uint. reflexivity.
Qed.

(** X2: a protected message whose trailing checksum bytes have been
    replaced by any other bytes of the same number is rejected by [CheckECC]
    with "Checksum does not match" (4 bytes for [CRC32], 8 for [CRC64]); and
    every input of at most that many bytes is rejected with "input too short,
    no checksum present". *)
Theorem X2_CheckECC_rejections :
  (forall (c : CRC32.t) (data check : list byte),
     data <> [] -> length check = 4%nat ->
     data ++ check <> fst (AddECC c data) ->
     fst (CheckECC c (data ++ check)) = Err "Checksum does not match"%string) /\
  (forall (c : CRC64.t) (data check : list byte),
     data <> [] -> length check = 8%nat ->
     data ++ check <> fst (AddECC c data) ->
     fst (CheckECC c (data ++ check)) = Err "Checksum does not match"%string) /\
  (forall (c : CRC32.t) (input : list byte),
     (length input <= 4)%nat ->
     fst (CheckECC c input) = Err "input too short, no checksum present"%string) /\
  (forall (c : CRC64.t) (input : list byte),
     (length input <= 8)%nat ->
     fst (CheckECC c input) = Err "input too short, no checksum present"%string).
Proof.
  split; [exact CRC32_CheckECC_mismatch|]. split; [exact CRC64_CheckECC_mismatch|].
  split; intros c input Hl; cbn [CheckECC CRC32_ECC CRC64_ECC].
  - unfold CRC32.CheckECC. destruct (CRC32.getTable c) as [tab c1].
    unfold crc32.Size. destruct (Nat.leb_spec (length input) 4); [reflexivity|lia].
  - unfold CRC64.CheckECC. destruct (CRC64.getTable c) as [tab c1].
    unfold crc64.Size. destruct (Nat.leb_spec (length input) 8); [reflexivity|lia].
Qed.

(** "abc" with its Castagnoli checksum, last byte changed; "abc" with eight
    zero bytes in place of the ISO checksum; and two inputs that are all
    checksum. *)
Lemma X2_CheckECC_rejections_witness :
  fst (CheckECC CRC32.NewCastagnoliCRC32 ([x61; x62; x63] ++ [x36; x4b; x3f; xb6]))
  = Err "Checksum does not match"%string /\
  fst (CheckECC CRC64.NewISOCRC64
         ([x61; x62; x63] ++ [x00; x00; x00; x00; x00; x00; x00; x00]))
  = Err "Checksum does not match"%string /\
  fst (CheckECC CRC32.NewIEEECRC32 [x36; x4b; x3f; xb7])
  = Err "input too short, no checksum present"%string /\
  fst (CheckECC CRC64.NewECMACRC64 [x36; x4b; x3f; xb7])
  = Err "input too short, no checksum present"%string.
Proof.
  destruct X2_CheckECC_rejections as (H32 & H64 & S32 & S64).
  split; [|split; [|split]].
  - apply H32; [discriminate|reflexivity|vm_compute; discriminate].
  - apply H64; [discriminate|reflexivity|vm_compute; discriminate].
  - apply S32. cbn. lia.
  - apply S64. cbn. lia.
Defined.

(** The polynomial is read once. *)
Lemma CRC32_table_cached (c : CRC32.t) (b : list byte) :
  let c1 := snd (CRC32.AddECC c b) in
  CRC32.table c1 <> None /\
  (CRC32.table c = None ->
   CRC32.Poly c1 = (if CRC32.Poly c =? 0 then crc32.IEEE else CRC32.Poly c) /\
   CRC32.table c1 = Some (crc32.MakeTable (CRC32.Poly c1))) /\
  forall (p : Z) (b' : list byte),
    fst (CRC32.AddECC (CRC32.mk p (CRC32.table c1)) b') = fst (CRC32.AddECC c1 b') /\
    fst (CRC32.CheckECC (CRC32.mk p (CRC32.table c1)) b') = fst (CRC32.CheckECC c1 b') /\
    snd (CRC32.AddECC c1 b') = c1 /\ snd (CRC32.CheckECC c1 b') = c1.
Proof.
  cbv zeta. unfold CRC32.AddECC, CRC32.CheckECC, CRC32.getTable.
  destruct c as [poly [tab|]]; cbn [CRC32.table CRC32.Poly fst snd].
  - split; [discriminate|]. split; [discriminate|]. intros p b'.
    cbn [CRC32.table CRC32.Poly fst snd].
    split; [reflexivity|].
    split; [|split; [reflexivity|]];
      (destruct (length b' <=? crc32.Size)%nat; [reflexivity|]);
      destruct (negb _); reflexivity.
  - split; [discriminate|]. split; [intros _; split; reflexivity|]. intros p b'.
    cbn [CRC32.table CRC32.Poly fst snd].
    split; [reflexivity|].
    split; [|split; [reflexivity|]];
      (destruct (length b' <=? crc32.Size)%nat; [reflexivity|]);
      destruct (negb _); reflexivity.
Qed.

Lemma CRC64_table_cached (c : CRC64.t) (b : list byte) :
  let c1 := snd (CRC64.AddECC c b) in
  CRC64.table c1 <> None /\
  (CRC64.table c = None ->
   CRC64.Poly c1 = (if CRC64.Poly c =? 0 then crc64.ISO else CRC64.Poly c) /\
   CRC64.table c1 = Some (crc64.MakeTable (CRC64.Poly c1))) /\
  forall (p : Z) (b' : list byte),
    fst (CRC64.AddECC (CRC64.mk p (CRC64.table c1)) b') = fst (CRC64.AddECC c1 b') /\
    fst (CRC64.CheckECC (CRC64.mk p (CRC64.table c1)) b') = fst (CRC64.CheckECC c1 b') /\
    snd (CRC64.AddECC c1 b') = c1 /\ snd (CRC64.CheckECC c1 b') = c1.
Proof.
  cbv zeta. unfold CRC64.AddECC, CRC64.CheckECC, CRC64.getTable.
  destruct c as [poly [tab|]]; cbn [CRC64.table CRC64.Poly fst snd].
  - split; [discriminate|]. split; [discriminate|]. intros p b'.
    cbn [CRC64.table CRC64.Poly fst snd].
    split; [reflexivity|].
    split; [|split; [reflexivity|]];
      (destruct (length b' <=? crc64.Size)%nat; [reflexivity|]);
      destruct (negb _); reflexivity.
  - split; [discriminate|]. split; [intros _; split; reflexivity|]. intros p b'.
    cbn [CRC64.table CRC64.Poly fst snd].
    split; [reflexivity|].
    split; [|split; [reflexivity|]];
      (destruct (length b' <=? crc64.Size)%nat; [reflexivity|]);
      destruct (negb _); reflexivity.
Qed.

(** X3: the polynomial of a [CRC32] or [CRC64] is read by the first call
    only. After one [AddECC] the table is cached; a receiver that had none
    holds the table of its polynomial, the zero polynomial replaced by IEEE
    (ISO for [CRC64]); from then on [AddECC] and [CheckECC] leave the
    receiver as it is, and assigning any other value to [Poly] changes
    nothing in what they return. *)
Theorem X3_polynomial_read_once :
  (forall (c : CRC32.t) (b : list byte),
     let c1 := snd (AddECC c b) in
     CRC32.table c1 <> None /\
     (CRC32.table c = None ->
      CRC32.Poly c1 = (if CRC32.Poly c =? 0 then crc32.IEEE else CRC32.Poly c) /\
      CRC32.table c1 = Some (crc32.MakeTable (CRC32.Poly c1))) /\
     forall (p : Z) (b' : list byte),
       fst (AddECC (CRC32.mk p (CRC32.table c1)) b') = fst (AddECC c1 b') /\
       fst (CheckECC (CRC32.mk p (CRC32.table c1)) b') = fst (CheckECC c1 b') /\
       snd (AddECC c1 b') = c1 /\ snd (CheckECC c1 b') = c1) /\
  (forall (c : CRC64.t) (b : list byte),
     let c1 := snd (AddECC c b) in
     CRC64.table c1 <> None /\
     (CRC64.table c = None ->
      CRC64.Poly c1 = (if CRC64.Poly c =? 0 then crc64.ISO else CRC64.Poly c) /\
      CRC64.table c1 = Some (crc64.MakeTable (CRC64.Poly c1))) /\
     forall (p : Z) (b' : list byte),
       fst (AddECC (CRC64.mk p (CRC64.table c1)) b') = fst (AddECC c1 b') /\
       fst (CheckECC (CRC64.mk p (CRC64.table c1)) b') = fst (CheckECC c1 b') /\
       snd (AddECC c1 b') = c1 /\ snd (CheckECC c1 b') = c1).
Proof.
  split; [exact CRC32_table_cached|exact CRC64_table_cached].
Qed.

Lemma X3_polynomial_witness :
  CRC32.Poly (snd (AddECC (CRC32.mk 0 None) [x61])) = crc32.IEEE /\
  CRC64.Poly (snd (AddECC (CRC64.mk 0 None) [x61])) = crc64.ISO.
Proof.
  destruct X3_polynomial_read_once as [H32 H64]. split.
  - destruct (H32 (CRC32.mk 0 None) [x61]) as (_ & H & _).
    destruct H as [H _]; [reflexivity|exact H].
  - destruct (H64 (CRC64.mk 0 None) [x61]) as (_ & H & _).
    destruct H as [H _]; [reflexivity|exact H].
Defined.

End KeysMore.

(** ** More on [node.go] *)

Section NodeMore.
Import Go Tm Node.

(** *** What a function of the file leaves alone *)

Section Frame.
Context (R : relation Node.t) `{!PreOrder R}.
Hypothesis Hem : forall x n, R n (set_em x n).
Hypothesis Hrpc : forall x n, R n (set_rpcClient x n).
Hypothesis HIsV : forall n, R n (set_IsValidator true n).
Hypothesis HOnline : forall x n, R n (set_Online x n).
Hypothesis HpubKey : forall x n, R n (set_pubKey x n).
Hypothesis HHeight : forall x n, R n (set_Height x n).
Hypothesis HBlockLatency : forall x n, R n (set_BlockLatency x n).
Hypothesis HblockCh : forall x n, R n (set_blockCh x n).
Hypothesis HblockLatencyCh : forall x n, R n (set_blockLatencyCh x n).
Hypothesis HdisconnectCh : forall x n, R n (set_disconnectCh x n).
Hypothesis Hinterval : forall x n, R n (set_checkIsValidatorInterval x n).
Hypothesis Hquit : forall x n, R n (set_quit x n).
Hypothesis Hgp : respects R getPubKey.

Lemma fr_ret {A} (a : A) : respects R (ret a).
Proof. intros n tr a' n' H. inversion H; subst. reflexivity. Qed.

Lemma fr_get : respects R get.
Proof. intros n tr a' n' H. inversion H; subst. reflexivity. Qed.

Lemma fr_emit (e : effect) : respects R (emit e).
Proof. intros n tr a' n' H. inversion H; subst. reflexivity. Qed.

Lemma fr_panic {A} (msg : string) : respects R (panic (A := A) msg).
Proof. intros n tr a' n' H. inversion H. Qed.

Lemma fr_out_of_fuel {A} : respects R (out_of_fuel (A := A)).
Proof. intros n tr a' n' H. inversion H. Qed.

Lemma fr_modify (f : Node.t -> Node.t) :
  (forall n, R n (f n)) -> respects R (modify f).
Proof. intros Hf n tr a' n' H. inversion H; subst. apply Hf. Qed.

Lemma fr_bind {A B} (m : Node.M A) (k : A -> Node.M B) :
  respects R m -> (forall a, respects R (k a)) -> respects R (bind m k).
Proof.
  intros Hm Hk n tr b n' H. unfold bind in H.
  destruct (m n) as [tr1 [[a n1]| |]] eqn:E; try discriminate.
  destruct (k a n1) as [tr2 r] eqn:E2. inversion H; subst.
  transitivity n1; [eapply Hm; eassumption|eapply Hk; eassumption].
Qed.

Lemma fr_for_range {A} (l : list A) (body : A -> Node.M unit) :
  (forall x, respects R (body x)) -> respects R (for_range l body).
Proof.
  intros Hb. induction l as [|x l IH]; simpl.
  - apply fr_ret.
  - apply fr_bind; [apply Hb|intros _; exact IH].
Qed.

Ltac fr_step :=
  first
    [ apply fr_ret | apply fr_get | apply fr_emit | apply fr_panic
    | apply fr_out_of_fuel
    | apply fr_modify;
      first [ apply HIsV | apply HpubKey | apply HOnline | apply HHeight
            | apply HBlockLatency | apply Hem | apply Hrpc | apply HblockCh
            | apply HblockLatencyCh | apply HdisconnectCh | apply Hinterval
            | apply Hquit ]
    | apply fr_for_range; intros ?
    | apply fr_bind; [|intros ?]
    | match goal with
      | |- respects _ (match ?x with _ => _ end) => destruct x
      | |- respects _ (if ?b then _ else _) => destruct b
      end ].

Ltac fr := repeat fr_step.

Lemma fr_em_Start : respects R em_Start.
Proof. unfold em_Start. fr. Qed.

Lemma fr_validators : respects R validators.
Proof. unfold validators, rpc_Call_validators. fr. Qed.

Lemma fr_NumValidators : respects R NumValidators.
Proof.
  unfold NumValidators. apply fr_bind; [apply fr_validators|intros [[h vals] err]]. fr.
Qed.

Lemma fr_getPubKey : respects R getPubKey.
Proof. unfold getPubKey, rpc_Call_status. fr. Qed.

Lemma fr_checkIsValidator : respects R checkIsValidator.
Proof.
  unfold checkIsValidator. apply fr_bind; [apply fr_validators|].
  intros [[h vals] [err|]]; [apply fr_ret|].
  apply fr_for_range. intros v. apply fr_bind; [exact Hgp|intros [key err]]. fr.
Qed.

Lemma fr_checkIsValidatorLoop (ticks : nat) : respects R (checkIsValidatorLoop ticks).
Proof.
  induction ticks as [|k IH]; simpl; [apply fr_ret|].
  apply fr_bind; [apply fr_checkIsValidator|intros _; exact IH].
Qed.

Lemma fr_backoff_loop (fuel attempt : nat) : respects R (backoff_loop fuel attempt).
Proof.
  revert attempt. induction fuel as [|fuel IH]; intros attempt; simpl;
    [apply fr_out_of_fuel|].
  apply fr_bind; [apply fr_emit|intros _].
  apply fr_bind; [apply fr_em_Start|intros [err|]]; [|apply fr_ret].
  destruct (maxRestarts <? S attempt)%nat; [apply fr_ret|apply IH].
Qed.

Lemma fr_Start : respects R Start.
Proof.
  unfold Start. apply fr_bind; [apply fr_em_Start|intros [err|]]; [apply fr_ret|].
  unfold em_RegisterLatencyCallback, em_Subscribe, em_RegisterDisconnectCallback.
  apply fr_bind; [fr|intros _]. apply fr_bind; [fr|intros [err|]]; [apply fr_ret|].
  apply fr_bind; [fr|intros _]. apply fr_bind; [fr|intros _].
  apply fr_bind; [apply fr_checkIsValidator|intros _]. fr.
Qed.

Lemma fr_Stop : respects R Stop.
Proof. unfold Stop, em_Stop. fr. Qed.

Lemma fr_disconnectCallback : respects R disconnectCallback.
Proof.
  unfold disconnectCallback.
  apply fr_bind; [fr|intros _]. apply fr_bind; [fr|intros ?].
  apply fr_bind; [fr|intros _].
  apply fr_bind; [apply fr_backoff_loop|intros [err|]]; fr.
Qed.

Lemma fr_exec_but_Stop (o : op) : o <> OpStop -> respects R (exec o).
Proof.
  intros Ho. destruct o; cbn [exec]; try congruence.
  - unfold SendBlocksTo. fr.
  - unfold SendBlockLatenciesTo. fr.
  - unfold NotifyAboutDisconnects. fr.
  - unfold SetCheckIsValidatorInterval. fr.
  - apply fr_bind; [apply fr_Start|intros _; apply fr_ret].
  - unfold newBlockCallback. fr.
  - unfold latencyCallback. fr.
  - apply fr_disconnectCallback.
  - apply fr_bind; [apply fr_backoff_loop|intros _; apply fr_ret].
  - apply fr_bind; [apply fr_NumValidators|intros _; apply fr_ret].
  - apply fr_bind; [apply fr_validators|intros _; apply fr_ret].
  - apply fr_checkIsValidator.
  - apply fr_checkIsValidatorLoop.
  - apply fr_bind; [exact Hgp|intros _; apply fr_ret].
Qed.

End Frame.

#[local] Instance keeps_preorder {X} (proj : Node.t -> X) : PreOrder (keeps proj).
Proof.
  split; [intros n; reflexivity|intros a b c Hab Hbc; unfold keeps in *; congruence].
Qed.

#[local] Instance key_latched_preorder : PreOrder key_latched.
Proof.
  split; [intros n k H; exact H|intros a b c Hab Hbc k H; apply Hbc, Hab, H].
Qed.

(** *** Starting a node *)

Lemma getPubKey_returns (n : Node.t) :
  exists r n', getPubKey n = ([], Done (r, n')).
Proof.
  unfold getPubKey, rpc_Call_status, bind, get, modify, ret.
  destruct (negb (Empty (pubKey n))); [do 2 eexists; reflexivity|].
  cbn. destruct (statusReply (rpcClient n) (calls (rpcClient n)));
    do 2 eexists; reflexivity.
Qed.

Lemma check_loop_returns (vals : list Validator) (n : Node.t) :
  exists n',
    for_range vals (fun v =>
      r <- getPubKey ;;
      let '(key, err) := r in
      if (if err is None then true else false) && bool_decide (ValPubKey v = key)
      then modify (set_IsValidator true)
      else ret tt) n = ([], Done (tt, n')).
Proof.
  revert n. induction vals as [|v vals IH]; intros n; [eexists; reflexivity|].
  cbn [for_range]. rewrite bind_unfold. rewrite bind_unfold.
  destruct (getPubKey_returns n) as ([key err] & n1 & ->). cbv beta iota.
  destruct ((if err is None then true else false) && bool_decide (ValPubKey v = key)).
  - cbn [modify app]. destruct (IH (set_IsValidator true n1)) as [n' ->].
    eexists. reflexivity.
  - cbn [ret app]. destruct (IH n1) as [n' ->]. eexists. reflexivity.
Qed.

Lemma checkIsValidator_returns (n : Node.t) :
  exists n', checkIsValidator n = ([], Done (tt, n')).
Proof.
  unfold checkIsValidator. rewrite bind_unfold, validators_eq. cbv zeta.
  destruct (validatorsReply (rpcClient n) (calls (rpcClient n))) as [vals|e];
    cbv beta iota.
  - match goal with |- context [for_range _ _ ?n1] =>
      destruct (check_loop_returns (Validators vals) n1) as [n' ->] end.
    eexists. reflexivity.
  - eexists. reflexivity.
Qed.

Lemma checkIsValidator_frame (n n' : Node.t) tr :
  checkIsValidator n = (tr, Done (tt, n')) ->
  rpcAddr n' = rpcAddr n /\ Name n' = Name n /\ Online n' = Online n /\
  Height n' = Height n /\ BlockLatency n' = BlockLatency n /\ em n' = em n /\
  blockCh n' = blockCh n /\ blockLatencyCh n' = blockLatencyCh n /\
  disconnectCh n' = disconnectCh n /\
  checkIsValidatorInterval n' = checkIsValidatorInterval n /\ quit n' = quit n.
Proof.
  intros H.
  apply (@fr_checkIsValidator (keeps untouched_by_check) _
           (fun _ _ => eq_refl) (fun _ => eq_refl)
           (@fr_getPubKey (keeps untouched_by_check) _
              (fun _ _ => eq_refl) (fun _ _ => eq_refl))) in H.
  unfold keeps, untouched_by_check in H.
  repeat split.
  - exact (f_equal (fun t => t.1.1.1.1.1.1.1.1.1.1) H).
  - exact (f_equal (fun t => t.1.1.1.1.1.1.1.1.1.2) H).
  - exact (f_equal (fun t => t.1.1.1.1.1.1.1.1.2) H).
  - exact (f_equal (fun t => t.1.1.1.1.1.1.1.2) H).
  - exact (f_equal (fun t => t.1.1.1.1.1.1.2) H).
  - exact (f_equal (fun t => t.1.1.1.1.1.2) H).
  - exact (f_equal (fun t => t.1.1.1.1.2) H).
  - exact (f_equal (fun t => t.1.1.1.2) H).
  - exact (f_equal (fun t => t.1.1.2) H).
  - exact (f_equal (fun t => t.1.2) H).
  - exact (f_equal (fun t => t.2) H).
Qed.

Lemma em_Subscribe_eq (eventID : string) (n : Node.t) :
  em_Subscribe eventID n =
  let e := em n in
  match subscribeResult e with
  | Some err => ([], Done (Some err, n))
  | None =>
      ([], Done (None,
                 set_em (mkEventMeter (startResults e) (startCalls e) (subscribeResult e)
                           (running e) (latencyCallbackSet e) (disconnectCallbackSet e)
                           (eventID :: subscriptions e)) n))
  end.
Proof.
  unfold em_Subscribe, bind, get, modify, ret. cbn.
  destruct (subscribeResult (em n)); reflexivity.
Qed.

(** The three ways [Start] ends. *)
Lemma Start_cases (n : Node.t) :
  let e := em n in
  match startResults e (startCalls e), subscribeResult e with
  | Some err, _ =>
      Start n = ([], Done (Some err, set_em (em_after e 1 (running e)) n))
  | None, Some err =>
      Start n =
      ([], Done (Some err,
                 set_em (mkEventMeter (startResults e) (S (startCalls e)) (Some err)
                           true true (disconnectCallbackSet e) (subscriptions e)) n))
  | None, None =>
      exists n',
        Start n = ([Spawn (Tm.checkIsValidatorLoop (Name n))], Done (None, n')) /\
        Online n' = true /\
        em n' = mkEventMeter (startResults e) (S (startCalls e)) None true true true
                  (EventStringNewBlockHeader :: subscriptions e) /\
        checkIsValidator
          (set_Online true
             (set_em (mkEventMeter (startResults e) (S (startCalls e)) None true true true
                        (EventStringNewBlockHeader :: subscriptions e)) n))
        = ([], Done (tt, n')) /\
        (Name n', Height n', BlockLatency n', quit n') 
        = (Name n, Height n, BlockLatency n, quit n) /\
        (blockCh n', blockLatencyCh n', disconnectCh n')
        = (blockCh n, blockLatencyCh n, disconnectCh n)
  end.
Proof.
  cbv zeta. unfold Start. rewrite bind_unfold, em_Start_eq. cbv zeta.
  destruct (startResults (em n) (startCalls (em n))) as [err|] eqn:E; cbv beta iota.
  - unfold em_after. rewrite Nat.add_1_r. reflexivity.
  - unfold em_RegisterLatencyCallback, em_RegisterDisconnectCallback.
    rewrite bind_unfold. rewrite bind_unfold, get_run. cbv beta iota.
    cbn [modify app]. rewrite bind_unfold, em_Subscribe_eq. cbv zeta.
    cbn [em set_em subscribeResult startResults startCalls running latencyCallbackSet
         disconnectCallbackSet subscriptions].
    destruct (subscribeResult (em n)) as [err|] eqn:ES; cbv beta iota.
    + rewrite ret_run. reflexivity.
    + rewrite bind_unfold. rewrite bind_unfold, get_run. cbv beta iota.
      cbn [modify app]. rewrite bind_unfold. cbn [modify].
      rewrite bind_unfold.
      match goal with |- context [checkIsValidator ?n3] =>
        destruct (checkIsValidator_returns n3) as [n' Hc];
        pose proof (checkIsValidator_frame _ _ _ Hc) as Hf;
        pose proof Hc as Hcalls;
        rewrite Hc end.
      cbv beta iota. rewrite bind_unfold, get_run. cbv beta iota.
      rewrite bind_unfold, emit_run. cbv beta iota. rewrite ret_run.
      destruct Hf as (H1 & H2 & H3 & H4 & H5 & H6 & H7 & H8 & H9 & H10 & H11).
      exists n'. cbn [app]. rewrite H2, H3, H4, H5, H6, H7, H8, H9, H11.
      split; [reflexivity|]. split; [reflexivity|]. split; [reflexivity|].
      split; [exact Hcalls|]. split; reflexivity.
Qed.

(** X4: the three ways [Start] ends. If the event meter does not start,
    [Start] returns that error and only the meter's call count has moved. If
    the subscription to the new-block event fails, [Start] returns that error
    with the event meter left running and the latency callback registered,
    and the node is not marked online. Otherwise [Start] returns nil: the
    node is online, both callbacks and the subscription are in place, one
    membership check has been made, the recheck loop is the only goroutine
    started, and name, height, latency, channels and quit are as before. *)
Theorem X4_Start_outcomes (n : Node.t) :
  let e := em n in
  match startResults e (startCalls e), subscribeResult e with
  | Some err, _ =>
      Start n = ([], Done (Some err, set_em (em_after e 1 (running e)) n))
  | None, Some err =>
      Start n =
      ([], Done (Some err,
                 set_em (mkEventMeter (startResults e) (S (startCalls e)) (Some err)
                           true true (disconnectCallbackSet e) (subscriptions e)) n))
  | None, None =>
      exists n',
        Start n = ([Spawn (Tm.checkIsValidatorLoop (Name n))], Done (None, n')) /\
        Online n' = true /\
        em n' = mkEventMeter (startResults e) (S (startCalls e)) None true true true
                  (EventStringNewBlockHeader :: subscriptions e) /\
        checkIsValidator
          (set_Online true
             (set_em (mkEventMeter (startResults e) (S (startCalls e)) None true true true
                        (EventStringNewBlockHeader :: subscriptions e)) n))
        = ([], Done (tt, n')) /\
        (Name n', Height n', BlockLatency n', quit n') 
        = (Name n, Height n, BlockLatency n, quit n) /\
        (blockCh n', blockLatencyCh n', disconnectCh n')
        = (blockCh n, blockLatencyCh n, disconnectCh n)
  end.
Proof. exact (Start_cases n). Qed.

(** *** The membership check *)

Lemma check_loop_exact (k : list byte) (vals : list Validator) (n : Node.t) :
  own_key n k ->
  exists n',
    for_range vals (fun v =>
      r <- getPubKey ;;
      let '(key, err) := r in
      if (if err is None then true else false) && bool_decide (ValPubKey v = key)
      then modify (set_IsValidator true)
      else ret tt) n = ([], Done (tt, n')) /\
    IsValidator n'
    = IsValidator n || existsb (fun v => bool_decide (ValPubKey v = Some k)) vals.
Proof.
  revert n. induction vals as [|v vals IH]; intros n Hown.
  - exists n. split; [reflexivity|]. cbn. rewrite orb_false_r. reflexivity.
  - destruct (getPubKey_own_key n k Hown) as (n2 & Hg & Hk2 & Hv2).
    cbn [for_range existsb]. rewrite bind_unfold. rewrite bind_unfold, Hg.
    cbv beta iota. cbn [andb].
    destruct (bool_decide (ValPubKey v = Some k)).
    + cbn [modify app].
      destruct (IH (set_IsValidator true n2)) as (n' & Hr & Hflag).
      { left. exact Hk2. }
      rewrite Hr. exists n'. split; [reflexivity|].
      rewrite Hflag. cbn. rewrite !orb_true_r. reflexivity.
    + cbn [ret app]. destruct (IH n2) as (n' & Hr & Hflag).
      { left. exact Hk2. }
      rewrite Hr. exists n'. split; [reflexivity|].
      rewrite Hflag, Hv2. cbn. reflexivity.
Qed.

(** X5: what [checkIsValidator] does to the flag. When the "validators"
    query fails, nothing but the call count of the RPC client changes. When
    it succeeds, for a node whose own key is [k], the flag afterwards is the
    flag before or-ed with "some listed validator has key [k]": a node that
    is not listed is not promoted. *)
Theorem X5_checkIsValidator_exact (n : Node.t) :
  let c := rpcClient n in
  match validatorsReply c (calls c) with
  | Err _ =>
      checkIsValidator n
      = ([], Done (tt, set_rpcClient
                         (mkHTTPClient (validatorsReply c) (statusReply c) (S (calls c))) n))
  | Ok vals =>
      forall k, own_key n k ->
      exists n',
        checkIsValidator n = ([], Done (tt, n')) /\
        IsValidator n'
        = IsValidator n ||
          existsb (fun v => bool_decide (ValPubKey v = Some k)) (Validators vals)
  end.
Proof.
  cbv zeta. unfold checkIsValidator. rewrite bind_unfold, validators_eq. cbv zeta.
  destruct (validatorsReply (rpcClient n) (calls (rpcClient n))) as [vals|e];
    cbv beta iota; [|reflexivity].
  intros k Hown.
  match goal with |- context [for_range _ _ ?n1] =>
    destruct (check_loop_exact k (Validators vals) n1) as (n' & Hr & Hflag) end.
  { destruct Hown as [Hk|[Hk Hs]]; [left; exact Hk|right; split; [exact Hk|exact Hs]]. }
  rewrite Hr. exists n'. split; [reflexivity|exact Hflag].
Qed.

(** A node with key [key1] whose answers list [key2] only. *)
Lemma X5_checkIsValidator_witness :
  exists n',
    checkIsValidator Fixtures.nodeFormer = ([], Done (tt, n')) /\
    IsValidator n' = false || false.
Proof.
  pose proof (X5_checkIsValidator_exact Fixtures.nodeFormer) as H.
  cbv zeta in H. cbn [validatorsReply rpcClient Fixtures.nodeFormer] in H.
  apply (H [x01; x02; x03]).
  right. split; [reflexivity|]. intros i. reflexivity.
Defined.
(** *** The cached key *)

Lemma getPubKey_key_latched : respects key_latched getPubKey.
Proof.
  intros n tr r n' H k Hk. unfold getPubKey in H.
  rewrite bind_unfold, get_run in H. cbv beta iota in H. rewrite Hk in H.
  cbn in H. inversion H; subst. exact Hk.
Qed.

Lemma OpStop_or_not (o : op) : o = OpStop \/ o <> OpStop.
Proof. destruct o; first [left; reflexivity|right; discriminate]. Qed.

Lemma exec_key_latched (o : op) : respects key_latched (exec o).
Proof.
  destruct (OpStop_or_not o) as [->|Ho].
  - cbn [exec].
    apply (@fr_Stop key_latched _); intros x n k Hk; exact Hk.
  - apply (@fr_exec_but_Stop key_latched _); try (intros x n k Hk; exact Hk);
      try exact Ho; try exact getPubKey_key_latched.
    intros n k Hk. exact Hk.
Qed.

(** X6: the public key is fetched once. With a key cached, [getPubKey]
    returns it without any call and leaves the node as it is; a call that
    returns a nil error returns the key then cached, and one that returns an
    error returns the empty key and leaves the cache alone; and over every run
    of operations on the node a cached key is never replaced. *)
Theorem X6_public_key_fetched_once :
  (forall (n : Node.t) (k : list byte),
     pubKey n = Some k -> getPubKey n = ([], Done ((Some k, None), n))) /\
  (forall (n : Node.t) (r : PubKey * option error) tr n',
     getPubKey n = (tr, Done (r, n')) ->
     tr = [] /\ (snd r = None -> fst r = pubKey n') /\
     (snd r <> None -> fst r = None /\ pubKey n' = pubKey n)) /\
  (forall (ops : list op) (n : Node.t) (k : list byte) tr n',
     pubKey n = Some k ->
     for_range ops exec n = (tr, Done (tt, n')) ->
     pubKey n' = Some k).
Proof.
  split; [|split].
  - intros n k Hk. unfold getPubKey. rewrite bind_unfold, get_run. cbv beta iota.
    rewrite Hk. reflexivity.
  - intros n r tr n' H. unfold getPubKey, rpc_Call_status in H.
    rewrite bind_unfold, get_run in H. cbv beta iota in H.
    destruct (negb (Empty (pubKey n))).
    + rewrite ret_run in H. inversion H; subst. cbn.
      split; [reflexivity|]. split; [reflexivity|congruence].
    + cbn in H.
      destruct (statusReply (rpcClient n) (calls (rpcClient n))) as [st|e];
        cbn in H; inversion H; subst; cbn.
      * split; [reflexivity|]. split; [reflexivity|congruence].
      * split; [reflexivity|]. split; [discriminate|]. intros _. split; reflexivity.
  - intros ops n k tr n' Hk Hrun.
    exact (@fr_for_range key_latched _ op ops exec exec_key_latched n tr tt n' Hrun k Hk).
Qed.

(** A node with [key1] cached whose "status" would answer [key2]. *)
Lemma X6_public_key_witness :
  getPubKey (set_pubKey Fixtures.key1 Fixtures.nodeB)
  = ([], Done ((Fixtures.key1, None), set_pubKey Fixtures.key1 Fixtures.nodeB)) /\
  (exists tr n',
     for_range [OpGetPubKey; OpCheckIsValidator; OpStart; OpStop] exec
       (set_pubKey Fixtures.key1 Fixtures.nodeB) = (tr, Done (tt, n')) /\
     pubKey n' = Fixtures.key1).
Proof.
  destruct X6_public_key_fetched_once as (Hc & _ & Hl). split.
  - apply Hc. reflexivity.
  - eexists. eexists. split; [vm_compute; reflexivity|].
    eapply (Hl [OpGetPubKey; OpCheckIsValidator; OpStart; OpStop]
              (set_pubKey Fixtures.key1 Fixtures.nodeB));
      [reflexivity|vm_compute; reflexivity].
Defined.

(** *** Stopping *)

Lemma Stop_eq (n : Node.t) :
  Stop n =
  match quit n with
  | Open =>
      ([], Done (tt, set_quit Closed
                       (set_em (em_after (em n) 0 false) (set_Online false n))))
  | Closed => ([], Panic "close of closed channel"%string)
  end.
Proof.
  unfold Stop, em_Stop, em_after, bind, get, modify, ret, panic. cbn.
  rewrite Nat.add_0_r. destruct (quit n); reflexivity.
Qed.

Lemma exec_keeps_quit (o : op) : o <> OpStop -> respects (keeps quit) (exec o).
Proof.
  intros Ho.
  apply (@fr_exec_but_Stop (keeps quit) _); try (intros x n; reflexivity);
    try exact Ho; try (intros n; reflexivity).
  apply (@fr_getPubKey (keeps quit) _); intros x n; reflexivity.
Qed.

(** X7: stopping is final. [Stop] on a node whose quit channel is open
    returns with the node offline, the event meter stopped and quit closed;
    on a node whose quit channel is closed it panics; and no operation of the
    file reopens quit, so a run of operations on a stopped node that returns
    contains no further [Stop]. *)
Theorem X7_stop_is_final :
  (forall n : Node.t,
     quit n = Open ->
     exists n', Stop n = ([], Done (tt, n')) /\
                Online n' = false /\ running (em n') = false /\ quit n' = Closed) /\
  (forall n : Node.t,
     quit n = Closed -> Stop n = ([], Panic "close of closed channel"%string)) /\
  (forall (ops : list op) (n : Node.t) tr n',
     quit n = Closed ->
     for_range ops exec n = (tr, Done (tt, n')) ->
     ~ In OpStop ops /\ quit n' = Closed).
Proof.
  split; [|split].
  - intros n Hq. rewrite Stop_eq, Hq. eexists. split; [reflexivity|]. cbn. tauto.
  - intros n Hq. rewrite Stop_eq, Hq. reflexivity.
  - intros ops. induction ops as [|o ops IH]; intros n tr n' Hq Hrun.
    + cbn in Hrun. inversion Hrun; subst. split; [intros []|exact Hq].
    + cbn [for_range] in Hrun. rewrite bind_unfold in Hrun.
      destruct (OpStop_or_not o) as [->|Ho].
      * cbn [exec] in Hrun. rewrite Stop_eq, Hq in Hrun. discriminate.
      * destruct (exec o n) as [tr1 [[[] n1]| |]] eqn:E; try discriminate.
        apply (exec_keeps_quit o Ho) in E. unfold keeps in E.
        destruct (for_range ops exec n1) as [tr2 r2] eqn:E2.
        inversion Hrun; subst.
        destruct (IH n1 tr2 n') as [Hno Hq']; [congruence|exact E2|].
        split; [|exact Hq']. intros [Heq|Hin]; [congruence|contradiction].
Qed.

(** A fresh node, and the same node with quit closed. *)
Lemma X7_stop_witness :
  (exists n', Stop Fixtures.nodeA = ([], Done (tt, n')) /\
              Online n' = false /\ running (em n') = false /\ quit n' = Closed) /\
  Stop (set_quit Closed Fixtures.nodeA) = ([], Panic "close of closed channel"%string) /\
  (exists tr n',
     for_range [OpStart; OpDisconnect; OpCheckIsValidator] exec
       (set_quit Closed Fixtures.nodeA) = (tr, Done (tt, n')) /\
     quit n' = Closed).
Proof.
  destruct X7_stop_is_final as (Ho & Hc & Hl). split; [|split].
  - apply Ho. reflexivity.
  - apply Hc. reflexivity.
  - eexists. eexists. split; [vm_compute; reflexivity|].
    eapply (Hl [OpStart; OpDisconnect; OpCheckIsValidator]
              (set_quit Closed Fixtures.nodeA));
      [reflexivity|vm_compute; reflexivity].
Defined.
(** *** Block events *)

(** X8: over a series of new-block events the callback forwards every
    header, unchanged and in order, on the bound block channel (nothing when
    none is bound), and leaves in [Height] the height of the last header
    delivered, also when an earlier one was higher; nothing else changes. A
    payload that is not a block header panics the callback. *)
Theorem X8_height_follows_last_block (hs : list Header) (n : Node.t) :
  newBlocks hs n =
  (match blockCh n with
   | Some ch => map (SendBlock ch) hs
   | None => []
   end,
   Done (tt, match last hs with
             | Some h => set_Height (uint64 (HeaderHeight h)) n
             | None => n
             end)) /\
  newBlockCallback EventDataOther n = ([], Panic "interface conversion"%string).
Proof.
  split; [|reflexivity]. unfold newBlocks. revert n.
  induction hs as [|h hs IH]; intros n.
  - cbn. destruct (blockCh n); reflexivity.
  - cbn [for_range]. rewrite bind_unfold.
    assert (Hb : newBlockCallback (EventDataNewBlockHeader h) n
                 = (match blockCh n with Some ch => [SendBlock ch h] | None => [] end,
                    Done (tt, set_Height (uint64 (HeaderHeight h)) n))).
    { unfold newBlockCallback, bind, get, modify, ret, emit. cbn.
      destruct (blockCh n); reflexivity. }
    rewrite Hb. cbv beta iota. rewrite IH.
    cbn [blockCh set_Height].
    assert (Hl : match last hs with
                 | Some h0 => set_Height (uint64 (HeaderHeight h0))
                                (set_Height (uint64 (HeaderHeight h)) n)
                 | None => set_Height (uint64 (HeaderHeight h)) n
                 end
                 = match last (h :: hs) with
                   | Some h0 => set_Height (uint64 (HeaderHeight h0)) n
                   | None => n
                   end).
    { destruct hs as [|h' hs']; [reflexivity|].
      change (last (h :: h' :: hs')) with (last (h' :: hs')).
      destruct (last (h' :: hs')) eqn:El; [reflexivity|].
      apply last_None in El. discriminate. }
    rewrite Hl. destruct (blockCh n); reflexivity.
Qed.

(** *** Reconnecting *)

Lemma first_success_or_all_fail (e : eventMeter) (m : nat) :
  (exists j, (j < m)%nat /\ first_success e j) \/ all_fail e m.
Proof.
  induction m as [|m IH].
  - right. intros k Hk. lia.
  - destruct IH as [(j & Hj & Hs)|Hall].
    + left. exists j. split; [lia|exact Hs].
    + destruct (startResults e (startCalls e + m)) as [err|] eqn:E.
      * right. intros k Hk. destruct (Nat.eq_dec k m) as [->|Hne].
        -- rewrite E. discriminate.
        -- apply Hall. lia.
      * left. exists m. split; [lia|]. split; [exact Hall|exact E].
Qed.

Lemma backoff_loop_success_state (fuel attempt j : nat) (n : Node.t) :
  first_success (em n) j ->
  (attempt + j <= maxRestarts)%nat -> (j < fuel)%nat ->
  backoff_loop fuel attempt n
  = (map (fun k => Sleep (int64 (Exp2 k * Second))) (seq attempt (S j)),
     Done (None, set_em (em_after (em n) (S j) true) n)).
Proof.
  assert (Hmax : maxRestarts = 25%nat) by reflexivity.
  revert attempt j n.
  induction fuel as [|fuel IH]; intros attempt j n [Hfail Hok] Ha Hf; [lia|].
  cbn [backoff_loop]. rewrite bind_unfold. cbn [emit]. cbv beta iota.
  rewrite bind_unfold, em_Start_eq. cbv zeta.
  destruct j as [|j].
  - rewrite Nat.add_0_r in Hok. rewrite Hok. cbv beta iota. rewrite ret_run.
    unfold em_after. rewrite Nat.add_1_r. reflexivity.
  - destruct (startResults (em n) (startCalls (em n))) as [err|] eqn:E.
    2:{ exfalso. apply (Hfail 0%nat); [lia|]. rewrite Nat.add_0_r. exact E. }
    cbv beta iota.
    destruct (Nat.ltb_spec maxRestarts (S attempt)) as [Hlt|Hge]; [lia|].
    rewrite (IH (S attempt) j); [| |lia|lia].
    + cbn [app seq map]. f_equal. f_equal. f_equal.
      unfold em_after, set_em. cbn. f_equal. f_equal. lia.
    + split.
      * intros k Hk. cbn [em set_em startResults startCalls].
        replace (S (startCalls (em n)) + k)%nat
          with (startCalls (em n) + S k)%nat by lia. apply Hfail. lia.
      * cbn [em set_em startResults startCalls].
        replace (S (startCalls (em n)) + j)%nat
          with (startCalls (em n) + S j)%nat by lia. exact Hok.
Qed.

Lemma backoff_loop_fail_state (fuel attempt : nat) (n : Node.t) :
  all_fail (em n) (maxRestarts + 1 - attempt) ->
  (attempt <= maxRestarts)%nat -> (maxRestarts + 1 - attempt <= fuel)%nat ->
  backoff_loop fuel attempt n
  = (map (fun k => Sleep (int64 (Exp2 k * Second)))
         (seq attempt (maxRestarts + 1 - attempt)),
     Done (Some "Reached max restarts"%string,
           set_em (em_after (em n) (maxRestarts + 1 - attempt) (running (em n))) n)).
Proof.
  assert (Hmax : maxRestarts = 25%nat) by reflexivity.
  revert attempt n.
  induction fuel as [|fuel IH]; intros attempt n Hfail Ha Hf; [lia|].
  cbn [backoff_loop]. rewrite bind_unfold. cbn [emit]. cbv beta iota.
  rewrite bind_unfold, em_Start_eq. cbv zeta.
  destruct (startResults (em n) (startCalls (em n))) as [err|] eqn:E.
  2:{ exfalso. apply (Hfail 0%nat); [lia|]. rewrite Nat.add_0_r. exact E. }
  cbv beta iota.
  destruct (Nat.ltb_spec maxRestarts (S attempt)) as [Hlt|Hge].
  - assert (attempt = maxRestarts) as -> by lia.
    replace (maxRestarts + 1 - maxRestarts)%nat with 1%nat by lia.
    rewrite ret_run. unfold em_after. rewrite Nat.add_1_r. reflexivity.
  - rewrite (IH (S attempt)); [| |lia|lia].
    + replace (maxRestarts + 1 - attempt)%nat
        with (S (maxRestarts + 1 - S attempt)) by lia.
      cbn [app seq map]. f_equal. f_equal. f_equal.
      unfold em_after, set_em. cbn. f_equal. f_equal. lia.
    + intros k Hk. cbn [em set_em startResults startCalls].
      replace (S (startCalls (em n)) + k)%nat
        with (startCalls (em n) + S k)%nat by lia. apply Hfail. lia.
Qed.

Lemma delays_exact (m : nat) :
  (m <= maxRestarts + 1)%nat ->
  map (fun k => Sleep (int64 (Exp2 k * Second))) (seq 0 m) = delays m.
Proof.
  intros Hm. unfold delays. apply map_ext_in. intros k Hk. apply in_seq in Hk.
  rewrite backoff_delay_exact; [reflexivity|lia].
Qed.

Lemma RestartEventMeterBackoff_spec (n : Node.t) :
  (exists j, (j <= maxRestarts)%nat /\ first_success (em n) j /\
     RestartEventMeterBackoff n
     = (delays (S j), Done (None, set_em (em_after (em n) (S j) true) n))) \/
  (all_fail (em n) (maxRestarts + 1) /\
   RestartEventMeterBackoff n
   = (delays (maxRestarts + 1),
      Done (Some "Reached max restarts"%string,
            set_em (em_after (em n) (maxRestarts + 1) (running (em n))) n))).
Proof.
  assert (Hmax : maxRestarts = 25%nat) by reflexivity.
  unfold RestartEventMeterBackoff.
  destruct (first_success_or_all_fail (em n) (maxRestarts + 1)) as [(j & Hj & Hs)|Hall].
  - left. exists j. split; [lia|]. split; [exact Hs|].
    rewrite (backoff_loop_success_state _ 0 j n Hs) by lia.
    rewrite delays_exact by lia. reflexivity.
  - right. split; [exact Hall|].
    rewrite (backoff_loop_fail_state _ 0 n); [| |lia|lia].
    + rewrite Nat.sub_0_r, delays_exact by lia. reflexivity.
    + rewrite Nat.sub_0_r. exact Hall.
Qed.

(** X9: the result of [RestartEventMeterBackoff], for every event meter.
    Either one of the next 26 restarts succeeds, and then, calling the first
    one that does attempt [j], it returns nil after the sleeps of 1, 2, ...,
    2^j seconds and exactly [j + 1] calls of [Start], with the meter running;
    or the next 26 restarts all fail, and it returns "Reached max restarts"
    after the sleeps of 1, 2, ..., 2^25 seconds and 26 calls. Nothing but the
    event meter changes. *)
Theorem X9_backoff_result (n : Node.t) :
  (exists j, (j <= 25)%nat /\ first_success (em n) j /\
     RestartEventMeterBackoff n
     = (delays (S j), Done (None, set_em (em_after (em n) (S j) true) n))) \/
  (all_fail (em n) 26 /\
   RestartEventMeterBackoff n
   = (delays 26,
      Done (Some "Reached max restarts"%string,
            set_em (em_after (em n) 26 (running (em n))) n))).
Proof. exact (RestartEventMeterBackoff_spec n). Qed.

(** X10: the disconnect callback sends [true] on the bound connectivity
    channel and then reconnects. If a restart succeeds among the first 26, it
    ends with the node online and [false] sent after the sleeps; if all 26
    fail, it ends with the node offline, and [false] is never sent. *)
Theorem X10_disconnect_then_reconnect (n : Node.t) :
  (exists j, (j <= 25)%nat /\ first_success (em n) j /\
     disconnectCallback n
     = (notify n true ++ delays (S j) ++ notify n false,
        Done (tt, set_Online true (set_em (em_after (em n) (S j) true) n)))) \/
  (all_fail (em n) 26 /\
   disconnectCallback n
   = (notify n true ++ delays 26,
      Done (tt, set_Online false (set_em (em_after (em n) 26 (running (em n))) n)))).
Proof.
  assert (Hd : forall m, disconnectCallback m =
            let m0 := set_Online false m in
            match RestartEventMeterBackoff m0 with
            | (tr, Done (Some _, m1)) => (notify m true ++ tr, Done (tt, m1))
            | (tr, Done (None, m1)) =>
                (notify m true ++ tr ++ notify m1 false, Done (tt, set_Online true m1))
            | (tr, Panic msg) => (notify m true ++ tr, Panic msg)
            | (tr, OutOfFuel) => (notify m true ++ tr, OutOfFuel)
            end).
  { intros m. unfold disconnectCallback, notify.
    rewrite bind_unfold. cbn [modify]. cbv beta iota.
    rewrite bind_unfold, get_run. cbv beta iota. rewrite bind_unfold.
    cbn [disconnectCh set_Online]. cbv zeta.
    assert (He : forall ch, (match ch with
                             | Some c => emit (SendDisconnect c true)
                             | None => ret tt
                             end) (set_Online false m)
                            = (match ch with Some c => [SendDisconnect c true] | None => [] end,
                               Done (tt, set_Online false m)))
      by (intros [c|]; reflexivity).
    rewrite He. cbv beta iota. rewrite bind_unfold.
    destruct (RestartEventMeterBackoff (set_Online false m)) as [tr [[[e|] m1]| |]];
      cbv beta iota; [| |reflexivity|reflexivity].
    - rewrite ret_run. rewrite app_nil_r. reflexivity.
    - rewrite bind_unfold. cbn [modify]. cbv beta iota.
      rewrite bind_unfold, get_run. cbv beta iota. cbn [disconnectCh set_Online].
      destruct (disconnectCh m1); cbn [emit ret app]; rewrite ?app_nil_r; reflexivity. }
  rewrite Hd. cbv zeta.
  destruct (RestartEventMeterBackoff_spec (set_Online false n))
    as [(j & Hj & Hs & ->)|(Hall & ->)].
  - left. exists j. split; [exact Hj|]. split; [exact Hs|]. reflexivity.
  - right. split; [exact Hall|]. reflexivity.
Qed.

End NodeMore.

(** ** Further facts about [monitor.go] *)

Section MonitorMore.
Import Go Tm Monitor.

Ltac world_simpl :=
  cbn [heap mon chans closed set_heap set_mon set_chans set_closed
       set_Nodes set_Network set_nodeQuit Nodes Network nodeQuit monitorQuit
       recalculateNetworkUptimeEvery numValidatorsUpdateInterval].

Lemma find_name_Some (name : string) (l : list string) (i : nat) :
  find_name name l = Some i <->
  l !! i = Some name /\ forall j, (j < i)%nat -> l !! j <> Some name.
Proof.
  revert i. induction l as [|x l IH]; intros i; cbn [find_name].
  - split; [discriminate|intros [H _]; discriminate].
  - destruct (String.eqb_spec name x) as [->|Hne].
    + split.
      * intros [= <-]. split; [reflexivity|intros j Hj; lia].
      * intros [Hi Hmin]. destruct i as [|i]; [reflexivity|].
        exfalso. apply (Hmin 0%nat); [lia|reflexivity].
    + destruct (find_name name l) as [k|] eqn:E; cbn.
      * split.
        -- intros [= <-]. destruct (proj1 (IH k) eq_refl) as [Hk Hmin].
           split; [exact Hk|]. intros [|j] Hj; cbn; [congruence|apply Hmin; lia].
        -- intros [Hi Hmin]. destruct i as [|i]; [cbn in Hi; congruence|].
           f_equal. cbn in Hi.
           assert (Hx : Some k = Some i); [|congruence].
           apply IH. split; [exact Hi|]. intros j Hj. apply (Hmin (S j)). lia.
      * split; [discriminate|]. intros [Hi Hmin].
        destruct i as [|i]; [cbn in Hi; congruence|]. cbn in Hi.
        assert (Hx : None = Some i); [|discriminate].
        apply IH. split; [exact Hi|]. intros j Hj. apply (Hmin (S j)). lia.
Qed.

Lemma find_name_None (name : string) (l : list string) :
  find_name name l = None <-> ~ In name l.
Proof.
  induction l as [|x l IH]; cbn [find_name In].
  - split; [intros _ []|reflexivity].
  - destruct (String.eqb_spec name x) as [->|Hne].
    + split; [discriminate|]. intros H. exfalso. apply H. left. reflexivity.
    + destruct (find_name name l) as [k|]; cbn.
      * split; [discriminate|]. intros H. exfalso.
        destruct IH as [_ IH]. 
        assert (Hn : ~ In name l) by (intros Hx; apply H; right; exact Hx).
        specialize (IH Hn). discriminate.
      * split; [|reflexivity]. intros _ [Hx|Hx]; [congruence|].
        destruct IH as [IH _]. apply (IH eq_refl Hx).
Qed.

Lemma NodeByName_from_eq (name : string) (l : list loc) (i0 : Z) (w : world) :
  Forall (fun n => is_Some (heap w !! n)) l ->
  NodeByName_from name i0 l w =
  ([], Done (match find_name name (map (name_at w) l) with
             | Some k => (i0 + Z.of_nat k, l !! k)
             | None => (-1, None)
             end, w)).
Proof.
  intros Hall. revert i0. induction Hall as [|n l [node Hn] Hall IH]; intros i0.
  - reflexivity.
  - cbn [NodeByName_from map find_name]. rewrite bind_unfold, (node_Name_run _ _ _ Hn).
    cbv beta iota. unfold name_at at 1. rewrite Hn.
    destruct (String.eqb name (Node.Name node)).
    + rewrite ret_run. cbn. rewrite Z.add_0_r. reflexivity.
    + rewrite IH. destruct (find_name name (map (name_at w) l)) as [k|]; cbn.
      * replace (i0 + 1 + Z.of_nat k) with (i0 + Z.of_nat (S k)) by lia. reflexivity.
      * reflexivity.
Qed.

Lemma close_chan_eq (c : option chan) (w : world) :
  close_chan c w =
  match c with
  | None => ([], Panic "close of nil channel"%string)
  | Some ch =>
      if bool_decide (ch ∈ closed w) then ([], Panic "close of closed channel"%string)
      else ([], Done (tt, set_closed ({[ch]} ∪ closed w) w))
  end.
Proof.
  destruct c as [ch|]; [|reflexivity]. unfold close_chan.
  rewrite bind_unfold, get_run. cbv beta iota.
  case_bool_decide; reflexivity.
Qed.

Lemma stopped_Name (node : Node.t) : Node.Name (Node.stopped node) = Node.Name node.
Proof. reflexivity. Qed.

Lemma Unmonitor_eq (n : loc) (w : world) (node : Node.t) :
  heap w !! n = Some node -> allocated w ->
  let m := mon w in
  let name := Node.Name node in
  Unmonitor n w =
  match Node.quit node with
  | Closed => ([], Panic "close of closed channel"%string)
  | Open =>
      match nodeQuit m !! name with
      | None => ([], Panic "close of nil channel"%string)
      | Some c =>
          if bool_decide (c ∈ closed w)
          then ([], Panic "close of closed channel"%string)
          else
            match find_name name (names w), Nodes m !! (length (Nodes m) - 1)%nat with
            | Some i, Some lst =>
                ([], Done (tt,
                   mkWorld (<[n := Node.stopped node]> (heap w))
                     (mk (take (length (Nodes m) - 1) (<[i := lst]> (Nodes m)))
                         (Network.NodeDeleted name (Network m))
                         (monitorQuit m) (delete name (nodeQuit m))
                         (recalculateNetworkUptimeEvery m)
                         (numValidatorsUpdateInterval m))
                     (chans w) ({[c]} ∪ closed w)))
            | _, _ => ([], Panic "index out of range"%string)
            end
      end
  end.
Proof.
  intros Hn Hall. cbv zeta. unfold Unmonitor.
  rewrite bind_unfold, (node_Name_run _ _ _ Hn). cbv beta iota.
  rewrite bind_unfold, update_run. cbv beta iota.
  rewrite bind_unfold.
  rewrite (on_node_eq n Node.Stop _ node) by (cbn; exact Hn).
  rewrite Stop_eq. destruct (Node.quit node); [|reflexivity].
  fold (Node.stopped node). cbv beta iota.
  unfold set_heap, set_mon, set_chans, set_closed. cbn [heap mon chans closed].
  match goal with |- context [bind _ _ ?w2] =>
    assert (Hn2 : heap w2 !! n = Some (Node.stopped node)) by (cbn; apply lookup_insert_eq)
  end.
  rewrite bind_unfold, (node_Name_run _ _ _ Hn2). cbv beta iota.
  rewrite bind_unfold, get_run. cbv beta iota.
  rewrite bind_unfold, close_chan_eq. rewrite stopped_Name.
  cbn [mon nodeQuit set_Network closed].
  destruct (nodeQuit (mon w) !! Node.Name node) as [c|]; [|reflexivity].
  case_bool_decide; [reflexivity|]. cbv beta iota.
  unfold set_closed. cbn [heap mon chans closed].
  rewrite bind_unfold.
  erewrite node_Name_run by (cbn; apply lookup_insert_eq). cbv beta iota.
  rewrite bind_unfold, update_run. cbv beta iota.
  unfold set_mon. cbn [heap mon chans closed].
  rewrite bind_unfold.
  erewrite node_Name_run by (cbn; apply lookup_insert_eq). cbv beta iota.
  rewrite bind_unfold. unfold NodeByName. rewrite bind_unfold, get_run. cbv beta iota.
  cbn [mon set_nodeQuit set_Network Nodes].
  rewrite NodeByName_from_eq.
  2:{ cbn [heap]. eapply Forall_impl; [exact Hall|]. intros l [x Hx]. cbn beta.
      destruct (decide (n = l)) as [->|Hne].
      - rewrite lookup_insert_eq. eexists; reflexivity.
      - rewrite lookup_insert_ne by exact Hne. eexists; exact Hx. }
  rewrite !stopped_Name.
  erewrite (map_ext (name_at _) (name_at w)).
  2:{ intros l. apply (name_at_insert w n node); [exact Hn|reflexivity]. }
  fold (names w). cbn [app]. cbv beta iota.
  destruct (find_name (Node.Name node) (names w)) as [i|] eqn:Hf.
  - rewrite bind_unfold, get_run. cbv beta iota. world_simpl.
    destruct (Nodes (mon w) !! (length (Nodes (mon w)) - 1)%nat) as [lst|]; [|reflexivity].
    destruct (Z.ltb_spec (0 + Z.of_nat i) 0) as [Hneg|Hpos]; [lia|].
    rewrite bind_unfold, !update_run. cbv beta iota.
    unfold set_mon. cbn [heap mon chans closed set_Nodes Nodes Network nodeQuit monitorQuit
      recalculateNetworkUptimeEvery numValidatorsUpdateInterval app].
    rewrite length_insert. replace (Z.to_nat (0 + Z.of_nat i)) with i by lia.
    reflexivity.
  - rewrite bind_unfold, get_run. cbv beta iota. world_simpl.
    destruct (Nodes (mon w) !! (length (Nodes (mon w)) - 1)%nat) as [lst|]; reflexivity.
Qed.

Lemma Unmonitor_nil (n : loc) (w : world) :
  heap w !! n = None -> Unmonitor n w = ([], Panic "nil pointer dereference"%string).
Proof.
  intros Hn. unfold Unmonitor. rewrite bind_unfold, (node_Name_nil _ _ Hn). reflexivity.
Qed.

Lemma Start_success (n n' : Node.t) tr :
  Node.Start n = (tr, Done (None, n')) ->
  tr = [Spawn (checkIsValidatorLoop (Node.Name n))] /\
  Node.Online n' = true /\ Node.Name n' = Node.Name n /\ Node.quit n' = Node.quit n /\
  (Node.blockCh n', Node.blockLatencyCh n', Node.disconnectCh n')
  = (Node.blockCh n, Node.blockLatencyCh n, Node.disconnectCh n).
Proof.
  intros H. pose proof (Start_cases n) as HS. cbv zeta in HS.
  destruct (Node.startResults (Node.em n) (Node.startCalls (Node.em n))) as [e|].
  { rewrite HS in H. discriminate. }
  destruct (Node.subscribeResult (Node.em n)) as [e|].
  { rewrite HS in H. discriminate. }
  destruct HS as (n2 & HS & Hon & _ & _ & Hk & Hch).
  rewrite HS in H. inversion H; subst tr n'. clear H.
  split; [reflexivity|]. split; [exact Hon|].
  split; [exact (f_equal (fun t => t.1.1.1) Hk)|].
  split; [exact (f_equal (fun t => t.2) Hk)|exact Hch].
Qed.

Lemma Start_failure (n n' : Node.t) tr (e : error) :
  Node.Start n = (tr, Done (Some e, n')) ->
  tr = [] /\ Node.Name n' = Node.Name n /\ Node.quit n' = Node.quit n.
Proof.
  intros H. pose proof (Start_cases n) as HS. cbv zeta in HS.
  destruct (Node.startResults (Node.em n) (Node.startCalls (Node.em n))) as [e1|].
  { rewrite HS in H. inversion H; subst. repeat split. }
  destruct (Node.subscribeResult (Node.em n)) as [e1|].
  { rewrite HS in H. inversion H; subst. repeat split. }
  destruct HS as (n2 & HS & _). rewrite HS in H. discriminate.
Qed.

(** *** Registration *)

(** X11: what a [Monitor(n)] that returns nil has wired up. The node
    has been given three channels made for it and is online; besides the
    recheck loop of the node exactly one goroutine has been started, a
    listener under the node's name that reads these three channels and
    the quit channel made after them; this quit channel is the one now
    registered under the node's name, replacing any registered before; the
    node is the last of the tracked list, four channels have been made, and
    no channel has been closed. *)
Theorem X11_Monitor_wires_listener (n : loc) (w w1 : world) tr :
  Monitor n w = (tr, Done (None, w1)) ->
  let c := chans w in
  exists node node',
    heap w !! n = Some node /\
    heap w1 = <[n := node']> (heap w) /\
    Node.Name node' = Node.Name node /\
    Node.Online node' = true /\
    (Node.blockCh node', Node.blockLatencyCh node', Node.disconnectCh node')
    = (Some c, Some (S c), Some (S (S c))) /\
    tr = [Spawn (checkIsValidatorLoop (Node.Name node));
          Spawn (listen (Node.Name node) c (S c) (S (S c)) (Some (S (S (S c)))))] /\
    nodeQuit (mon w1) = <[Node.Name node := S (S (S c))]> (nodeQuit (mon w)) /\
    Nodes (mon w1) = Nodes (mon w) ++ [n] /\
    chans w1 = S (S (S (S c))) /\
    closed w1 = closed w /\
    monitorQuit (mon w1) = monitorQuit (mon w).
Proof.
  intros H. cbv zeta. destruct (heap w !! n) as [node|] eqn:Hn.
  2:{ rewrite (Monitor_nil _ _ Hn) in H. discriminate. }
  rewrite (Monitor_eq n w node Hn) in H. cbv zeta in H.
  destruct (Node.Start _) as [trS [[[err|] node2]| |]] eqn:HS; try discriminate.
  apply Start_success in HS as (-> & Hon & Hname & _ & Hch).
  cbn in Hname, Hch. rewrite Hname in H.
  inversion H; subst tr w1. clear H. exists node, node2. cbn.
  split; [reflexivity|]. split; [reflexivity|]. split; [exact Hname|].
  split; [exact Hon|]. split; [exact Hch|]. repeat split.
Qed.

(** Node a is registered with a fresh monitor. *)
Lemma X11_Monitor_witness :
  exists tr w1,
    Monitor 0%nat (init {[0%nat := Fixtures.nodeA]}) = (tr, Done (None, w1)) /\
    exists node node',
      heap (init {[0%nat := Fixtures.nodeA]}) !! 0%nat = Some node /\
      heap w1 = <[0%nat := node']> (heap (init {[0%nat := Fixtures.nodeA]})) /\
      Node.Name node' = Node.Name node /\
      Node.Online node' = true /\
      (Node.blockCh node', Node.blockLatencyCh node', Node.disconnectCh node')
      = (Some 0%nat, Some 1%nat, Some 2%nat) /\
      tr = [Spawn (checkIsValidatorLoop (Node.Name node));
            Spawn (listen (Node.Name node) 0%nat 1%nat 2%nat (Some 3%nat))] /\
      nodeQuit (mon w1) = <[Node.Name node := 3%nat]> ∅ /\
      Nodes (mon w1) = [] ++ [0%nat] /\
      chans w1 = 4%nat /\
      closed w1 = ∅ /\
      monitorQuit (mon w1) = Open.
Proof.
  assert (Hrun : exists tr w1,
            Monitor 0%nat (init {[0%nat := Fixtures.nodeA]}) = (tr, Done (None, w1))).
  { do 2 eexists. vm_compute. reflexivity. }
  destruct Hrun as (tr & w1 & Hrun). exists tr, w1. split; [exact Hrun|].
  exact (X11_Monitor_wires_listener _ _ _ _ Hrun).
Defined.

(** *** Lookup by name *)

Lemma worldAB_allocated : allocated Fixtures.worldAB.
Proof. repeat constructor; eexists; vm_compute; reflexivity. Qed.


(** X12: [NodeByName] on a monitor none of whose tracked pointers is nil
    returns without a change of state: (-1, nil) when no tracked node has
    the name, and otherwise the lowest index at which a node of that name
    is tracked together with the pointer stored there. *)
Theorem X12_NodeByName_first_match (name : string) (w : world) :
  allocated w ->
  exists r,
    NodeByName name w = ([], Done (r, w)) /\
    ((~ In name (names w) /\ r = (-1, None)) \/
     (exists (i : nat) (n : loc),
        r = (Z.of_nat i, Some n) /\
        Nodes (mon w) !! i = Some n /\ name_at w n = name /\
        forall j, (j < i)%nat -> names w !! j <> Some name)).
Proof.
  intros Hall. unfold NodeByName. rewrite bind_unfold, get_run. cbv beta iota.
  rewrite (NodeByName_from_eq _ _ _ _ Hall). cbn [app]. fold (names w).
  eexists. split; [reflexivity|].
  destruct (find_name name (names w)) as [i|] eqn:Hf.
  - right. apply find_name_Some in Hf as [Hi Hmin].
    unfold names in Hi. rewrite list_lookup_fmap in Hi.
    destruct (Nodes (mon w) !! i) as [n|] eqn:Hn; [|discriminate].
    exists i, n. cbn in Hi. split; [reflexivity|]. split; [exact Hn|].
    split; [congruence|exact Hmin].
  - left. split; [apply find_name_None; exact Hf|reflexivity].
Qed.

(** The node named b is looked up in a monitor that tracks a and b. *)
Lemma X12_NodeByName_witness :
  exists r,
    NodeByName "b:46657" Fixtures.worldAB = ([], Done (r, Fixtures.worldAB)) /\
    ((~ In "b:46657"%string (names Fixtures.worldAB) /\ r = (-1, None)) \/
     (exists (i : nat) (n : loc),
        r = (Z.of_nat i, Some n) /\
        Nodes (mon Fixtures.worldAB) !! i = Some n /\
        name_at Fixtures.worldAB n = "b:46657"%string /\
        forall j, (j < i)%nat -> names Fixtures.worldAB !! j <> Some "b:46657"%string)).
Proof.
  apply X12_NodeByName_first_match. exact worldAB_allocated.
Defined.

(** *** Removal *)

Lemma names_length (w : world) : length (names w) = length (Nodes (mon w)).
Proof. unfold names. apply length_map. Qed.

(** What an [Unmonitor(n)] that returns has found and leaves behind. *)
Lemma Unmonitor_done (n : loc) (w w1 : world) tr :
  allocated w ->
  Unmonitor n w = (tr, Done (tt, w1)) ->
  exists node c (i : nat) lst,
    heap w !! n = Some node /\ Node.quit node = Open /\
    nodeQuit (mon w) !! Node.Name node = Some c /\ (c ∉ closed w) /\
    find_name (Node.Name node) (names w) = Some i /\
    Nodes (mon w) !! (length (Nodes (mon w)) - 1)%nat = Some lst /\
    tr = [] /\
    w1 = mkWorld (<[n := Node.stopped node]> (heap w))
           (mk (take (length (Nodes (mon w)) - 1) (<[i := lst]> (Nodes (mon w))))
               (Network.NodeDeleted (Node.Name node) (Network (mon w)))
               (monitorQuit (mon w)) (delete (Node.Name node) (nodeQuit (mon w)))
               (recalculateNetworkUptimeEvery (mon w))
               (numValidatorsUpdateInterval (mon w)))
           (chans w) ({[c]} ∪ closed w).
Proof.
  intros Hall H. destruct (heap w !! n) as [node|] eqn:Hn.
  2:{ rewrite (Unmonitor_nil _ _ Hn) in H. discriminate. }
  rewrite (Unmonitor_eq n w node Hn Hall) in H. cbv zeta in H.
  destruct (Node.quit node) eqn:Hq; [|discriminate].
  destruct (nodeQuit (mon w) !! Node.Name node) as [c|] eqn:Hc; [|discriminate].
  case_bool_decide as Hcl; [discriminate|].
  destruct (find_name (Node.Name node) (names w)) as [i|] eqn:Hf; [|discriminate].
  destruct (Nodes (mon w) !! (length (Nodes (mon w)) - 1)%nat) as [lst|] eqn:Hl;
    [|discriminate].
  inversion H; subst tr w1. exists node, c, i, lst. repeat split; try assumption.
Qed.

(** X13: when [Unmonitor(n)] returns. On a monitor none of whose tracked
    pointers is nil, [Unmonitor(n)] returns exactly when [n] is not nil, its
    quit channel has not been closed, a quit channel that is not closed is
    registered under its name, and a node of its name is tracked; in every
    other case it panics, and it starts or sends nothing either way. *)
Theorem X13_Unmonitor_returns_iff (n : loc) (w : world) :
  allocated w ->
  ((exists w1, Unmonitor n w = ([], Done (tt, w1))) <->
   (exists node c,
      heap w !! n = Some node /\ Node.quit node = Open /\
      nodeQuit (mon w) !! Node.Name node = Some c /\ (c ∉ closed w) /\
      In (Node.Name node) (names w))) /\
  ((exists w1, Unmonitor n w = ([], Done (tt, w1))) \/
   (exists msg, Unmonitor n w = ([], Panic msg))).
Proof.
  intros Hall. split; [split|].
  - intros [w1 H]. apply (Unmonitor_done _ _ _ _ Hall) in H
      as (node & c & i & lst & Hn & Hq & Hc & Hcl & Hf & _).
    exists node, c. repeat split; try assumption.
    apply find_name_Some in Hf as [Hi _].
    apply list_elem_of_In, list_elem_of_lookup. exists i. exact Hi.
  - intros (node & c & Hn & Hq & Hc & Hcl & Hin).
    rewrite (Unmonitor_eq n w node Hn Hall). cbv zeta. rewrite Hq, Hc.
    rewrite bool_decide_false by exact Hcl.
    destruct (find_name (Node.Name node) (names w)) as [i|] eqn:Hf.
    2:{ apply find_name_None in Hf. contradiction. }
    apply find_name_Some in Hf as [Hi _]. apply lookup_lt_Some in Hi.
    rewrite names_length in Hi.
    destruct (lookup_lt_is_Some_2 (Nodes (mon w)) (length (Nodes (mon w)) - 1)%nat)
      as [lst Hl]; [lia|].
    rewrite Hl. eexists. reflexivity.
  - destruct (heap w !! n) as [node|] eqn:Hn.
    2:{ right. eexists. apply Unmonitor_nil. exact Hn. }
    rewrite (Unmonitor_eq n w node Hn Hall). cbv zeta.
    destruct (Node.quit node); [|right; eexists; reflexivity].
    destruct (nodeQuit (mon w) !! Node.Name node) as [c|]; [|right; eexists; reflexivity].
    case_bool_decide; [right; eexists; reflexivity|].
    destruct (find_name (Node.Name node) (names w)) as [i|];
      [|right; eexists; reflexivity].
    destruct (Nodes (mon w) !! (length (Nodes (mon w)) - 1)%nat) as [lst|];
      [left|right]; eexists; reflexivity.
Qed.

(** Node a of a monitor that tracks a and b. *)
Lemma X13_Unmonitor_witness :
  ((exists w1, Unmonitor 0%nat Fixtures.worldAB = ([], Done (tt, w1))) <->
   (exists node c,
      heap Fixtures.worldAB !! 0%nat = Some node /\ Node.quit node = Open /\
      nodeQuit (mon Fixtures.worldAB) !! Node.Name node = Some c /\
      (c ∉ closed Fixtures.worldAB) /\
      In (Node.Name node) (names Fixtures.worldAB))) /\
  ((exists w1, Unmonitor 0%nat Fixtures.worldAB = ([], Done (tt, w1))) \/
   (exists msg, Unmonitor 0%nat Fixtures.worldAB = ([], Panic msg))).
Proof.
  apply X13_Unmonitor_returns_iff. exact worldAB_allocated.
Defined.

(** X14: what an [Unmonitor(n)] that returns leaves behind, on a monitor
    none of whose tracked pointers is nil. The node behind [n] is stopped
    and no other node is touched; the quit channel registered under its name
    is closed and its entry deleted, and no other channel is closed; nothing
    is started or sent. The slot taken out of the tracked list is the first
    one holding a node of that name: it is overwritten with the last element
    and the list loses its last slot. When no name is tracked twice and [n]
    is tracked, that slot holds [n], and the tracked nodes afterwards are the
    ones before without [n]. *)
Theorem X14_Unmonitor_effect (n : loc) (w w1 : world) tr :
  allocated w ->
  Unmonitor n w = (tr, Done (tt, w1)) ->
  exists node c (i : nat) lst,
    heap w !! n = Some node /\
    nodeQuit (mon w) !! Node.Name node = Some c /\
    tr = [] /\
    heap w1 = <[n := Node.stopped node]> (heap w) /\
    closed w1 = {[c]} ∪ closed w /\ chans w1 = chans w /\
    nodeQuit (mon w1) = delete (Node.Name node) (nodeQuit (mon w)) /\
    monitorQuit (mon w1) = monitorQuit (mon w) /\
    names w !! i = Some (Node.Name node) /\
    (forall j, (j < i)%nat -> names w !! j <> Some (Node.Name node)) /\
    last (Nodes (mon w)) = Some lst /\
    Nodes (mon w1) = take (length (Nodes (mon w)) - 1) (<[i := lst]> (Nodes (mon w))) /\
    (NoDup (names w) -> In n (Nodes (mon w)) ->
     Nodes (mon w) !! i = Some n /\
     forall l, In l (Nodes (mon w1)) <-> In l (Nodes (mon w)) /\ l <> n).
Proof.
  intros Hall H.
  apply (Unmonitor_done _ _ _ _ Hall) in H
    as (node & c & i & lst & Hn & Hq & Hc & Hcl & Hf & Hl & -> & ->).
  apply find_name_Some in Hf as [Hi Hmin].
  exists node, c, i, lst. cbn.
  split; [exact Hn|]. split; [exact Hc|]. do 6 (split; [reflexivity|]).
  split; [exact Hi|]. split; [exact Hmin|].
  split. { rewrite last_lookup. replace (pred (length (Nodes (mon w))))
             with (length (Nodes (mon w)) - 1)%nat by lia. exact Hl. }
  split; [reflexivity|].
  intros Hnd Hin.
  assert (Hni : Nodes (mon w) !! i = Some n).
  { apply list_elem_of_In, list_elem_of_lookup in Hin as [k Hk].
    assert (Hk' : names w !! k = Some (Node.Name node)).
    { unfold names. rewrite list_lookup_fmap, Hk. cbn. unfold name_at. rewrite Hn.
      reflexivity. }
    rewrite (NoDup_lookup _ _ _ _ Hnd Hi Hk'). exact Hk. }
  split; [exact Hni|]. intros l.
  assert (Hndl : NoDup (Nodes (mon w))).
  { apply (NoDup_fmap_1 (name_at w)). exact Hnd. }
  rewrite <- (In_delete_NoDup (Nodes (mon w)) i n l Hndl Hni).
  rewrite <- !list_elem_of_In.
  rewrite (swap_remove_perm (Nodes (mon w)) i n lst Hni Hl). reflexivity.
Qed.

(** Node a is removed from a monitor that tracks a and b. *)
Lemma X14_Unmonitor_witness :
  exists tr w1,
    Unmonitor 0%nat Fixtures.worldAB = (tr, Done (tt, w1)) /\
    exists node c (i : nat) lst,
      heap Fixtures.worldAB !! 0%nat = Some node /\
      nodeQuit (mon Fixtures.worldAB) !! Node.Name node = Some c /\
      tr = [] /\
      heap w1 = <[0%nat := Node.stopped node]> (heap Fixtures.worldAB) /\
      closed w1 = {[c]} ∪ closed Fixtures.worldAB /\ chans w1 = chans Fixtures.worldAB /\
      nodeQuit (mon w1) = delete (Node.Name node) (nodeQuit (mon Fixtures.worldAB)) /\
      monitorQuit (mon w1) = monitorQuit (mon Fixtures.worldAB) /\
      names Fixtures.worldAB !! i = Some (Node.Name node) /\
      (forall j, (j < i)%nat -> names Fixtures.worldAB !! j <> Some (Node.Name node)) /\
      last (Nodes (mon Fixtures.worldAB)) = Some lst /\
      Nodes (mon w1)
      = take (length (Nodes (mon Fixtures.worldAB)) - 1) (<[i := lst]> (Nodes (mon Fixtures.worldAB))) /\
      (NoDup (names Fixtures.worldAB) -> In 0%nat (Nodes (mon Fixtures.worldAB)) ->
       Nodes (mon Fixtures.worldAB) !! i = Some 0%nat /\
       forall l, In l (Nodes (mon w1)) <-> In l (Nodes (mon Fixtures.worldAB)) /\ l <> 0%nat).
Proof.
  assert (Hrun : exists tr w1, Unmonitor 0%nat Fixtures.worldAB = (tr, Done (tt, w1))).
  { do 2 eexists. vm_compute. reflexivity. }
  destruct Hrun as (tr & w1 & Hrun). exists tr, w1. split; [exact Hrun|].
  exact (X14_Unmonitor_effect _ _ _ _ worldAB_allocated Hrun).
Defined.

(** What a [Monitor(n)] that returns leaves behind, whatever it returns. *)
Lemma Monitor_done (n : loc) (w w1 : world) tr (err : option error) :
  Monitor n w = (tr, Done (err, w1)) ->
  exists node node',
    heap w !! n = Some node /\ Node.Name node' = Node.Name node /\
    Node.quit node' = Node.quit node /\
    heap w1 = <[n := node']> (heap w) /\
    Nodes (mon w1) = Nodes (mon w) ++ [n] /\
    closed w1 = closed w /\
    monitorQuit (mon w1) = monitorQuit (mon w) /\
    match err with
    | Some _ =>
        tr = [] /\
        nodeQuit (mon w1) = nodeQuit (mon w) /\ chans w1 = S (S (S (chans w)))
    | None =>
        nodeQuit (mon w1) = <[Node.Name node := S (S (S (chans w)))]> (nodeQuit (mon w)) /\
        chans w1 = S (S (S (S (chans w))))
    end.
Proof.
  intros H. destruct (heap w !! n) as [node|] eqn:Hn.
  2:{ rewrite (Monitor_nil _ _ Hn) in H. discriminate. }
  rewrite (Monitor_eq n w node Hn) in H. cbv zeta in H.
  destruct (Node.Start _) as [trS [[[e|] node2]| |]] eqn:HS; try discriminate.
  - apply Start_failure in HS as (-> & Hname & Hq). cbn in Hname, Hq.
    inversion H; subst tr err w1. exists node, node2. cbn. repeat split; assumption.
  - apply Start_success in HS as (_ & _ & Hname & Hq & _). cbn in Hname, Hq.
    inversion H; subst tr err w1. exists node, node2. cbn. rewrite Hname.
    repeat split; assumption.
Qed.

(** X15: a node left tracked by a failed [Monitor] cannot be removed.
    When [Monitor(n)] returns an error and no quit channel was registered
    under the name of [n], the node is in the tracked list, and
    [Unmonitor(n)] on the monitor so left panics: there is no quit channel
    to close. *)
Theorem X15_failed_Monitor_then_Unmonitor_panics
    (n : loc) (w w1 : world) tr (e : error) :
  allocated w ->
  nodeQuit (mon w) !! name_at w n = None ->
  Monitor n w = (tr, Done (Some e, w1)) ->
  In n (Nodes (mon w1)) /\
  exists msg, Unmonitor n w1 = ([], Panic msg).
Proof.
  intros Hall Hq H.
  apply Monitor_done in H
    as (node & node' & Hn & Hname & _ & Hh & HN & _ & _ & _ & HQ & _).
  split. { rewrite HN. apply in_or_app. right. left. reflexivity. }
  assert (Hn1 : heap w1 !! n = Some node') by (rewrite Hh; apply lookup_insert_eq).
  assert (Hall1 : allocated w1).
  { unfold allocated. rewrite HN, Hh. apply Forall_app. split.
    - eapply Forall_impl; [exact Hall|]. intros l [x Hx]. cbn beta.
      destruct (decide (n = l)) as [->|Hne].
      + rewrite lookup_insert_eq. eexists; reflexivity.
      + rewrite lookup_insert_ne by exact Hne. eexists; exact Hx.
    - constructor; [|constructor]. rewrite lookup_insert_eq. eexists; reflexivity. }
  rewrite (Unmonitor_eq n w1 node' Hn1 Hall1). cbv zeta.
  unfold name_at in Hq. rewrite Hn in Hq. rewrite HQ, Hname, Hq.
  destruct (Node.quit node'); eexists; reflexivity.
Qed.

(** A fresh monitor is given a node whose endpoint refuses the
    connection. *)
Lemma X15_failed_Monitor_witness :
  exists w1,
    Monitor 0%nat (init {[0%nat := Fixtures.nodeDown]})
    = ([], Done (Some "connection refused"%string, w1)) /\
    In 0%nat (Nodes (mon w1)) /\
    exists msg, Unmonitor 0%nat w1 = ([], Panic msg).
Proof.
  assert (Hrun : exists w1,
            Monitor 0%nat (init {[0%nat := Fixtures.nodeDown]})
            = ([], Done (Some "connection refused"%string, w1))).
  { eexists. vm_compute. reflexivity. }
  destruct Hrun as (w1 & Hrun). exists w1. split; [exact Hrun|].
  apply (X15_failed_Monitor_then_Unmonitor_panics 0%nat
           (init {[0%nat := Fixtures.nodeDown]}) w1 [] "connection refused"%string);
    [constructor|reflexivity|exact Hrun].
Defined.

(** *** The quit channels of the listeners *)

Lemma allocated_insert (h : gmap loc Node.t) (n : loc) (node' : Node.t) (ls : list loc) :
  Forall (fun l => is_Some (h !! l)) ls ->
  Forall (fun l => is_Some (<[n := node']> h !! l)) ls.
Proof.
  intros Hall. eapply Forall_impl; [exact Hall|]. intros l [x Hx]. cbn beta.
  destruct (decide (n = l)) as [->|Hne].
  - rewrite lookup_insert_eq. eexists; reflexivity.
  - rewrite lookup_insert_ne by exact Hne. eexists; exact Hx.
Qed.

Lemma Monitor_allocated (n : loc) (w w1 : world) tr err :
  allocated w -> Monitor n w = (tr, Done (err, w1)) -> allocated w1.
Proof.
  intros Hall H.
  apply Monitor_done in H as (node & node' & Hn & _ & _ & Hh & HN & _).
  unfold allocated. rewrite HN, Hh. apply Forall_app. split.
  - apply allocated_insert. exact Hall.
  - constructor; [|constructor]. rewrite lookup_insert_eq. eexists; reflexivity.
Qed.

Lemma Unmonitor_allocated (n : loc) (w w1 : world) tr :
  allocated w -> Unmonitor n w = (tr, Done (tt, w1)) -> allocated w1.
Proof.
  intros Hall H.
  apply (Unmonitor_done _ _ _ _ Hall) in H
    as (node & c & i & lst & Hn & _ & _ & _ & Hf & Hl & _ & ->).
  unfold allocated. cbn [heap mon Nodes].
  apply allocated_insert.
  apply Forall_take. apply Forall_insert; [exact Hall|].
  apply (Forall_lookup_1 _ _ _ _ Hall Hl).
Qed.

Lemma Monitor_quits_sound (n : loc) (w w1 : world) tr err :
  quits_sound w -> Monitor n w = (tr, Done (err, w1)) -> quits_sound w1.
Proof.
  intros (Ha & Hb & Hc) H.
  apply Monitor_done in H as (node & node' & _ & _ & _ & _ & _ & Hcl & _ & Hcase).
  destruct err as [e|].
  - destruct Hcase as (_ & HQ & Hch). unfold quits_sound. rewrite HQ, Hch, Hcl.
    split; [|split].
    + intros name c Hq. destruct (Ha _ _ Hq) as [Hlt Hno]. split; [lia|exact Hno].
    + intros c Hin. specialize (Hb _ Hin). lia.
    + exact Hc.
  - destruct Hcase as (HQ & Hch). unfold quits_sound. rewrite HQ, Hch, Hcl.
    assert (Hold : forall name c, name <> Node.Name node ->
              <[Node.Name node := S (S (S (chans w)))]> (nodeQuit (mon w)) !! name = Some c ->
              (c < chans w)%nat /\ c ∉ closed w).
    { intros name c Hne Hq. rewrite lookup_insert_ne in Hq by congruence.
      exact (Ha _ _ Hq). }
    split; [|split].
    + intros name c Hq. destruct (decide (name = Node.Name node)) as [->|Hne].
      * rewrite lookup_insert_eq in Hq. inversion Hq; subst c. split; [lia|].
        intros Hin. specialize (Hb _ Hin). lia.
      * destruct (Hold _ _ Hne Hq) as [Hlt Hno]. split; [lia|exact Hno].
    + intros c Hin. specialize (Hb _ Hin). lia.
    + intros name1 name2 c H1 H2.
      destruct (decide (name1 = Node.Name node)) as [->|Hne1];
        destruct (decide (name2 = Node.Name node)) as [->|Hne2].
      * reflexivity.
      * rewrite lookup_insert_eq in H1. inversion H1; subst c.
        destruct (Hold _ _ Hne2 H2) as [Hlt _]. lia.
      * rewrite lookup_insert_eq in H2. inversion H2; subst c.
        destruct (Hold _ _ Hne1 H1) as [Hlt _]. lia.
      * rewrite lookup_insert_ne in H1, H2 by congruence. exact (Hc _ _ _ H1 H2).
Qed.

Lemma Unmonitor_quits_sound (n : loc) (w w1 : world) tr :
  allocated w -> quits_sound w -> Unmonitor n w = (tr, Done (tt, w1)) -> quits_sound w1.
Proof.
  intros Hall (Ha & Hb & Hc) H.
  apply (Unmonitor_done _ _ _ _ Hall) in H
    as (node & c & i & lst & Hn & _ & Hq & Hcl & _ & _ & _ & ->).
  unfold quits_sound. cbn [mon nodeQuit chans closed].
  split; [|split].
  - intros name c' Hq'. apply lookup_delete_Some in Hq' as [Hne Hq'].
    destruct (Ha _ _ Hq') as [Hlt Hno]. split; [exact Hlt|].
    intros Hin. apply elem_of_union in Hin as [Hin|Hin]; [|contradiction].
    apply elem_of_singleton in Hin. subst c'. apply Hne. exact (Hc _ _ _ Hq Hq').
  - intros c' Hin. apply elem_of_union in Hin as [Hin|Hin]; [|exact (Hb _ Hin)].
    apply elem_of_singleton in Hin. subst c'. exact (proj1 (Ha _ _ Hq)).
  - intros name1 name2 c' H1 H2.
    apply lookup_delete_Some in H1 as [_ H1]. apply lookup_delete_Some in H2 as [_ H2].
    exact (Hc _ _ _ H1 H2).
Qed.

Lemma calls_invariant (w : world) (ops : list op) (w' : world) :
  calls w ops w' -> allocated w -> quits_sound w -> allocated w' /\ quits_sound w'.
Proof.
  induction 1 as [w|w n ops tr err w1 w2 HM _ IH|w n ops tr w1 w2 HU _ IH];
    intros Hall Hq.
  - split; assumption.
  - apply IH.
    + exact (Monitor_allocated _ _ _ _ _ Hall HM).
    + exact (Monitor_quits_sound _ _ _ _ _ Hq HM).
  - apply IH.
    + exact (Unmonitor_allocated _ _ _ _ Hall HU).
    + exact (Unmonitor_quits_sound _ _ _ _ Hall Hq HU).
Qed.

(** X16: the quit channels stay sound. After any calls of [Monitor] and
    [Unmonitor] on a fresh monitor none of which panics, whatever the
    [Monitor] calls have returned, no tracked pointer is nil, every quit
    channel registered has been made by the monitor and is not closed, every
    closed channel has been made by it, and no channel is registered under
    two names: closing the channel of one name stops no listener of another
    name. *)
Theorem X16_quit_channels_sound (h : gmap loc Node.t) (ops : list op) (w : world) :
  calls (init h) ops w ->
  allocated w /\ quits_sound w.
Proof.
  intros H. apply (calls_invariant _ _ _ H).
  - constructor.
  - split; [|split].
    + intros name c Hq. cbn in Hq. rewrite lookup_empty in Hq. discriminate.
    + intros c Hin. cbn in Hin. set_solver.
    + intros name1 name2 c Hq. cbn in Hq. rewrite lookup_empty in Hq. discriminate.
Qed.

(** Node a is registered, the registration of an unreachable node fails,
    and node a is removed. *)
Lemma X16_quit_channels_witness :
  exists w,
    calls (init {[0%nat := Fixtures.nodeA; 1%nat := Fixtures.nodeDown]})
      [OpMonitor 0%nat; OpMonitor 1%nat; OpUnmonitor 0%nat] w /\
    allocated w /\ quits_sound w.
Proof.
  assert (Hrun : exists w,
            calls (init {[0%nat := Fixtures.nodeA; 1%nat := Fixtures.nodeDown]})
              [OpMonitor 0%nat; OpMonitor 1%nat; OpUnmonitor 0%nat] w).
  { eexists.
    eapply calls_Monitor; [vm_compute; reflexivity|].
    eapply calls_Monitor; [vm_compute; reflexivity|].
    eapply calls_Unmonitor; [vm_compute; reflexivity|].
    apply calls_nil. }
  destruct Hrun as [w Hrun]. exists w. split; [exact Hrun|].
  exact (X16_quit_channels_sound _ _ _ Hrun).
Defined.

(** *** The validator-refresh loop *)

(** X17: one iteration of [updateNumValidatorLoop] on a monitor that
    tracks nodes, none through a nil pointer. Woken by the quit channel it
    returns and changes nothing. Woken by the timer it queries the tracked
    node at the index drawn, and only that node: the variables take the
    height and count of the answer, or (0, 0, err) when the query fails; the
    node's RPC client has made one more call; the validator count of
    [Network] is overwritten exactly when the height of [Network] is at most
    the height in the variables; the height of [Network], the tracked list and
    the channels are as before, and nothing is started or sent. *)
Theorem X17_refresh_iteration (rnd : nat) (v : vars) (w : world) :
  allocated w -> Nodes (mon w) <> [] ->
  updateNumValidator_iteration rnd WakeQuit v w = ([], Done (None, w)) /\
  exists ln node,
    Nodes (mon w) !! (rnd mod length (Nodes (mon w)))%nat = Some ln /\
    heap w !! ln = Some node /\
    let c := Node.rpcClient node in
    let v' := match Node.validatorsReply c (Node.calls c) with
              | Ok vals => mkVars (uint64 (BlockHeight vals))
                                  (Z.of_nat (length (Validators vals))) None
              | Err e => mkVars 0 0 (Some e)
              end in
    let node' :=
      Node.set_rpcClient
        (Node.mkHTTPClient (Node.validatorsReply c) (Node.statusReply c) (S (Node.calls c)))
        node in
    updateNumValidator_iteration rnd WakeTimer v w
    = ([], Done (Some v',
         mkWorld (<[ln := node']> (heap w))
           (if Network.Height (Network (mon w)) <=? height v'
            then set_Network (Network.set_NumValidators (num v') (Network (mon w))) (mon w)
            else mon w)
           (chans w) (closed w))).
Proof.
  intros Hall Hne.
  assert (Hlen : (length (Nodes (mon w)) =? 0)%nat = false).
  { apply Nat.eqb_neq. intros Hz. apply length_zero_iff_nil in Hz. contradiction. }
  split.
  { unfold updateNumValidator_iteration. rewrite bind_unfold, get_run. cbv beta iota.
    rewrite Hlen. rewrite ret_run. reflexivity. }
  apply Nat.eqb_neq in Hlen as Hpos.
  destruct (lookup_lt_is_Some_2 (Nodes (mon w)) (rnd mod length (Nodes (mon w)))%nat)
    as [ln Hl]; [apply Nat.mod_upper_bound; exact Hpos|].
  destruct (Forall_lookup_1 _ _ _ _ Hall Hl) as [node Hn].
  exists ln, node. split; [exact Hl|]. split; [exact Hn|]. cbv zeta.
  unfold updateNumValidator_iteration.
  rewrite bind_unfold, get_run. cbv beta iota. rewrite Hlen.
  rewrite bind_unfold, get_run. cbv beta iota.
  rewrite bind_unfold.
  rewrite (query_node_at_found _ 0 _ v ln w);
    [|lia|rewrite Nat.sub_0_r; exact Hl].
  rewrite bind_unfold, (on_node_eq ln Node.NumValidators w node Hn), NumValidators_eq.
  cbv zeta.
  destruct (Node.validatorsReply (Node.rpcClient node) (Node.calls (Node.rpcClient node)))
    as [vals|e]; cbv beta iota; rewrite ret_run; cbv beta iota;
    rewrite bind_unfold, get_run; cbv beta iota; rewrite bind_unfold;
    cbn [mon set_heap Network height num].
  - destruct (Network.Height (Network (mon w)) <=? uint64 (BlockHeight vals)).
    + rewrite update_run. cbv beta iota. rewrite ret_run. reflexivity.
    + rewrite ret_run. cbv beta iota. rewrite ret_run. destruct w; reflexivity.
  - destruct (Network.Height (Network (mon w)) <=? 0).
    + rewrite update_run. cbv beta iota. rewrite ret_run. reflexivity.
    + rewrite ret_run. cbv beta iota. rewrite ret_run. destruct w; reflexivity.
Qed.

(** An iteration on a monitor that tracks the nodes a and b. *)
Lemma X17_refresh_witness :
  updateNumValidator_iteration 5 WakeQuit (mkVars 0 0 None) Fixtures.worldAB
  = ([], Done (None, Fixtures.worldAB)) /\
  exists ln node,
    Nodes (mon Fixtures.worldAB) !! (5 mod length (Nodes (mon Fixtures.worldAB)))%nat = Some ln /\
    heap Fixtures.worldAB !! ln = Some node /\
    let c := Node.rpcClient node in
    let v' := match Node.validatorsReply c (Node.calls c) with
              | Ok vals => mkVars (uint64 (BlockHeight vals))
                                  (Z.of_nat (length (Validators vals))) None
              | Err e => mkVars 0 0 (Some e)
              end in
    let node' :=
      Node.set_rpcClient
        (Node.mkHTTPClient (Node.validatorsReply c) (Node.statusReply c) (S (Node.calls c)))
        node in
    updateNumValidator_iteration 5 WakeTimer (mkVars 0 0 None) Fixtures.worldAB
    = ([], Done (Some v',
         mkWorld (<[ln := node']> (heap Fixtures.worldAB))
           (if Network.Height (Network (mon Fixtures.worldAB)) <=? height v'
            then set_Network (Network.set_NumValidators (num v') (Network (mon Fixtures.worldAB)))
                   (mon Fixtures.worldAB)
            else mon Fixtures.worldAB)
           (chans Fixtures.worldAB) (closed Fixtures.worldAB))).
Proof.
  apply X17_refresh_iteration.
  - exact worldAB_allocated.
  - discriminate.
Defined.

Lemma refresh_loop_without_nodes
    (inputs : list (nat * wake)) (v : vars) (w : world) :
  Nodes (mon w) = [] ->
  updateNumValidatorLoop inputs v w
  = (repeat (Sleep (numValidatorsUpdateInterval (mon w))) (length inputs),
     Done (false, w)).
Proof.
  intros Hnil. induction inputs as [|[rnd k] inputs IH].
  - reflexivity.
  - cbn [updateNumValidatorLoop length repeat]. rewrite bind_unfold.
    unfold updateNumValidator_iteration at 1.
    rewrite bind_unfold, get_run. cbv beta iota. rewrite Hnil. cbn [length Nat.eqb].
    rewrite bind_unfold, emit_run. cbv beta iota. rewrite ret_run. cbn [app].
    rewrite IH. reflexivity.
Qed.

(** X18: with no tracked node [updateNumValidatorLoop] only sleeps.
    Whatever the number of iterations and whatever would wake them, each
    iteration sleeps for the update interval and starts over: the loop
    queries nothing, changes nothing, and does not return, a closed quit
    channel of the monitor included, since it is not looked at. *)
Theorem X18_refresh_loop_without_nodes
    (inputs : list (nat * wake)) (v : vars) (w : world) :
  Nodes (mon w) = [] ->
  updateNumValidatorLoop inputs v w
  = (repeat (Sleep (numValidatorsUpdateInterval (mon w))) (length inputs),
     Done (false, w)).
Proof. exact (refresh_loop_without_nodes inputs v w). Qed.

(** Two iterations on a fresh monitor, the second with the quit channel
    ready. *)
Lemma X18_refresh_loop_witness :
  updateNumValidatorLoop [(0%nat, WakeTimer); (1%nat, WakeQuit)] (mkVars 0 0 None)
    (init ∅)
  = (repeat (Sleep (numValidatorsUpdateInterval (mon (init ∅)))) 2, Done (false, init ∅)).
Proof.
  apply (X18_refresh_loop_without_nodes [(0%nat, WakeTimer); (1%nat, WakeQuit)]).
  reflexivity.
Defined.

(** *** Stopping the monitor *)


Lemma removable_allocated (w : world) : removable w -> allocated w.
Proof.
  intros Hr. apply Forall_forall. intros n Hin.
  apply list_elem_of_In in Hin.
  destruct (Hr n Hin) as (node & c & Hn & _). eexists; exact Hn.
Qed.

Lemma names_inj (w : world) (n1 n2 : loc) :
  NoDup (names w) -> In n1 (Nodes (mon w)) -> In n2 (Nodes (mon w)) ->
  name_at w n1 = name_at w n2 -> n1 = n2.
Proof.
  intros Hnd H1 H2 Heq.
  apply list_elem_of_In, list_elem_of_lookup in H1 as [i1 H1].
  apply list_elem_of_In, list_elem_of_lookup in H2 as [i2 H2].
  assert (Hi1 : names w !! i1 = Some (name_at w n1))
    by (unfold names; rewrite list_lookup_fmap, H1; reflexivity).
  assert (Hi2 : names w !! i2 = Some (name_at w n1))
    by (unfold names; rewrite list_lookup_fmap, H2, Heq; reflexivity).
  pose proof (NoDup_lookup _ _ _ _ Hnd Hi1 Hi2) as ->. congruence.
Qed.

Lemma Unmonitor_step (len0 i : nat) (backing : list loc) (w : world) (n : loc) :
  stop_inv len0 i backing w -> backing !! i = Some n ->
  exists node c w1,
    heap w !! n = Some node /\ nodeQuit (mon w) !! Node.Name node = Some c /\
    In n (Nodes (mon w)) /\
    Unmonitor n w = ([], Done (tt, w1)) /\
    heap w1 = <[n := Node.stopped node]> (heap w) /\
    closed w1 = {[c]} ∪ closed w /\
    nodeQuit (mon w1) = delete (Node.Name node) (nodeQuit (mon w)) /\
    monitorQuit (mon w1) = monitorQuit (mon w) /\
    (forall l, In l (Nodes (mon w1)) <-> In l (Nodes (mon w)) /\ l <> n) /\
    stop_inv len0 (S i) (Nodes (mon w1) ++ drop (length (Nodes (mon w1))) backing) w1.
Proof.
  intros [Hlen Hcur Hpre Hrest Hnd Hrem Hun] Hi.
  pose proof (removable_allocated _ Hrem) as Hall.
  rewrite (drop_S _ _ _ Hi) in Hrest.
  assert (Hin : In n (Nodes (mon w))).
  { apply list_elem_of_In. rewrite <- Hrest. left. }
  destruct (Hrem n Hin) as (node & c & Hn & Hq & Hc & Hcl).
  assert (Hname : name_at w n = Node.Name node) by (unfold name_at; rewrite Hn; reflexivity).
  destruct (find_name (Node.Name node) (names w)) as [j|] eqn:Hf.
  2:{ apply find_name_None in Hf. exfalso. apply Hf. rewrite <- Hname.
      unfold names. apply in_map. exact Hin. }
  apply find_name_Some in Hf as Hj. destruct Hj as [Hj _].
  assert (Hnj : Nodes (mon w) !! j = Some n).
  { unfold names in Hj. rewrite list_lookup_fmap in Hj.
    destruct (Nodes (mon w) !! j) as [n'|] eqn:Hn'; [|discriminate].
    cbn in Hj. inversion Hj as [Hj'].
    f_equal. apply (names_inj w); [exact Hnd| |exact Hin|congruence].
    apply list_elem_of_In, list_elem_of_lookup. exists j. exact Hn'. }
  apply lookup_lt_Some in Hnj as Hjlt.
  destruct (lookup_lt_is_Some_2 (Nodes (mon w)) (length (Nodes (mon w)) - 1)%nat)
    as [lst Hl]; [lia|].
  pose proof (Unmonitor_eq n w node Hn Hall) as HU. cbv zeta in HU.
  rewrite Hq, Hc, bool_decide_false, Hf, Hl in HU by exact Hcl.
  eexists node, c, _. split; [exact Hn|]. split; [exact Hc|]. split; [exact Hin|].
  split; [exact HU|]. cbn [heap mon closed nodeQuit monitorQuit Nodes].
  do 4 (split; [reflexivity|]).
  assert (Hndl : NoDup (Nodes (mon w))) by (apply (NoDup_fmap_1 (name_at w)); exact Hnd).
  pose proof (swap_remove_perm (Nodes (mon w)) j n lst Hnj Hl) as Hperm.
  assert (Hmem : forall l, In l (take (length (Nodes (mon w)) - 1) (<[j := lst]> (Nodes (mon w))))
                           <-> In l (Nodes (mon w)) /\ l <> n).
  { intros l. rewrite <- (In_delete_NoDup (Nodes (mon w)) j n l Hndl Hnj).
    rewrite <- !list_elem_of_In, Hperm. reflexivity. }
  split; [exact Hmem|].
  set (cur := Nodes (mon w)) in *.
  set (cur1 := take (length cur - 1) (<[j := lst]> cur)) in *.
  assert (Hlen1 : length cur1 = (length cur - 1)%nat).
  { unfold cur1. rewrite length_take, length_insert. lia. }
  assert (Hji : (i < length cur)%nat -> j = i).
  { intros Hlt. assert (Hci : cur !! i = Some n).
    { rewrite <- Hpre, lookup_take_lt by exact Hlt. exact Hi. }
    exact (NoDup_lookup _ _ _ _ Hndl Hnj Hci). }
  split.
  - rewrite length_app, length_drop. lia.
  - cbn [mon Nodes]. lia.
  - cbn [mon Nodes]. apply take_app_length.
  - cbn [mon Nodes].
    assert (Hd : drop (S i) (cur1 ++ drop (length cur1) backing) = drop (S i) backing).
    { apply list_eq. intros p. rewrite !lookup_drop.
      destruct (decide (S i + p < length cur1)%nat) as [Hlt|Hge].
      - rewrite lookup_app_l by exact Hlt.
        unfold cur1. rewrite lookup_take_lt by lia.
        rewrite list_lookup_insert_ne by (rewrite Hji; lia).
        rewrite <- Hpre. rewrite lookup_take_lt by lia. reflexivity.
      - rewrite lookup_app_r by lia. rewrite lookup_drop. f_equal. lia. }
    rewrite Hd. rewrite Hperm.
    apply (Permutation_cons_inv (a := n)). rewrite Hrest.
    apply delete_Permutation. exact Hnj.
  - unfold names. cbn [mon Nodes].
    erewrite map_ext; [|intros l; apply (name_at_insert w n node); [exact Hn|reflexivity]].
    fold cur1. change (map (name_at w) cur1) with (name_at w <$> cur1).
    rewrite Hperm. 
    eapply sublist_NoDup; [exact Hnd|]. apply fmap_sublist, sublist_delete.
  - intros l Hl1. cbn [mon Nodes] in Hl1. apply Hmem in Hl1 as [Hl1 Hne].
    destruct (Hrem l Hl1) as (nodel & cl & Hnl & Hql & Hcl' & Hcll).
    exists nodel, cl. cbn [heap mon nodeQuit closed].
    rewrite lookup_insert_ne by congruence.
    split; [exact Hnl|]. split; [exact Hql|].
    assert (Hnn : Node.Name nodel <> Node.Name node).
    { intros Heq. apply Hne. apply (names_inj w); [exact Hnd|exact Hl1|exact Hin|].
      unfold name_at. rewrite Hnl, Hn. exact Heq. }
    split.
    + rewrite lookup_delete_ne by congruence. exact Hcl'.
    + intros Hx. apply elem_of_union in Hx as [Hx|Hx]; [|contradiction].
      apply elem_of_singleton in Hx. subst cl. apply Hnn. exact (Hun _ _ _ Hcl' Hc).
  - intros name1 name2 c' H1 H2. cbn [mon nodeQuit] in H1, H2.
    apply lookup_delete_Some in H1 as [_ H1]. apply lookup_delete_Some in H2 as [_ H2].
    exact (Hun _ _ _ H1 H2).
Qed.

Lemma Stop_range_spec (len0 : nat) (k : nat) :
  forall (i : nat) (backing : list loc) (w : world),
    stop_inv len0 i backing w -> length (Nodes (mon w)) = k ->
    exists w',
      Stop_range k i backing w = ([], Done (tt, w')) /\
      Nodes (mon w') = [] /\
      monitorQuit (mon w') = monitorQuit (mon w) /\
      (forall n, In n (Nodes (mon w)) ->
         exists node c,
           heap w !! n = Some node /\ heap w' !! n = Some (Node.stopped node) /\
           nodeQuit (mon w) !! Node.Name node = Some c /\ c ∈ closed w' /\
           nodeQuit (mon w') !! Node.Name node = None) /\
      (forall n, ~ In n (Nodes (mon w)) -> heap w' !! n = heap w !! n) /\
      (forall c, c ∈ closed w -> c ∈ closed w') /\
      (forall name, nodeQuit (mon w) !! name = None -> nodeQuit (mon w') !! name = None).
Proof.
  induction k as [|k IH]; intros i backing w Hinv Hk.
  - exists w. apply length_zero_iff_nil in Hk. cbn [Stop_range]. rewrite ret_run.
    split; [reflexivity|]. split; [exact Hk|]. split; [reflexivity|].
    split; [intros n Hin; rewrite Hk in Hin; destruct Hin|].
    split; [reflexivity|]. split; intros; assumption.
  - destruct (lookup_lt_is_Some_2 backing i) as [n0 Hi].
    { rewrite (inv_len _ _ _ _ Hinv). pose proof (inv_cur _ _ _ _ Hinv). lia. }
    destruct (Unmonitor_step _ _ _ _ _ Hinv Hi)
      as (node & c & w1 & Hn & Hc & Hin0 & HU & Hh & Hcl & HQ & HmQ & Hmem & Hinv1).
    assert (Hk1 : length (Nodes (mon w1)) = k).
    { pose proof (inv_cur _ _ _ _ Hinv). pose proof (inv_cur _ _ _ _ Hinv1). lia. }
    destruct (IH _ _ _ Hinv1 Hk1) as (w' & HS & HN & HmQ' & Hst & Hfr & Hsub & Hdel).
    exists w'. cbn [Stop_range]. rewrite Hi.
    rewrite bind_unfold, HU. cbv beta iota. rewrite bind_unfold, get_run. cbv beta iota.
    rewrite HS. cbn [app].
    split; [reflexivity|]. split; [exact HN|]. split; [congruence|].
    split; [|split; [|split]].
    + intros n Hin. destruct (decide (n = n0)) as [->|Hne].
      * exists node, c. split; [exact Hn|]. split.
        { rewrite Hfr by (intros Hx; apply Hmem in Hx as [_ Hx]; congruence).
          rewrite Hh. apply lookup_insert_eq. }
        split; [exact Hc|]. split.
        { apply Hsub. rewrite Hcl. apply elem_of_union. left.
          apply elem_of_singleton. reflexivity. }
        apply Hdel. rewrite HQ. apply lookup_delete_eq.
      * assert (Hin1 : In n (Nodes (mon w1))) by (apply Hmem; split; assumption).
        destruct (Hst n Hin1) as (node1 & c1 & Hn1 & Hn1' & Hc1 & Hc1' & Hq1).
        exists node1, c1. rewrite Hh, lookup_insert_ne in Hn1 by congruence.
        split; [exact Hn1|]. split; [exact Hn1'|].
        rewrite HQ in Hc1. apply lookup_delete_Some in Hc1 as [_ Hc1].
        split; [exact Hc1|]. split; [exact Hc1'|exact Hq1].
    + intros n Hnin.
      assert (Hne : n <> n0) by (intros ->; contradiction).
      rewrite Hfr by (intros Hx; apply Hmem in Hx as [Hx _]; contradiction).
      rewrite Hh. apply lookup_insert_ne. congruence.
    + intros c' Hc'. apply Hsub. rewrite Hcl. apply elem_of_union. right. exact Hc'.
    + intros name Hq. apply Hdel. rewrite HQ.
      apply lookup_delete_None. right. exact Hq.
Qed.

Lemma Stop_closed (w : world) :
  monitorQuit (mon w) = Closed ->
  Stop w = ([], Panic "close of closed channel"%string).
Proof.
  intros Hq. unfold Stop. rewrite bind_unfold, get_run. cbv beta iota.
  rewrite bind_unfold, Hq. reflexivity.
Qed.

(** X19: [Stop] removes every node. On a monitor whose quit channel is
    open, that tracks no name twice, each of whose tracked nodes has an open
    quit channel and an open quit channel registered under its name, no
    channel being registered under two names, [Stop] returns: although
    [Unmonitor] reorders and shortens the slice the loop ranges over, every
    node tracked before is stopped once, the quit channel of its listener is
    closed and its entry deleted, no node stays tracked, and no other node is
    touched. The quit channel of the monitor is closed, so a second [Stop]
    panics; and with no node left, every later iteration of
    [updateNumValidatorLoop] only sleeps: that loop does not return. *)
Theorem X19_Stop_removes_every_node (w : world) :
  monitorQuit (mon w) = Open -> NoDup (names w) -> removable w -> unshared w ->
  exists w',
    Stop w = ([], Done (tt, w')) /\
    Nodes (mon w') = [] /\
    monitorQuit (mon w') = Closed /\
    (forall n, In n (Nodes (mon w)) ->
       exists node c,
         heap w !! n = Some node /\ heap w' !! n = Some (Node.stopped node) /\
         nodeQuit (mon w) !! Node.Name node = Some c /\ c ∈ closed w' /\
         nodeQuit (mon w') !! Node.Name node = None) /\
    (forall n, ~ In n (Nodes (mon w)) -> heap w' !! n = heap w !! n) /\
    Stop w' = ([], Panic "close of closed channel"%string) /\
    (forall inputs v,
       updateNumValidatorLoop inputs v w'
       = (repeat (Sleep (numValidatorsUpdateInterval (mon w'))) (length inputs),
          Done (false, w'))).
Proof.
  intros Hq Hnd Hrem Hun. unfold Stop at 1. rewrite bind_unfold, get_run. cbv beta iota.
  rewrite bind_unfold, Hq, update_run.
  cbv beta iota. rewrite bind_unfold, get_run. cbv beta iota.
  cbn [mon set_mon set_monitorQuit Nodes].
  set (w0 := set_mon (set_monitorQuit Closed (mon w)) w).
  assert (Hinv : stop_inv (length (Nodes (mon w))) 0 (Nodes (mon w)) w0).
  { split.
    - reflexivity.
    - cbn. lia.
    - cbn. apply firstn_all.
    - cbn. reflexivity.
    - exact Hnd.
    - exact Hrem.
    - exact Hun. }
  destruct (Stop_range_spec _ _ 0%nat _ w0 Hinv eq_refl)
    as (w' & HS & HN & HmQ & Hst & Hfr & _ & _).
  change (length (Nodes (mon w0))) with (length (Nodes (mon w))) in HS.
  exists w'. rewrite HS. cbn [app]. split; [reflexivity|]. split; [exact HN|].
  split; [exact HmQ|]. split; [exact Hst|]. split; [exact Hfr|].
  split; [apply Stop_closed; exact HmQ|].
  intros inputs v. apply refresh_loop_without_nodes. exact HN.
Qed.

Lemma worldAB_removable : removable Fixtures.worldAB.
Proof.
  intros n [<-|[<-|[]]].
  - exists Fixtures.nodeA, 3%nat. repeat split. apply not_elem_of_empty.
  - exists Fixtures.nodeB, 7%nat. repeat split. apply not_elem_of_empty.
Qed.

Lemma worldAB_unshared : unshared Fixtures.worldAB.
Proof.
  intros name1 name2 c H1 H2. cbn in H1, H2.
  apply lookup_insert_Some in H1 as [[<- <-]|[Hne1 H1]];
    apply lookup_insert_Some in H2 as [[<- Hc]|[Hne2 H2]]; try reflexivity.
  - apply lookup_singleton_Some in H2 as [<- H2]. discriminate.
  - apply lookup_singleton_Some in H1 as [<- H1]. subst c. discriminate.
  - apply lookup_singleton_Some in H1 as [<- H1].
    apply lookup_singleton_Some in H2 as [<- H2]. reflexivity.
Qed.

(** A monitor that tracks nodes a and b is stopped. *)
Lemma X19_Stop_witness :
  exists w',
    Stop Fixtures.worldAB = ([], Done (tt, w')) /\
    Nodes (mon w') = [] /\
    monitorQuit (mon w') = Closed /\
    (forall n, In n (Nodes (mon Fixtures.worldAB)) ->
       exists node c,
         heap Fixtures.worldAB !! n = Some node /\ heap w' !! n = Some (Node.stopped node) /\
         nodeQuit (mon Fixtures.worldAB) !! Node.Name node = Some c /\ c ∈ closed w' /\
         nodeQuit (mon w') !! Node.Name node = None) /\
    (forall n, ~ In n (Nodes (mon Fixtures.worldAB)) -> heap w' !! n = heap Fixtures.worldAB !! n) /\
    Stop w' = ([], Panic "close of closed channel"%string) /\
    (forall inputs v,
       updateNumValidatorLoop inputs v w'
       = (repeat (Sleep (numValidatorsUpdateInterval (mon w'))) (length inputs),
          Done (false, w'))).
Proof.
  apply X19_Stop_removes_every_node.
  - reflexivity.
  - apply NoDup_cons. split; [|apply NoDup_singleton].
    intros Hx. apply list_elem_of_singleton in Hx. discriminate.
  - exact worldAB_removable.
  - exact worldAB_unshared.
Defined.

End MonitorMore.
